(** * UAV-cesium: instanced 3D model tile content and globe surface tile provider

    A shallow embedding of

      - [Source/Scene/Instanced3DModel3DTileContentProvider.js]
        (binary i3dm decoder, content state machine, feature accessor), and
      - [Source/Scene/GlobeSurfaceTileProvider.js]
        (draw-command pool, imagery-layer removal, distance metric),

    followed by the properties of the specification that are stated about
    them.  JavaScript numbers are IEEE 754 binary64 values and are embedded
    as Rocq's primitive [float]s; unsigned integers read from a [DataView]
    are embedded as [Z]; objects whose identity matters (feature handles,
    pooled draw commands, imagery layers) carry an explicit identity. *)

From Stdlib Require Import ZArith List Bool String Lia Floats Sorted Permutation.
From Stdlib Require Import Strings.Byte.
Import ListNotations.

Set Implicit Arguments.

(* ================================================================== *)
(** * Part I: definitions                                              *)
(* ================================================================== *)

(** ** JavaScript completions *)

(** The three [DeveloperError]s raised by [initialize], each carrying the
    value that was read (the source interpolates it into the message),
    and the one raised by [getFeature]. *)
Inductive DeveloperErrorKind :=
| InvalidMagic (magic : list byte)
| UnsupportedVersion (version : Z)
| UnsupportedGltfFormat (gltfFormat : Z)
| BatchIdOutOfRange (featuresLength : Z).

Inductive Exception :=
| DeveloperError (k : DeveloperErrorKind)
| RangeError
| SyntaxError
| TypeError
| Rejection (reason : string).

Inductive Completion (A : Type) :=
| Normal (a : A)
| Throw (e : Exception).
Arguments Normal {A} a.
Arguments Throw {A} e.

(** ** ArrayBuffer, Uint8Array and DataView *)

Module DataView.

Definition ArrayBuffer := list byte.

Definition byteZ (b : byte) : Z := Z.of_N (Byte.to_N b).

(** A view of [byteLength] bytes of [buffer] starting at [byteOffset]. *)
Record t := mk {
  buffer : ArrayBuffer;
  byteOffset : nat;
  byteLength : nat
}.

(** [new DataView(buffer)]. *)
Definition whole (b : ArrayBuffer) : t := mk b 0 (List.length b).

(** [new DataView(buffer, byteOffset, byteLength)] and
    [new Uint8Array(buffer, byteOffset, length)]: a [RangeError] when the
    window does not fit in the buffer. *)
Definition window (b : ArrayBuffer) (off len : nat) : option t :=
  if (off + len <=? List.length b)%nat then Some (mk b off len) else None.

(** The bytes a view covers. *)
Definition bytes (v : t) : list byte :=
  firstn (byteLength v) (skipn (byteOffset v) (buffer v)).

(** Little-endian combination of [n] bytes starting at absolute
    position [pos]. *)
Fixpoint uintLE (b : ArrayBuffer) (pos n : nat) : option Z :=
  match n with
  | O => Some 0%Z
  | S k =>
      match nth_error b pos, uintLE b (S pos) k with
      | Some lo, Some hi => Some (Z.lor (byteZ lo) (Z.shiftl hi 8))
      | _, _ => None
      end
  end.

(** A multi-byte read at view-relative offset [off]; [None] stands for
    the [RangeError] of an access outside the view. *)
Definition getUint (width : nat) (v : t) (off : nat) : option Z :=
  if (off + width <=? byteLength v)%nat
  then uintLE (buffer v) (byteOffset v + off) width
  else None.

(** [view.getUint16(off, true)] and [view.getUint32(off, true)]. *)
Definition getUint16 := getUint 2.
Definition getUint32 := getUint 4.

(** The binary64 value with bit pattern [b] (sign bit 63, biased
    exponent bits 62..52, fraction bits 51..0). *)
Definition float64_of_bits (b : Z) : float :=
  let sign := Z.testbit b 63 in
  let e := Z.land (Z.shiftr b 52) 2047 in
  let m := Z.land b (2 ^ 52 - 1) in
  let mag :=
    if (e =? 2047)%Z then (if (m =? 0)%Z then infinity else nan)
    else if (e =? 0)%Z
         then Z.ldexp (of_uint63 (Uint63.of_Z m)) (-1074)
         else Z.ldexp (of_uint63 (Uint63.of_Z (m + 2 ^ 52))) (e - 1075) in
  if sign then (- mag)%float else mag.

(** [view.getFloat64(off, true)]. *)
Definition getFloat64 (v : t) (off : nat) : option float :=
  option_map float64_of_bits (getUint 8 v off).

End DataView.

Definition sizeOfUint16 : nat := 2.
Definition sizeOfUint32 : nat := 4.
Definition sizeOfFloat64 : nat := 8.

(** ** Collaborators of the content provider

    Functions of [Core/] and of the JavaScript runtime that the provider
    calls and whose code is not part of the two files embedded here. *)
Class Collaborators := {
  (** A parsed batch table. *)
  Json : Type;
  (** [tile.contentBoundingVolume.boundingVolume]. *)
  BoundingVolume : Type;
  (** [JSON.parse] on the decoded batch-table string; [None] is its
      [SyntaxError]. *)
  JSON_parse : list byte -> option Json;
  (** [Cartesian3.fromRadians(longitude, latitude, height, WGS84)]. *)
  Cartesian3_fromRadians : float -> float -> float -> float * float * float;
  (** [Transforms.eastNorthUpToFixedFrame(position)], a 4x4 matrix. *)
  Transforms_eastNorthUpToFixedFrame : float * float * float -> list float;
  (** [getAbsoluteUri(relative, base)]. *)
  getAbsoluteUri : string -> string -> string
}.

(** Modelled from the spec: [Core/getMagic] is not among the sources; the
    specification describes the magic as the 4-byte tag at the start of
    the container, so [getMagic] returns the (at most four) bytes found
    at [byteOffset]. *)
Definition getMagic (uint8Array : list byte) (byteOffset : nat) : list byte :=
  firstn 4 (skipn byteOffset uint8Array).

(** The bytes of the string ['i3dm']. *)
Definition i3dm : list byte := [x69; x33; x64; x6d].

Definition magic_eqb (a b : list byte) : bool :=
  if list_eq_dec Byte.byte_eq_dec a b then true else false.

(** Modelled from the spec: [Core/getStringFromTypedArray] is not among
    the sources; it decodes [byteLength] bytes of the array starting at
    [byteOffset].  The decoded string is represented by its bytes; a
    window outside the array is a [RangeError]. *)
Definition getStringFromTypedArray (uint8Array : list byte)
    (byteOffset byteLength : nat) : option (list byte) :=
  option_map DataView.bytes (DataView.window uint8Array byteOffset byteLength).

(** ** Deferreds *)

Module Deferred.

(** Modelled from the spec: [ThirdParty/when] is not among the sources.
    The specification states that each observer slot is single-resolution
    (resolving twice is a no-op), so a deferred is pending until its
    first [resolve] or [reject].  The content resolves its deferreds
    with itself, hence [Resolved] carries no value. *)
Inductive t :=
| Pending
| Resolved
| Rejected (error : Exception).

(** [when.defer()]. *)
Definition defer : t := Pending.

(** Modelled from the spec: [resolve] settles a pending deferred and is
    ignored by a settled one. *)
Definition resolve (d : t) : t :=
  match d with Pending => Resolved | _ => d end.

(** Modelled from the spec: [reject] settles a pending deferred and is
    ignored by a settled one. *)
Definition reject (d : t) (error : Exception) : t :=
  match d with Pending => Rejected error | _ => d end.

Definition settled (d : t) : bool :=
  match d with Pending => false | _ => true end.

End Deferred.

(** ** Data model of [Instanced3DModel3DTileContentProvider] *)

Inductive Cesium3DTileContentState :=
| UNLOADED | LOADING | PROCESSING | READY | FAILED.

Section ContentProvider.

Context {collab : Collaborators}.

(** An element of [collectionOptions.instances]. *)
Record Instance := {
  modelMatrix : list float;
  batchId : Z
}.

(** [new Cesium3DTileBatchTableResources(content, featuresLength)] with
    its [batchTable] property. *)
Record Cesium3DTileBatchTableResources := {
  btFeaturesLength : Z;
  batchTable : option Json
}.

(** [new ModelInstanceCollection(collectionOptions)]: the collection is
    represented by the options it was built from. *)
Record ModelInstanceCollection := {
  instances : list Instance;
  batchTableResources : Cesium3DTileBatchTableResources;
  boundingVolume : BoundingVolume;
  cull : bool;
  url : option string;
  gltf : option (list byte);
  basePath : option string
}.

(** Modelled from the spec: [ModelInstanceCollection] is not among the
    sources; its [length] is the number of instances it was given. *)
Definition collectionLength (m : ModelInstanceCollection) : Z :=
  Z.of_nat (List.length (instances m)).

Record Cesium3DTileset := { baseUrl : string }.

Record Cesium3DTile := {
  distanceToCamera : float;
  contentBoundingVolume : BoundingVolume
}.

(** [new Cesium3DTileFeature(tileset, batchTableResources, batchId)].
    [featureObject] is the identity of the allocated object. *)
Record Cesium3DTileFeature := {
  featureObject : nat;
  featureTileset : Cesium3DTileset;
  featureBatchTableResources : option Cesium3DTileBatchTableResources;
  featureBatchId : nat
}.

(** The fields assigned by the constructor.  [destroyed] stands for the
    own property [isDestroyed] of the object: the prototype method
    returns [false], and [destroyObject] replaces it. *)
Record Content := {
  _modelInstanceCollection : option ModelInstanceCollection;
  _url : string;
  _tileset : Cesium3DTileset;
  _tile : Cesium3DTile;
  state : Cesium3DTileContentState;
  processingPromise : Deferred.t;
  readyPromise : Deferred.t;
  _batchTableResources : option Cesium3DTileBatchTableResources;
  _features : option (list Cesium3DTileFeature);
  destroyed : bool
}.

(** [new Instanced3DModel3DTileContentProvider(tileset, tile, url)]. *)
Definition newContent (tileset : Cesium3DTileset) (tile : Cesium3DTile)
    (url : string) : Content :=
  {| _modelInstanceCollection := None;
     _url := url;
     _tileset := tileset;
     _tile := tile;
     state := UNLOADED;
     processingPromise := Deferred.defer;
     readyPromise := Deferred.defer;
     _batchTableResources := None;
     _features := None;
     destroyed := false |}.

Definition set_modelInstanceCollection (c : Content) v : Content :=
  {| _modelInstanceCollection := v; _url := _url c; _tileset := _tileset c;
     _tile := _tile c; state := state c;
     processingPromise := processingPromise c;
     readyPromise := readyPromise c;
     _batchTableResources := _batchTableResources c;
     _features := _features c; destroyed := destroyed c |}.

Definition set_state (c : Content) v : Content :=
  {| _modelInstanceCollection := _modelInstanceCollection c;
     _url := _url c; _tileset := _tileset c;
     _tile := _tile c; state := v;
     processingPromise := processingPromise c;
     readyPromise := readyPromise c;
     _batchTableResources := _batchTableResources c;
     _features := _features c; destroyed := destroyed c |}.

Definition set_processingPromise (c : Content) v : Content :=
  {| _modelInstanceCollection := _modelInstanceCollection c;
     _url := _url c; _tileset := _tileset c;
     _tile := _tile c; state := state c;
     processingPromise := v;
     readyPromise := readyPromise c;
     _batchTableResources := _batchTableResources c;
     _features := _features c; destroyed := destroyed c |}.

Definition set_readyPromise (c : Content) v : Content :=
  {| _modelInstanceCollection := _modelInstanceCollection c;
     _url := _url c; _tileset := _tileset c;
     _tile := _tile c; state := state c;
     processingPromise := processingPromise c;
     readyPromise := v;
     _batchTableResources := _batchTableResources c;
     _features := _features c; destroyed := destroyed c |}.

Definition set_batchTableResources (c : Content) v : Content :=
  {| _modelInstanceCollection := _modelInstanceCollection c;
     _url := _url c; _tileset := _tileset c;
     _tile := _tile c; state := state c;
     processingPromise := processingPromise c;
     readyPromise := readyPromise c;
     _batchTableResources := v;
     _features := _features c; destroyed := destroyed c |}.

Definition set_features (c : Content) v : Content :=
  {| _modelInstanceCollection := _modelInstanceCollection c;
     _url := _url c; _tileset := _tileset c;
     _tile := _tile c; state := state c;
     processingPromise := processingPromise c;
     readyPromise := readyPromise c;
     _batchTableResources := _batchTableResources c;
     _features := v; destroyed := destroyed c |}.

Definition set_destroyed (c : Content) v : Content :=
  {| _modelInstanceCollection := _modelInstanceCollection c;
     _url := _url c; _tileset := _tileset c;
     _tile := _tile c; state := state c;
     processingPromise := processingPromise c;
     readyPromise := readyPromise c;
     _batchTableResources := _batchTableResources c;
     _features := _features c; destroyed := v |}.

(** The [featuresLength] getter: [this._modelInstanceCollection.length],
    a [TypeError] while the collection is undefined. *)
Definition featuresLength (c : Content) : option Z :=
  option_map collectionLength (_modelInstanceCollection c).

(** ** The binary decoder: [initialize] *)

Local Notation "'let?' x ':=' e 'else' r 'in' k" :=
  (match e with Some x => k | None => r end)
  (at level 10, x pattern, e at level 100, r at level 100, k at level 200).

(** The body of the loop [for (var i = 0; i < instancesLength; ++i)]:
    [remaining] counts the iterations still to run, [i] and [byteOffset]
    are the loop variables.  [None] is a [RangeError] of the view. *)
Fixpoint readInstances (instancesView : DataView.t) (hasBatchTable : bool)
    (remaining i byteOffset : nat) : option (list Instance) :=
  match remaining with
  | O => Some []
  | S remaining' =>
      let? longitude := DataView.getFloat64 instancesView byteOffset else None in
      let byteOffset := byteOffset + sizeOfFloat64 in
      let? latitude := DataView.getFloat64 instancesView byteOffset else None in
      let byteOffset := byteOffset + sizeOfFloat64 in
      let height := 0%float in
      let? (batchId, byteOffset) :=
        (if hasBatchTable
         then option_map (fun b => (b, byteOffset + sizeOfUint16))
                         (DataView.getUint16 instancesView byteOffset)
         else Some (Z.of_nat i, byteOffset)) else None in
      let position := Cartesian3_fromRadians longitude latitude height in
      let modelMatrix := Transforms_eastNorthUpToFixedFrame position in
      let? rest := readInstances instancesView hasBatchTable remaining'
                                 (S i) byteOffset else None in
      Some ({| modelMatrix := modelMatrix; batchId := batchId |} :: rest)
  end.

(** The second half of [initialize], from the creation of [gltfView]
    to the resolution of [processingPromise]; [byteOffset] points past
    the batch table. *)
Definition initializeCollection (c : Content)
    (arrayBuffer : DataView.ArrayBuffer)
    (batchTableResources : Cesium3DTileBatchTableResources)
    (hasBatchTable : bool) (byteOffset : nat)
    (gltfByteLength gltfFormat instancesLength : Z)
    : Content * Completion unit :=
  let? gltfView := DataView.window arrayBuffer byteOffset
                                   (Z.to_nat gltfByteLength)
    else (c, Throw RangeError) in
  let byteOffset := byteOffset + Z.to_nat gltfByteLength in
  let instanceByteLength :=
    sizeOfFloat64 * 2 + (if hasBatchTable then sizeOfUint16 else 0) in
  let instancesByteLength := Z.to_nat instancesLength * instanceByteLength in
  let? instancesView := DataView.window arrayBuffer byteOffset
                                        instancesByteLength
    else (c, Throw RangeError) in
  let? instances := readInstances instancesView hasBatchTable
                                  (Z.to_nat instancesLength) 0 0
    else (c, Throw RangeError) in
  let collectionOptions :=
    if (gltfFormat =? 0)%Z
    then
      let gltfUrl := string_of_list_byte (DataView.bytes gltfView) in
      {| instances := instances;
         batchTableResources := batchTableResources;
         boundingVolume := contentBoundingVolume (_tile c);
         cull := false;
         url := Some (getAbsoluteUri gltfUrl (baseUrl (_tileset c)));
         gltf := None;
         basePath := None |}
    else
      {| instances := instances;
         batchTableResources := batchTableResources;
         boundingVolume := contentBoundingVolume (_tile c);
         cull := false;
         url := None;
         gltf := Some (DataView.bytes gltfView);
         basePath := Some (_url c) |} in
  let c := set_modelInstanceCollection c (Some collectionOptions) in
  let c := set_state c PROCESSING in
  let c := set_processingPromise c (Deferred.resolve (processingPromise c)) in
  (c, Normal tt).

(** [initialize(arrayBuffer, byteOffset)] up to the resolution of
    [processingPromise].  The result is the content as the call leaves
    it and the completion of the call; the two callbacks it registers on
    the collection's [readyPromise] are [onCollectionReady] and
    [onCollectionFailed] below. *)
Definition initialize (c : Content) (arrayBuffer : DataView.ArrayBuffer)
    (byteOffset : option nat) : Content * Completion unit :=
  let byteOffset := match byteOffset with Some o => o | None => 0 end in
  let uint8Array := arrayBuffer in
  let magic := getMagic uint8Array byteOffset in
  if negb (magic_eqb magic i3dm)
  then (c, Throw (DeveloperError (InvalidMagic magic))) else
  let view := DataView.whole arrayBuffer in
  let byteOffset := byteOffset + sizeOfUint32 in
  let? version := DataView.getUint32 view byteOffset
    else (c, Throw RangeError) in
  if negb (version =? 1)%Z
  then (c, Throw (DeveloperError (UnsupportedVersion version))) else
  let byteOffset := byteOffset + sizeOfUint32 in
  (* Skip byteLength *)
  let byteOffset := byteOffset + sizeOfUint32 in
  let? batchTableByteLength := DataView.getUint32 view byteOffset
    else (c, Throw RangeError) in
  let byteOffset := byteOffset + sizeOfUint32 in
  let? gltfByteLength := DataView.getUint32 view byteOffset
    else (c, Throw RangeError) in
  let byteOffset := byteOffset + sizeOfUint32 in
  let? gltfFormat := DataView.getUint32 view byteOffset
    else (c, Throw RangeError) in
  let byteOffset := byteOffset + sizeOfUint32 in
  let? instancesLength := DataView.getUint32 view byteOffset
    else (c, Throw RangeError) in
  let byteOffset := byteOffset + sizeOfUint32 in
  if negb (gltfFormat =? 0)%Z && negb (gltfFormat =? 1)%Z
  then (c, Throw (DeveloperError (UnsupportedGltfFormat gltfFormat))) else
  let batchTableResources :=
    {| btFeaturesLength := instancesLength; batchTable := None |} in
  let c := set_batchTableResources c (Some batchTableResources) in
  if (0 <? batchTableByteLength)%Z
  then
    let? batchTableString :=
      getStringFromTypedArray uint8Array byteOffset
                              (Z.to_nat batchTableByteLength)
      else (c, Throw RangeError) in
    let? json := JSON_parse batchTableString
      else (c, Throw SyntaxError) in
    let batchTableResources :=
      {| btFeaturesLength := instancesLength; batchTable := Some json |} in
    let c := set_batchTableResources c (Some batchTableResources) in
    let byteOffset := byteOffset + Z.to_nat batchTableByteLength in
    initializeCollection c arrayBuffer batchTableResources true byteOffset
                         gltfByteLength gltfFormat instancesLength
  else
    initializeCollection c arrayBuffer batchTableResources false byteOffset
                         gltfByteLength gltfFormat instancesLength.

(** The callbacks [initialize] registers on
    [modelInstanceCollection.readyPromise]. *)
Definition onCollectionReady (c : Content) : Content :=
  let c := set_state c READY in
  set_readyPromise c (Deferred.resolve (readyPromise c)).

Definition onCollectionFailed (c : Content) (error : Exception) : Content :=
  let c := set_state c FAILED in
  set_readyPromise c (Deferred.reject (readyPromise c) error).

(** ** The state machine: [request], [isDestroyed], [destroy] *)

(** [isDestroyed()]. *)
Definition isDestroyed (c : Content) : bool := destroyed c.

(** Modelled from the spec: [Core/destroyObject] is not among the
    sources; the specification states that destroying a content object
    sets its destroyed flag, which [isDestroyed] reports from then on. *)
Definition destroyObject (c : Content) : Content := set_destroyed c true.

(** [destroy()]: both owned collaborators are released and replaced by
    [undefined], the result of their own [destroy]. *)
Definition destroy (c : Content) : Content :=
  let c := set_modelInstanceCollection c None in
  let c := set_batchTableResources c None in
  destroyObject c.

(** [request()]: [admitted] tells whether [RequestScheduler.schedule]
    returned a promise; the callbacks attached to that promise are
    [request_then] and [request_otherwise]. *)
Definition request (c : Content) (admitted : bool) : Content :=
  if admitted then set_state c LOADING else c.

(** The [otherwise] callback of [request]. *)
Definition request_otherwise (c : Content) (error : Exception) : Content :=
  let c := set_state c FAILED in
  set_readyPromise c (Deferred.reject (readyPromise c) error).

(** The [then] callback of [request], followed by the [otherwise]
    callback when it returns a rejection or throws. *)
Definition request_then (c : Content) (arrayBuffer : DataView.ArrayBuffer)
    : Content :=
  if isDestroyed c
  then request_otherwise c (Rejection "tileset is destroyed")
  else
    match initialize c arrayBuffer None with
    | (c, Normal _) => c
    | (c, Throw error) => request_otherwise c error
    end.

(** What can happen to a content object: calls of its methods and the
    callbacks registered by [request] and [initialize]. *)
Inductive Event :=
| CallRequest (admitted : bool)
| BytesDelivered (arrayBuffer : DataView.ArrayBuffer)
| DeliveryFailed (error : Exception)
| CallInitialize (arrayBuffer : DataView.ArrayBuffer) (byteOffset : option nat)
| CollectionReady
| CollectionFailed (error : Exception)
| CallDestroy.

Definition step (c : Content) (e : Event) : Content :=
  match e with
  | CallRequest admitted => request c admitted
  | BytesDelivered arrayBuffer => request_then c arrayBuffer
  | DeliveryFailed error => request_otherwise c error
  | CallInitialize arrayBuffer byteOffset =>
      fst (initialize c arrayBuffer byteOffset)
  | CollectionReady => onCollectionReady c
  | CollectionFailed error => onCollectionFailed c error
  | CallDestroy => destroy c
  end.

Definition run (c : Content) (es : list Event) : Content :=
  fold_left step es c.

(** ** The feature accessor: [createFeatures], [getFeature] *)

(** The loop of [createFeatures]: [remaining] iterations are left, [i]
    is the loop variable and [heap] the identity of the next object
    allocated by [new]. *)
Fixpoint newFeatures (tileset : Cesium3DTileset)
    (resources : option Cesium3DTileBatchTableResources)
    (heap remaining i : nat) : list Cesium3DTileFeature :=
  match remaining with
  | O => []
  | S remaining' =>
      {| featureObject := heap;
         featureTileset := tileset;
         featureBatchTableResources := resources;
         featureBatchId := i |}
      :: newFeatures tileset resources (S heap) remaining' (S i)
  end.

(** [createFeatures(content)], threading the allocation counter. *)
Definition createFeatures (c : Content) (heap : nat)
    : (Content * nat) * Completion unit :=
  let tileset := _tileset c in
  let? featuresLength := featuresLength c else ((c, heap), Throw TypeError) in
  match _features c with
  | None =>
      if (0 <? featuresLength)%Z
      then
        let features :=
          newFeatures tileset (_batchTableResources c) heap
                      (Z.to_nat featuresLength) 0 in
        ((set_features c (Some features), heap + Z.to_nat featuresLength),
         Normal tt)
      else ((c, heap), Normal tt)
  | Some _ => ((c, heap), Normal tt)
  end.

(** [getFeature(batchId)]: [batchId = None] is [undefined]; the result
    [Normal None] is the value [undefined]. *)
Definition getFeature (c : Content) (heap : nat) (batchId : option Z)
    : (Content * nat) * Completion (option Cesium3DTileFeature) :=
  let? featuresLength := option_map collectionLength (_modelInstanceCollection c)
    else ((c, heap), Throw TypeError) in
  if match batchId with
     | None => true
     | Some batchId => (batchId <? 0)%Z || (featuresLength <=? batchId)%Z
     end
  then ((c, heap), Throw (DeveloperError (BatchIdOutOfRange featuresLength)))
  else
    match createFeatures c heap with
    | (s, Throw e) => (s, Throw e)
    | ((c, heap), Normal _) =>
        match _features c, batchId with
        | Some features, Some batchId =>
            ((c, heap), Normal (nth_error features (Z.to_nat batchId)))
        | _, _ => ((c, heap), Throw TypeError)
        end
    end.

(** ** Notions used to state the properties of the content provider *)

(** The length in bytes of one instance record. *)
Definition recordLength (hasBatchTable : bool) : nat :=
  16 + (if hasBatchTable then 2 else 0).

(** What [readInstances] puts at position [k] of its result when the
    record starts at absolute position [pos] of the buffer and [index]
    is the value of the loop variable. *)
Definition recordDecoded (b : DataView.ArrayBuffer) (hasBatchTable : bool)
    (pos index : nat) (inst : Instance) : Prop :=
  exists lon lat bid,
    DataView.uintLE b pos 8 = Some lon /\
    DataView.uintLE b (pos + 8) 8 = Some lat /\
    (if hasBatchTable
     then DataView.uintLE b (pos + 16) 2 = Some bid
     else bid = Z.of_nat index) /\
    inst = {| modelMatrix :=
                Transforms_eastNorthUpToFixedFrame
                  (Cartesian3_fromRadians (DataView.float64_of_bits lon)
                                          (DataView.float64_of_bits lat)
                                          0%float);
              batchId := bid |}.

(** The terminal states of the state machine. *)
Definition terminal (c : Content) : Prop :=
  state c = READY \/ state c = FAILED.

(** Whenever [state] is [READY] or [FAILED], [readyPromise] has been
    settled: every assignment of either state is followed by a
    [resolve] or [reject]. *)
Definition settledWhenTerminal (c : Content) : Prop :=
  terminal c -> Deferred.settled (readyPromise c) = true.

End ContentProvider.

(** ** JavaScript arrays

    Arrays that are written by index or truncated through [length]:
    an element [None] is a hole ([undefined]); a write past the end
    extends the array. *)
Module JSArray.

Definition t (A : Type) := list (option A).

Definition get {A} (a : t A) (i : nat) : option A :=
  match nth_error a i with Some x => x | None => None end.

(** [a[i] = v]. *)
Definition set {A} (a : t A) (i : nat) (v : A) : t A :=
  firstn i a ++ repeat None (i - List.length a) ++ Some v :: skipn (S i) a.

(** [a.length = n]. *)
Definition setLength {A} (a : t A) (n : nat) : t A :=
  firstn n a ++ repeat None (n - List.length a).

End JSArray.

(** ** Data model of [GlobeSurfaceTileProvider] *)

Inductive SceneMode := SCENE2D | COLUMBUS_VIEW | SCENE3D | MORPHING.

Definition SceneMode_eqb (a b : SceneMode) : bool :=
  match a, b with
  | SCENE2D, SCENE2D | COLUMBUS_VIEW, COLUMBUS_VIEW
  | SCENE3D, SCENE3D | MORPHING, MORPHING => true
  | _, _ => false
  end.

Module ImageryState.
(** Modelled from the spec: [Scene/ImageryState] is not among the
    sources.  The provider only asks whether an imagery is [READY]; the
    other states are the stages an imagery goes through before it is
    ready, or in which it ends when it cannot be. *)
Inductive t :=
| UNLOADED | TRANSITIONING | RECEIVED | TEXTURE_LOADED
| READY | FAILED | INVALID | PLACEHOLDER.

Definition eqb (a b : t) : bool :=
  match a, b with
  | UNLOADED, UNLOADED | TRANSITIONING, TRANSITIONING
  | RECEIVED, RECEIVED | TEXTURE_LOADED, TEXTURE_LOADED
  | READY, READY | FAILED, FAILED | INVALID, INVALID
  | PLACEHOLDER, PLACEHOLDER => true
  | _, _ => false
  end.
End ImageryState.

(** Objects held by reference: imagery layers, textures, credits and
    quadtree tiles are named by their identity. *)
Definition LayerRef := nat.
Definition Texture := nat.
Definition Credit := nat.
Definition TileRef := nat.
Definition Cartesian4 := (float * float * float * float)%type.

(** The part of [frameState] that [renderTile] reads; credits added to
    [frameState.creditDisplay] are threaded separately. *)
Record FrameState := {
  mode : SceneMode
}.

(** [context.maximumTextureImageUnits]. *)
Record Context := {
  maximumTextureImageUnits : nat
}.

(** A colour-adjustment property of an imagery layer: a number, or a
    function of [(frameState, layer, x, y, level)]. *)
Inductive LayerProperty :=
| Constant (value : float)
| Dynamic (callback : FrameState -> LayerRef -> Z -> Z -> Z -> float).

Record ImageryLayer := {
  alpha : LayerProperty;
  brightness : LayerProperty;
  contrast : LayerProperty;
  hue : LayerProperty;
  saturation : LayerProperty;
  gamma : LayerProperty;
  _layerIndex : Z;
  _isBaseLayer : bool
}.

Record Imagery := {
  imageryLayer : LayerRef;
  imageryState : ImageryState.t;
  texture : Texture;
  imageryX : Z;
  imageryY : Z;
  imageryLevel : Z;
  credits : option (list Credit)
}.

Record TileImagery := {
  readyImagery : option Imagery;
  loadingImagery : option Imagery;
  textureCoordinateRectangle : Cartesian4;
  textureTranslationAndScale : option Cartesian4
}.

(** A loaded quadtree tile: its identity and the fields of [tile.data]
    that the provider reads or writes. *)
Record QuadtreeTile := {
  tileId : TileRef;
  imagery : list TileImagery;
  isRenderable : bool
}.

(** The arguments of [getShaderProgram]: the key of the shader variant. *)
Record ShaderKey := {
  numberOfDayTextures : nat;
  applyBrightness : bool;
  applyContrast : bool;
  applyHue : bool;
  applySaturation : bool;
  applyGamma : bool;
  applyAlpha : bool
}.

(** The per-texture arrays of a uniform map made by
    [createTileUniformMap]. *)
Record UniformMap := {
  dayTextures : JSArray.t Texture;
  dayTextureTranslationAndScale : JSArray.t Cartesian4;
  dayTextureTexCoordsRectangle : JSArray.t Cartesian4;
  dayTextureAlpha : JSArray.t float;
  dayTextureBrightness : JSArray.t float;
  dayTextureContrast : JSArray.t float;
  dayTextureHue : JSArray.t float;
  dayTextureSaturation : JSArray.t float;
  dayTextureOneOverGamma : JSArray.t float
}.

Definition createTileUniformMap : UniformMap :=
  {| dayTextures := [];
     dayTextureTranslationAndScale := [];
     dayTextureTexCoordsRectangle := [];
     dayTextureAlpha := [];
     dayTextureBrightness := [];
     dayTextureContrast := [];
     dayTextureHue := [];
     dayTextureSaturation := [];
     dayTextureOneOverGamma := [] |}.

(** A pooled [DrawCommand].  [commandUniformMap] is the position of its
    uniform map in [_uniformMaps]. *)
Record DrawCommand := {
  owner : option TileRef;
  debugShowBoundingVolume : bool;
  shaderProgram : option ShaderKey;
  commandUniformMap : option nat
}.

(** [new DrawCommand()] with the three assignments that follow it. *)
Definition newDrawCommand (tile : TileRef) : DrawCommand :=
  {| owner := Some tile;
     debugShowBoundingVolume := false;
     shaderProgram := None;
     commandUniformMap := None |}.

(** A reference to a pooled command is its position in
    [_drawCommands]: commands are only ever appended to the pool. *)
Definition CommandRef := nat.

Record Provider := {
  _layerOrderChanged : bool;
  _tilesToRenderByTextureCount : JSArray.t (list CommandRef);
  _drawCommands : list DrawCommand;
  _uniformMaps : list UniformMap;
  _usedDrawCommands : nat;
  _debug_boundingSphereTile : option TileRef
}.

(** The state the constructor leaves. *)
Definition newProvider : Provider :=
  {| _layerOrderChanged := false;
     _tilesToRenderByTextureCount := [];
     _drawCommands := [];
     _uniformMaps := [];
     _usedDrawCommands := 0;
     _debug_boundingSphereTile := None |}.

(** Collaborators and constants of the surface provider that are not
    part of the file embedded here. *)
Class SurfaceCollaborators := {
  (** The imagery layer objects, by identity. *)
  layers : LayerRef -> ImageryLayer;
  DEFAULT_BRIGHTNESS : float;
  DEFAULT_CONTRAST : float;
  DEFAULT_HUE : float;
  DEFAULT_SATURATION : float;
  DEFAULT_GAMMA : float;
  (** [imageryLayer._calculateTextureTranslationAndScale(tile, tileImagery)]. *)
  _calculateTextureTranslationAndScale :
    LayerRef -> TileRef -> TileImagery -> Cartesian4
}.

(** The longest prefix whose elements satisfy [f], and what follows it. *)
Fixpoint takeWhile {A} (f : A -> bool) (l : list A) : list A :=
  match l with
  | [] => []
  | a :: l' => if f a then a :: takeWhile f l' else []
  end.

Fixpoint dropWhile {A} (f : A -> bool) (l : list A) : list A :=
  match l with
  | [] => []
  | a :: l' => if f a then dropWhile f l' else l
  end.

Section SurfaceProvider.

Context {surface : SurfaceCollaborators}.

Definition set_usedDrawCommands (p : Provider) (n : nat) : Provider :=
  {| _layerOrderChanged := _layerOrderChanged p;
     _tilesToRenderByTextureCount := _tilesToRenderByTextureCount p;
     _drawCommands := _drawCommands p;
     _uniformMaps := _uniformMaps p;
     _usedDrawCommands := n;
     _debug_boundingSphereTile := _debug_boundingSphereTile p |}.

Definition set_tilesToRender (p : Provider) v : Provider :=
  {| _layerOrderChanged := _layerOrderChanged p;
     _tilesToRenderByTextureCount := v;
     _drawCommands := _drawCommands p;
     _uniformMaps := _uniformMaps p;
     _usedDrawCommands := _usedDrawCommands p;
     _debug_boundingSphereTile := _debug_boundingSphereTile p |}.

Definition set_pool (p : Provider) (commands : list DrawCommand)
    (maps : list UniformMap) : Provider :=
  {| _layerOrderChanged := _layerOrderChanged p;
     _tilesToRenderByTextureCount := _tilesToRenderByTextureCount p;
     _drawCommands := commands;
     _uniformMaps := maps;
     _usedDrawCommands := _usedDrawCommands p;
     _debug_boundingSphereTile := _debug_boundingSphereTile p |}.

Definition set_layerOrderChanged (p : Provider) (b : bool) : Provider :=
  {| _layerOrderChanged := b;
     _tilesToRenderByTextureCount := _tilesToRenderByTextureCount p;
     _drawCommands := _drawCommands p;
     _uniformMaps := _uniformMaps p;
     _usedDrawCommands := _usedDrawCommands p;
     _debug_boundingSphereTile := _debug_boundingSphereTile p |}.

(** [list[i] = v] on a dense array, for [i] within bounds. *)
Fixpoint replace {A} (l : list A) (i : nat) (v : A) : list A :=
  match l, i with
  | [], _ => []
  | _ :: l', O => v :: l'
  | x :: l', S i' => x :: replace l' i' v
  end.

(** *** [beginFrame] and [endFrame] *)

(** The loop of [beginFrame] over [tilesToRenderByTextureCount]:
    every defined list gets [length = 0]. *)
Definition clearTilesToRender (a : JSArray.t (list CommandRef))
    : JSArray.t (list CommandRef) :=
  map (fun tiles => match tiles with
                    | Some _ => Some []
                    | None => None
                    end) a.

(** The layer whose index orders a [TileImagery]: that of its
    [loadingImagery] or else of its [readyImagery]. *)
Definition tileImageryLayer (t : TileImagery) : option LayerRef :=
  match loadingImagery t with
  | Some imagery => Some (imageryLayer imagery)
  | None => option_map imageryLayer (readyImagery t)
  end.

(** [sortTileImageryByLayerIndex(a, b)]; [None] is the [TypeError] of
    an entry with neither imagery. *)
Definition sortTileImageryByLayerIndex (a b : TileImagery) : option Z :=
  match tileImageryLayer a, tileImageryLayer b with
  | Some la, Some lb =>
      Some (_layerIndex (layers la) - _layerIndex (layers lb))%Z
  | _, _ => None
  end.

(** [beginFrame].  The imagery layer collection and the quadtree are
    collaborators: the second component tells whether the callback
    that sorts every loaded tile's imagery was handed to
    [forEachLoadedTile]. *)
Definition beginFrame (p : Provider) : Provider * bool :=
  let sortRequested := _layerOrderChanged p in
  let p := if _layerOrderChanged p then set_layerOrderChanged p false else p in
  let p := set_tilesToRender p
             (clearTilesToRender (_tilesToRenderByTextureCount p)) in
  (set_usedDrawCommands p 0, sortRequested).

(** [endFrame]: the commands pushed on [commandList], in order. *)
Definition endFrame (p : Provider) (commandList : list CommandRef)
    : list CommandRef :=
  fold_left
    (fun commandList tilesToRender =>
       match tilesToRender with
       | None => commandList
       | Some tilesToRender => commandList ++ tilesToRender
       end)
    (_tilesToRenderByTextureCount p) commandList.

(** *** [renderTile] *)

(** The variables of one pass of the [do] loop. *)
Record DayTextures := {
  dayCount : nat;
  dayUniformMap : UniformMap;
  brightnessFlag : bool;
  contrastFlag : bool;
  hueFlag : bool;
  saturationFlag : bool;
  gammaFlag : bool;
  alphaFlag : bool;
  creditDisplay : list Credit
}.

(** [typeof p === 'function' ? p(frameState, layer, x, y, level) : p]. *)
Definition evaluate (p : LayerProperty) (frameState : FrameState)
    (layer : LayerRef) (imagery : Imagery) : float :=
  match p with
  | Constant value => value
  | Dynamic callback =>
      callback frameState layer (imageryX imagery) (imageryY imagery)
               (imageryLevel imagery)
  end.

(** [!defined(imagery) || imagery.state !== READY ||
     imagery.imageryLayer.alpha === 0.0]: the imagery that passes. *)
Definition usableImagery (tileImagery : TileImagery) : option Imagery :=
  match readyImagery tileImagery with
  | None => None
  | Some imagery =>
      if negb (ImageryState.eqb (imageryState imagery) ImageryState.READY)
      then None
      else
        match alpha (layers (imageryLayer imagery)) with
        | Constant value => if (value =? 0)%float then None else Some imagery
        | Dynamic _ => Some imagery
        end
  end.

(** The body of the inner [while] loop for an imagery that passes. *)
Definition addDayTexture (tile : TileRef) (frameState : FrameState)
    (tileImagery : TileImagery) (imagery : Imagery) (d : DayTextures)
    : TileImagery * DayTextures :=
  let layer := imageryLayer imagery in
  let imageryLayer := layers layer in
  let translationAndScale :=
    match textureTranslationAndScale tileImagery with
    | Some v => v
    | None => _calculateTextureTranslationAndScale layer tile tileImagery
    end in
  let tileImagery :=
    {| readyImagery := readyImagery tileImagery;
       loadingImagery := loadingImagery tileImagery;
       textureCoordinateRectangle := textureCoordinateRectangle tileImagery;
       textureTranslationAndScale := Some translationAndScale |} in
  let n := dayCount d in
  let u := dayUniformMap d in
  let a := evaluate (alpha imageryLayer) frameState layer imagery in
  let b := evaluate (brightness imageryLayer) frameState layer imagery in
  let c := evaluate (contrast imageryLayer) frameState layer imagery in
  let h := evaluate (hue imageryLayer) frameState layer imagery in
  let s := evaluate (saturation imageryLayer) frameState layer imagery in
  let g := (1 / evaluate (gamma imageryLayer) frameState layer imagery)%float in
  let u :=
    {| dayTextures := JSArray.set (dayTextures u) n (texture imagery);
       dayTextureTranslationAndScale :=
         JSArray.set (dayTextureTranslationAndScale u) n translationAndScale;
       dayTextureTexCoordsRectangle :=
         JSArray.set (dayTextureTexCoordsRectangle u) n
                     (textureCoordinateRectangle tileImagery);
       dayTextureAlpha := JSArray.set (dayTextureAlpha u) n a;
       dayTextureBrightness := JSArray.set (dayTextureBrightness u) n b;
       dayTextureContrast := JSArray.set (dayTextureContrast u) n c;
       dayTextureHue := JSArray.set (dayTextureHue u) n h;
       dayTextureSaturation := JSArray.set (dayTextureSaturation u) n s;
       dayTextureOneOverGamma := JSArray.set (dayTextureOneOverGamma u) n g |} in
  (tileImagery,
   {| dayCount := S n;
      dayUniformMap := u;
      brightnessFlag := brightnessFlag d || negb (b =? DEFAULT_BRIGHTNESS)%float;
      contrastFlag := contrastFlag d || negb (c =? DEFAULT_CONTRAST)%float;
      hueFlag := hueFlag d || negb (h =? DEFAULT_HUE)%float;
      saturationFlag := saturationFlag d || negb (s =? DEFAULT_SATURATION)%float;
      gammaFlag := gammaFlag d || negb (g =? 1 / DEFAULT_GAMMA)%float;
      alphaFlag := alphaFlag d || negb (a =? 1)%float;
      creditDisplay :=
        match credits imagery with
        | Some cs => creditDisplay d ++ cs
        | None => creditDisplay d
        end |}).

(** The inner loop
    [while (numberOfDayTextures < maxTextures && imageryIndex < imageryLen)].
    [rest] is the collection from [imageryIndex] on; the result is the
    loop variables, the entries passed over (with their cached
    translation and scale) and the entries from the new [imageryIndex]
    on. *)
Fixpoint dayTextureLoop (maxTextures : nat) (tile : TileRef)
    (frameState : FrameState) (rest : list TileImagery) (d : DayTextures)
    : DayTextures * list TileImagery * list TileImagery :=
  match rest with
  | [] => (d, [], [])
  | tileImagery :: rest' =>
      if (dayCount d <? maxTextures)%nat
      then
        match usableImagery tileImagery with
        | None =>
            let '(d, seen, rest) :=
              dayTextureLoop maxTextures tile frameState rest' d in
            (d, tileImagery :: seen, rest)
        | Some imagery =>
            let (tileImagery, d) :=
              addDayTexture tile frameState tileImagery imagery d in
            let '(d, seen, rest) :=
              dayTextureLoop maxTextures tile frameState rest' d in
            (d, tileImagery :: seen, rest)
        end
      else (d, [], rest)
  end.

(** The pool step at the head of the [do] loop: a new command and
    uniform map are pushed when the pool holds no more than
    [_usedDrawCommands] commands, otherwise the pair at that position
    is reused.  The result is the reference of [command], the position
    of [uniformMap] and the provider with [_usedDrawCommands]
    incremented. *)
Definition claimCommand (p : Provider) (tile : TileRef)
    : option (CommandRef * nat * Provider) :=
  if (List.length (_drawCommands p) <=? _usedDrawCommands p)%nat
  then
    let commandRef := List.length (_drawCommands p) in
    let mapRef := List.length (_uniformMaps p) in
    let p := set_pool p (_drawCommands p ++ [newDrawCommand tile])
                        (_uniformMaps p ++ [createTileUniformMap]) in
    Some (commandRef, mapRef, set_usedDrawCommands p (S (_usedDrawCommands p)))
  else
    match nth_error (_uniformMaps p) (_usedDrawCommands p) with
    | Some _ =>
        Some (_usedDrawCommands p, _usedDrawCommands p,
              set_usedDrawCommands p (S (_usedDrawCommands p)))
    | None => None
    end.

(** [if (!defined(a[n])) a[n] = []; a[n].push(command)]. *)
Definition pushTileToRender (a : JSArray.t (list CommandRef)) (n : nat)
    (command : CommandRef) : JSArray.t (list CommandRef) :=
  match JSArray.get a n with
  | Some tiles => JSArray.set a n (tiles ++ [command])
  | None => JSArray.set a n [command]
  end.

(** One pass of the [do] loop of [renderTile]: a command is claimed
    from the pool, the day textures are gathered, the command is
    filled in and pushed on the list of its texture count.  The
    statements that only compute uniforms from the camera and the
    projection (relative-to-center transform, Mercator terms, water
    mask, wireframe, bounding volume) write fields that are not
    represented. *)
Definition renderPass (p : Provider) (context : Context)
    (frameState : FrameState) (tile : TileRef) (credits : list Credit)
    (rest : list TileImagery)
    : Completion (Provider * list Credit * list TileImagery * list TileImagery) :=
  match claimCommand p tile with
  | None => Throw TypeError
  | Some (commandRef, mapRef, p) =>
      match nth_error (_uniformMaps p) mapRef with
      | None => Throw TypeError
      | Some uniformMap =>
          let '(d, seen, rest) :=
            dayTextureLoop (maximumTextureImageUnits context) tile frameState
              rest
              {| dayCount := 0; dayUniformMap := uniformMap;
                 brightnessFlag := false; contrastFlag := false;
                 hueFlag := false; saturationFlag := false;
                 gammaFlag := false; alphaFlag := false;
                 creditDisplay := credits |} in
          let numberOfDayTextures := dayCount d in
          let uniformMap := dayUniformMap d in
          (* trim texture array to the used length *)
          let uniformMap :=
            {| dayTextures :=
                 JSArray.setLength (dayTextures uniformMap) numberOfDayTextures;
               dayTextureTranslationAndScale :=
                 dayTextureTranslationAndScale uniformMap;
               dayTextureTexCoordsRectangle :=
                 dayTextureTexCoordsRectangle uniformMap;
               dayTextureAlpha := dayTextureAlpha uniformMap;
               dayTextureBrightness := dayTextureBrightness uniformMap;
               dayTextureContrast := dayTextureContrast uniformMap;
               dayTextureHue := dayTextureHue uniformMap;
               dayTextureSaturation := dayTextureSaturation uniformMap;
               dayTextureOneOverGamma := dayTextureOneOverGamma uniformMap |} in
          let command :=
            {| owner := Some tile;
               debugShowBoundingVolume :=
                 match _debug_boundingSphereTile p with
                 | Some t => Nat.eqb tile t
                 | None => false
                 end;
               shaderProgram :=
                 Some {| numberOfDayTextures := numberOfDayTextures;
                         applyBrightness := brightnessFlag d;
                         applyContrast := contrastFlag d;
                         applyHue := hueFlag d;
                         applySaturation := saturationFlag d;
                         applyGamma := gammaFlag d;
                         applyAlpha := alphaFlag d |};
               commandUniformMap := Some mapRef |} in
          let p := set_pool p (replace (_drawCommands p) commandRef command)
                              (replace (_uniformMaps p) mapRef uniformMap) in
          let p := set_tilesToRender p
                     (pushTileToRender (_tilesToRenderByTextureCount p)
                                       numberOfDayTextures commandRef) in
          Normal (p, creditDisplay d, seen, rest)
      end
  end.

(** The [do ... while (imageryIndex < imageryLen)] loop.  [seen] holds
    the entries before [imageryIndex] and [rest] those from it on.
    [fuel] bounds the number of passes: [None] means the bound was
    reached with entries left. *)
Fixpoint renderLoop (fuel : nat) (p : Provider) (context : Context)
    (frameState : FrameState) (tile : TileRef) (credits : list Credit)
    (seen rest : list TileImagery)
    : option (Completion (Provider * list Credit * list TileImagery)) :=
  match fuel with
  | O => None
  | S fuel' =>
      match renderPass p context frameState tile credits rest with
      | Throw e => Some (Throw e)
      | Normal (p, credits, seen', rest') =>
          match rest' with
          | [] => Some (Normal (p, credits, seen ++ seen'))
          | _ :: _ =>
              renderLoop fuel' p context frameState tile credits
                         (seen ++ seen') rest'
          end
      end
  end.

(** [renderTile(tile, context, frameState, commandList)].  Every pass
    of the loop but the last consumes at least one entry when
    [maximumTextureImageUnits] is positive, so one pass more than
    there are entries is enough; with [maximumTextureImageUnits = 0]
    and a non-empty collection the source loops forever and the
    result is [None].  The result holds the provider, the credit
    display and the tile with its cached texture transforms. *)
Definition renderTile (p : Provider) (tile : QuadtreeTile)
    (context : Context) (frameState : FrameState) (credits : list Credit)
    : option (Completion (Provider * list Credit * QuadtreeTile)) :=
  match renderLoop (S (List.length (imagery tile))) p context frameState
                   (tileId tile) credits [] (imagery tile) with
  | None => None
  | Some (Throw e) => Some (Throw e)
  | Some (Normal (p, credits, collection)) =>
      Some (Normal (p, credits,
                    {| tileId := tileId tile;
                       imagery := collection;
                       isRenderable := isRenderable tile |}))
  end.

(** *** [_onLayerRemoved] *)

(** The [for] loop of the callback of [_onLayerRemoved] from index [i]
    on.  [startIndex] is [-1] until the first entry of [layer] is met;
    [freed] logs the entries whose [freeResources] was called. *)
Fixpoint removalLoop (layer : LayerRef) (rest : list TileImagery) (i : nat)
    (startIndex : Z) (numDestroyed : nat) (freed : list TileImagery)
    : (Z * nat * list TileImagery) * Completion unit :=
  match rest with
  | [] => ((startIndex, numDestroyed, freed), Normal tt)
  | tileImagery :: rest' =>
      let imagery :=
        match loadingImagery tileImagery with
        | Some imagery => Some imagery
        | None => readyImagery tileImagery
        end in
      match imagery with
      | None => ((startIndex, numDestroyed, freed), Throw TypeError)
      | Some imagery =>
          if Nat.eqb (imageryLayer imagery) layer
          then
            let startIndex :=
              if (startIndex =? -1)%Z then Z.of_nat i else startIndex in
            removalLoop layer rest' (S i) startIndex (S numDestroyed)
                        (freed ++ [tileImagery])
          else if negb (startIndex =? -1)%Z
          then ((startIndex, numDestroyed, freed), Normal tt)
          else removalLoop layer rest' (S i) startIndex numDestroyed freed
      end
  end.

(** [array.splice(start, deleteCount)] for [0 <= start]. *)
Definition splice {A} (l : list A) (start deleteCount : nat) : list A :=
  firstn start l ++ skipn (start + deleteCount) l.

(** The callback [_onLayerRemoved] passes to [forEachLoadedTile],
    applied to one loaded tile: the tile as it is left, the entries
    freed, and the completion. *)
Definition onLayerRemoved_tile (layer : LayerRef) (tile : QuadtreeTile)
    : (QuadtreeTile * list TileImagery) * Completion unit :=
  let tileImageryCollection := imagery tile in
  match removalLoop layer tileImageryCollection 0 (-1) 0 [] with
  | ((_, _, freed), Throw e) => ((tile, freed), Throw e)
  | ((startIndex, numDestroyed, freed), Normal _) =>
      let tileImageryCollection :=
        if negb (startIndex =? -1)%Z
        then splice tileImageryCollection (Z.to_nat startIndex) numDestroyed
        else tileImageryCollection in
      (({| tileId := tileId tile;
           imagery := tileImageryCollection;
           isRenderable :=
             if _isBaseLayer (layers layer) then false else isRenderable tile |},
        freed), Normal tt)
  end.

(** [_onLayerRemoved(layer, index)] over the loaded tiles of the
    quadtree, in the order [forEachLoadedTile] visits them. *)
Fixpoint _onLayerRemoved (layer : LayerRef) (tiles : list QuadtreeTile)
    : (list QuadtreeTile * list TileImagery) * Completion unit :=
  match tiles with
  | [] => (([], []), Normal tt)
  | tile :: tiles' =>
      match onLayerRemoved_tile layer tile with
      | ((tile, freed), Throw e) => ((tile :: tiles', freed), Throw e)
      | ((tile, freed), Normal _) =>
          let '((tiles', freed'), r) := _onLayerRemoved layer tiles' in
          ((tile :: tiles', freed ++ freed'), r)
      end
  end.

(** *** Frames *)

(** The commands [endFrame] would emit: the defined lists of
    [_tilesToRenderByTextureCount], by ascending texture count. *)
Definition flattenTiles (a : JSArray.t (list CommandRef)) : list CommandRef :=
  List.concat (map (fun tiles => match tiles with
                            | Some tiles => tiles
                            | None => []
                            end) a).

(** [renderTile] on each tile of a frame in turn; [None] when a call
    throws or does not return. *)
Fixpoint renderTiles (p : Provider) (tiles : list QuadtreeTile)
    (context : Context) (frameState : FrameState) (credits : list Credit)
    : option (Provider * list Credit) :=
  match tiles with
  | [] => Some (p, credits)
  | tile :: tiles' =>
      match renderTile p tile context frameState credits with
      | Some (Normal (p, credits, _)) =>
          renderTiles p tiles' context frameState credits
      | _ => None
      end
  end.

(** One frame of the quadtree driver: [beginFrame], then [renderTile]
    on the tiles selected for rendering; [endFrame] is applied to the
    resulting provider. *)
Definition renderFrame (p : Provider) (tiles : list QuadtreeTile)
    (context : Context) (frameState : FrameState) : option Provider :=
  option_map fst
    (renderTiles (fst (beginFrame p)) tiles context frameState []).

(** The relation between the pool, the usage counter and the render
    lists that the constructor establishes and every operation keeps:
    the two pool arrays have the same length, the counter does not
    exceed it, and the render lists only refer to commands claimed in
    the current frame. *)
Definition poolInvariant (p : Provider) : Prop :=
  List.length (_uniformMaps p) = List.length (_drawCommands p) /\
  _usedDrawCommands p <= List.length (_drawCommands p) /\
  Forall (fun command => command < _usedDrawCommands p)
         (flattenTiles (_tilesToRenderByTextureCount p)).

(** Whether a [TileImagery] belongs to [layer], and the index of the
    layer it belongs to under an assignment [index] of indices to
    layers. *)
Definition belongsTo (layer : LayerRef) (t : TileImagery) : bool :=
  match tileImageryLayer t with
  | Some l => Nat.eqb l layer
  | None => false
  end.

Definition entryIndex (index : LayerRef -> Z) (t : TileImagery) : Z :=
  match tileImageryLayer t with
  | Some l => index l
  | None => 0%Z
  end.

(** An entry with a loading or a ready imagery. *)
Definition hasImagery (t : TileImagery) : Prop := tileImageryLayer t <> None.

(** [_onLayerMoved]. *)
Definition _onLayerMoved (p : Provider) : Provider :=
  set_layerOrderChanged p true.

(** The provider states that the constructor and the operations on the
    pool and the render lists can produce. *)
Inductive reachable : Provider -> Prop :=
| reachable_new : reachable newProvider
| reachable_beginFrame p :
    reachable p -> reachable (fst (beginFrame p))
| reachable_renderTile p tile context frameState credits p' credits' tile' :
    reachable p ->
    renderTile p tile context frameState credits
    = Some (Normal (p', credits', tile')) ->
    reachable p'
| reachable_onLayerMoved p :
    reachable p -> reachable (_onLayerMoved p).

(** ** Notions used to state the properties of the pool *)

(** The list stored for texture count [n], empty when there is none. *)
Definition tilesAt (a : JSArray.t (list CommandRef)) (n : nat)
    : list CommandRef :=
  match JSArray.get a n with Some tiles => tiles | None => [] end.

(** The summary of a run of the loop: the invariant holds again, at
    least one command was claimed, the pool has grown exactly to the
    number of commands in use if that exceeds its former length, and
    the render lists hold one more command per command claimed. *)
Definition claimed (p p' : Provider) : Prop :=
  poolInvariant p' /\
  List.length (_drawCommands p')
  = Nat.max (List.length (_drawCommands p)) (_usedDrawCommands p') /\
  List.length (flattenTiles (_tilesToRenderByTextureCount p'))
  = List.length (flattenTiles (_tilesToRenderByTextureCount p))
    + (_usedDrawCommands p' - _usedDrawCommands p).

End SurfaceProvider.

(** ** The distance metric: [getDistanceToTile]

    The function is written over the operations it uses;
    [float_JSNumber] gives them their JavaScript meaning, the binary64
    operations. *)

Class JSNumber (N : Type) := {
  num_zero : N;
  num_one : N;
  num_add : N -> N -> N;
  num_sub : N -> N -> N;
  num_mul : N -> N -> N;
  num_opp : N -> N;
  (** [Math.sqrt]. *)
  num_sqrt : N -> N;
  (** [a > b]. *)
  num_gtb : N -> N -> bool
}.

(** JavaScript numbers. *)
#[export] Instance float_JSNumber : JSNumber float := {|
  num_zero := 0%float;
  num_one := 1%float;
  num_add := PrimFloat.add;
  num_sub := PrimFloat.sub;
  num_mul := PrimFloat.mul;
  num_opp := PrimFloat.opp;
  num_sqrt := PrimFloat.sqrt;
  num_gtb := fun a b => PrimFloat.ltb b a
|}.

Section Distance.

Context {N : Type} {num : JSNumber N}.

Record Cartesian3 := {
  x : N;
  y : N;
  z : N
}.

Record Cartographic := {
  longitude : N;
  latitude : N;
  height : N
}.

Record Rectangle := {
  west : N;
  south : N;
  east : N;
  north : N
}.

(** The fields of [tile] and [tile.data] read by [getDistanceToTile]. *)
Record SurfaceTile := {
  rectangle : Rectangle;
  southwestCornerCartesian : Cartesian3;
  northeastCornerCartesian : Cartesian3;
  westNormal : Cartesian3;
  southNormal : Cartesian3;
  eastNormal : Cartesian3;
  northNormal : Cartesian3;
  maximumHeight : N
}.

(** Modelled from the spec: [Core/Cartesian3] and [Core/Rectangle] are
    not among the sources.  The specification describes the four plane
    tests as half-space tests against planes through the southwest and
    northeast corners: [subtract] is the componentwise difference,
    [dot] the inner product, [negate] the componentwise negation,
    [UNIT_Y] and [UNIT_Z] the unit vectors, and [getSouthwest] and
    [getNortheast] the corners of a rectangle at height zero. *)
Definition Cartesian3_subtract (a b : Cartesian3) : Cartesian3 :=
  {| x := num_sub (x a) (x b);
     y := num_sub (y a) (y b);
     z := num_sub (z a) (z b) |}.

Definition Cartesian3_dot (a b : Cartesian3) : N :=
  num_add (num_add (num_mul (x a) (x b)) (num_mul (y a) (y b)))
          (num_mul (z a) (z b)).

Definition Cartesian3_negate (a : Cartesian3) : Cartesian3 :=
  {| x := num_opp (x a); y := num_opp (y a); z := num_opp (z a) |}.

Definition UNIT_Y : Cartesian3 :=
  {| x := num_zero; y := num_one; z := num_zero |}.

Definition UNIT_Z : Cartesian3 :=
  {| x := num_zero; y := num_zero; z := num_one |}.

Definition negativeUnitY : Cartesian3 := Cartesian3_negate UNIT_Y.
Definition negativeUnitZ : Cartesian3 := Cartesian3_negate UNIT_Z.

Definition Rectangle_getSouthwest (r : Rectangle) : Cartographic :=
  {| longitude := west r; latitude := south r; height := num_zero |}.

Definition Rectangle_getNortheast (r : Rectangle) : Cartographic :=
  {| longitude := east r; latitude := north r; height := num_zero |}.

(** [frameState.scene2D.projection.project]. *)
Variable project : Cartographic -> Cartesian3.

(** The five signed distances computed in the first half of
    [getDistanceToTile]. *)
Record PlaneDistances := {
  distanceToWestPlane : N;
  distanceToSouthPlane : N;
  distanceToEastPlane : N;
  distanceToNorthPlane : N;
  distanceFromTop : N
}.

(** The corner [(0, p.x, p.y)] that the 2D branch makes of a projected
    point [p]. *)
Definition swizzle (p : Cartesian3) : Cartesian3 :=
  {| x := num_zero; y := x p; z := y p |}.

Definition planeDistances (tile : SurfaceTile) (mode : SceneMode)
    (cameraCartesianPosition : Cartesian3)
    (cameraCartographicPosition : Cartographic) : PlaneDistances :=
  let is3D := SceneMode_eqb mode SCENE3D in
  let southwestCornerCartesian :=
    if is3D then southwestCornerCartesian tile
    else swizzle (project (Rectangle_getSouthwest (rectangle tile))) in
  let northeastCornerCartesian :=
    if is3D then northeastCornerCartesian tile
    else swizzle (project (Rectangle_getNortheast (rectangle tile))) in
  let westNormal := if is3D then westNormal tile else negativeUnitY in
  let eastNormal := if is3D then eastNormal tile else UNIT_Y in
  let southNormal := if is3D then southNormal tile else negativeUnitZ in
  let northNormal := if is3D then northNormal tile else UNIT_Z in
  let maximumHeight := if is3D then maximumHeight tile else num_zero in
  let vectorFromSouthwestCorner :=
    Cartesian3_subtract cameraCartesianPosition southwestCornerCartesian in
  let distanceToWestPlane := Cartesian3_dot vectorFromSouthwestCorner westNormal in
  let distanceToSouthPlane := Cartesian3_dot vectorFromSouthwestCorner southNormal in
  let vectorFromNortheastCorner :=
    Cartesian3_subtract cameraCartesianPosition northeastCornerCartesian in
  let distanceToEastPlane := Cartesian3_dot vectorFromNortheastCorner eastNormal in
  let distanceToNorthPlane := Cartesian3_dot vectorFromNortheastCorner northNormal in
  let cameraHeight :=
    if is3D then height cameraCartographicPosition
    else x cameraCartesianPosition in
  let distanceFromTop := num_sub cameraHeight maximumHeight in
  {| distanceToWestPlane := distanceToWestPlane;
     distanceToSouthPlane := distanceToSouthPlane;
     distanceToEastPlane := distanceToEastPlane;
     distanceToNorthPlane := distanceToNorthPlane;
     distanceFromTop := distanceFromTop |}.

(** The second half of [getDistanceToTile], from [var result = 0.0]
    to [return Math.sqrt(result)]. *)
Definition normOfExcesses (d : PlaneDistances) : N :=
  let result := num_zero in
  let result :=
    if num_gtb (distanceToWestPlane d) num_zero
    then num_add result (num_mul (distanceToWestPlane d) (distanceToWestPlane d))
    else if num_gtb (distanceToEastPlane d) num_zero
    then num_add result (num_mul (distanceToEastPlane d) (distanceToEastPlane d))
    else result in
  let result :=
    if num_gtb (distanceToSouthPlane d) num_zero
    then num_add result (num_mul (distanceToSouthPlane d) (distanceToSouthPlane d))
    else if num_gtb (distanceToNorthPlane d) num_zero
    then num_add result (num_mul (distanceToNorthPlane d) (distanceToNorthPlane d))
    else result in
  let result :=
    if num_gtb (distanceFromTop d) num_zero
    then num_add result (num_mul (distanceFromTop d) (distanceFromTop d))
    else result in
  num_sqrt result.

Definition getDistanceToTile (tile : SurfaceTile) (mode : SceneMode)
    (cameraCartesianPosition : Cartesian3)
    (cameraCartographicPosition : Cartographic) : N :=
  normOfExcesses
    (planeDistances tile mode cameraCartesianPosition
                    cameraCartographicPosition).

End Distance.

(** ** Notions used to state the properties of the distance metric *)

(** A binary64 value, as [Prim2SF] shows it, that is neither negative
    nor a NaN: a zero, an infinity or a finite number with a clear
    sign bit. *)
Definition nonNegative (v : spec_float) : bool :=
  match v with
  | S754_zero false | S754_infinity false | S754_finite false _ _ => true
  | _ => false
  end.

(** A value that is not a NaN and has sign bit [sign]. *)
Definition signedBy (sign : bool) (v : spec_float) : Prop :=
  match v with
  | S754_zero s | S754_infinity s | S754_finite s _ _ => s = sign
  | S754_nan => False
  end.

(** A concrete set of collaborators, used to run the definitions on
    example inputs: every byte string parses as a batch table, a
    position is the triple of its coordinates and its frame lists them. *)
Definition exampleCollaborators : Collaborators :=
  {| Json := list byte;
     BoundingVolume := unit;
     JSON_parse := fun s => Some s;
     Cartesian3_fromRadians := fun lon lat h => (lon, lat, h);
     Transforms_eastNorthUpToFixedFrame := fun '(a, b, c) => [a; b; c];
     getAbsoluteUri := fun relative base => String.append base relative |}.

Definition exampleContent : @Content exampleCollaborators :=
  @newContent exampleCollaborators {| baseUrl := "http://host/" |}
    (@Build_Cesium3DTile exampleCollaborators 10%float tt)
    "http://host/tile.i3dm".

(** A 28-byte header with the given magic, version, batch-table length,
    glTF length, glTF format and instance count (each below 256). *)
Definition exampleHeader (magic : list byte) (version bt gl fmt n : byte)
    : list byte :=
  magic ++ [version; x00; x00; x00] ++ [x00; x00; x00; x00]
        ++ [bt; x00; x00; x00] ++ [gl; x00; x00; x00]
        ++ [fmt; x00; x00; x00] ++ [n; x00; x00; x00].

(** The little-endian bytes of the doubles [1.0] and [-2.0]. *)
Definition bytesOfOne : list byte := [x00; x00; x00; x00; x00; x00; xf0; x3f].
Definition bytesOfMinusTwo : list byte := [x00; x00; x00; x00; x00; x00; x00; xc0].

(** A tile without batch table: a one-byte glTF URI and two instances. *)
Definition exampleTile : list byte :=
  exampleHeader i3dm x01 x00 x01 x00 x02
    ++ [x67]
    ++ bytesOfOne ++ bytesOfMinusTwo
    ++ bytesOfMinusTwo ++ bytesOfOne.

(** A tile with a two-byte batch table and one instance of batch id
    [0x0102]. *)
Definition exampleTileWithBatchTable : list byte :=
  exampleHeader i3dm x01 x02 x01 x01 x01
    ++ [x7b; x7d]
    ++ [x67]
    ++ bytesOfOne ++ bytesOfMinusTwo ++ [x02; x01].

(** Collaborators whose [JSON.parse] accepts only what starts with an
    opening brace. *)
Definition strictCollaborators : Collaborators :=
  {| Json := list byte;
     BoundingVolume := unit;
     JSON_parse := fun s => match s with
                            | x7b :: _ => Some s
                            | _ => None
                            end;
     Cartesian3_fromRadians := fun lon lat h => (lon, lat, h);
     Transforms_eastNorthUpToFixedFrame := fun '(a, b, c) => [a; b; c];
     getAbsoluteUri := fun relative base => String.append base relative |}.

Definition strictContent : @Content strictCollaborators :=
  @newContent strictCollaborators {| baseUrl := "http://host/" |}
    (@Build_Cesium3DTile strictCollaborators 10%float tt)
    "http://host/tile.i3dm".

(** A tile whose two-byte batch table does not parse. *)
Definition malformedTile : list byte :=
  exampleHeader i3dm x01 x02 x01 x01 x01
    ++ [x7d; x7b]
    ++ [x67]
    ++ bytesOfOne ++ bytesOfMinusTwo ++ [x02; x01].

(** The first 40 bytes of the tile without batch table. *)
Definition truncatedTile : list byte := firstn 40 exampleTile.

(** The tile with batch table inside a larger buffer, two bytes in,
    and the content [initialize] leaves of it. *)
Definition compositeBuffer : list byte :=
  [x63; x6d] ++ exampleTileWithBatchTable ++ [xff; xff; xff].

Definition exampleInitializedWithBatchTable : @Content exampleCollaborators :=
  fst (@initialize exampleCollaborators exampleContent
         exampleTileWithBatchTable (Some 0)).

(** Example imagery layers: layer [0] is the base layer with default
    adjustments, layer [1] is half transparent, layer [2] has a dynamic
    brightness, and every other layer is fully transparent. *)
Definition exampleLayer (index : Z) (base : bool) (a b : LayerProperty)
    : ImageryLayer :=
  {| alpha := a; brightness := b;
     contrast := Constant 1; hue := Constant 0;
     saturation := Constant 1; gamma := Constant 1;
     _layerIndex := index; _isBaseLayer := base |}.

Definition exampleSurface : SurfaceCollaborators :=
  {| layers := fun l =>
       match l with
       | 0 => exampleLayer 0 true (Constant 1) (Constant 1)
       | 1 => exampleLayer 1 false (Constant 0.5) (Constant 1)
       | 2 => exampleLayer 2 false (Constant 1)
                (Dynamic (fun _ _ _ _ _ => 2%float))
       | _ => exampleLayer 3 false (Constant 0) (Constant 1)
       end;
     DEFAULT_BRIGHTNESS := 1;
     DEFAULT_CONTRAST := 1;
     DEFAULT_HUE := 0;
     DEFAULT_SATURATION := 1;
     DEFAULT_GAMMA := 1;
     _calculateTextureTranslationAndScale :=
       fun _ _ _ => (0, 0, 1, 1)%float |}.

Definition exampleImagery (layer : LayerRef) (s : ImageryState.t)
    (t : Texture) : Imagery :=
  {| imageryLayer := layer; imageryState := s; texture := t;
     imageryX := 0; imageryY := 0; imageryLevel := 0; credits := Some [t] |}.

(** A [TileImagery] whose imagery of [layer] is ready. *)
Definition readyEntry (layer : LayerRef) (t : Texture) : TileImagery :=
  {| readyImagery := Some (exampleImagery layer ImageryState.READY t);
     loadingImagery := None;
     textureCoordinateRectangle := (0, 0, 1, 1)%float;
     textureTranslationAndScale := None |}.

(** A [TileImagery] whose imagery of [layer] is still loading. *)
Definition loadingEntry (layer : LayerRef) (t : Texture) : TileImagery :=
  {| readyImagery := None;
     loadingImagery := Some (exampleImagery layer ImageryState.TRANSITIONING t);
     textureCoordinateRectangle := (0, 0, 1, 1)%float;
     textureTranslationAndScale := None |}.

Definition exampleQuadtreeTile (id : TileRef) (entries : list TileImagery)
    : QuadtreeTile :=
  {| tileId := id; imagery := entries; isRenderable := true |}.

(** Tiles that take one, two and three commands with two texture units. *)
Definition bareTile : QuadtreeTile := exampleQuadtreeTile 10 [].
Definition threeTextureTile : QuadtreeTile :=
  exampleQuadtreeTile 11 [readyEntry 0 100; readyEntry 1 101; readyEntry 2 102].
Definition fiveTextureTile : QuadtreeTile :=
  exampleQuadtreeTile 12
    [readyEntry 0 100; readyEntry 0 103; readyEntry 1 101;
     loadingEntry 1 104; readyEntry 2 102; readyEntry 2 105].

Definition twoUnits : Context := {| maximumTextureImageUnits := 2 |}.
(** A context without texture units. *)
Definition noUnits : Context := {| maximumTextureImageUnits := 0 |}.
Definition frame3D : FrameState := {| mode := SCENE3D |}.

(** The example content after [initialize] on the tile without batch
    table. *)
Definition exampleInitialized : @Content exampleCollaborators :=
  fst (@initialize exampleCollaborators exampleContent exampleTile None).

(** The collection [initialize] builds from that tile. *)
Definition exampleCollection : @ModelInstanceCollection exampleCollaborators :=
  @Build_ModelInstanceCollection exampleCollaborators
    [ {| modelMatrix := [1%float; (-2)%float; 0%float]; batchId := 0 |};
      {| modelMatrix := [(-2)%float; 1%float; 0%float]; batchId := 1 |} ]
    (@Build_Cesium3DTileBatchTableResources exampleCollaborators 2%Z None)
    tt false (Some "http://host/g"%string) None None.

(** A tile that declares no instance, and the content and collection
    [initialize] makes of it. *)
Definition emptyTile : list byte :=
  exampleHeader i3dm x01 x00 x01 x00 x00 ++ [x67].

Definition exampleEmpty : @Content exampleCollaborators :=
  fst (@initialize exampleCollaborators exampleContent emptyTile None).

Definition exampleEmptyCollection : @ModelInstanceCollection exampleCollaborators :=
  @Build_ModelInstanceCollection exampleCollaborators []
    (@Build_Cesium3DTileBatchTableResources exampleCollaborators 0%Z None)
    tt false (Some "http://host/g"%string) None None.

(** A tile whose box spans [0..1] along the [y] and [z] axes, with
    outward plane normals and maximum height [1]. *)
Definition unitBox {N : Type} {num : JSNumber N} : @SurfaceTile N :=
  {| rectangle := {| west := num_zero; south := num_zero;
                     east := num_one; north := num_one |};
     southwestCornerCartesian := {| x := num_zero; y := num_zero; z := num_zero |};
     northeastCornerCartesian := {| x := num_zero; y := num_one; z := num_one |};
     westNormal := negativeUnitY;
     southNormal := negativeUnitZ;
     eastNormal := UNIT_Y;
     northNormal := UNIT_Z;
     maximumHeight := num_one |}.

(** A projection that maps longitude and latitude to [x] and [y]. *)
Definition flatProjection {N : Type} (c : @Cartographic N) : @Cartesian3 N :=
  {| x := longitude c; y := latitude c; z := height c |}.

(** A tile whose entries are all passed over by the inner loop: one is
    still loading, the other belongs to a fully transparent layer. *)
Definition hiddenTile : QuadtreeTile :=
  exampleQuadtreeTile 13 [loadingEntry 1 104; readyEntry 3 106].

(** Layers whose index is their position in the layer collection. *)
Definition distinctSurface : SurfaceCollaborators :=
  {| layers := fun l => exampleLayer (Z.of_nat l) (Nat.eqb l 0)
                                     (Constant 1) (Constant 1);
     DEFAULT_BRIGHTNESS := 1;
     DEFAULT_CONTRAST := 1;
     DEFAULT_HUE := 0;
     DEFAULT_SATURATION := 1;
     DEFAULT_GAMMA := 1;
     _calculateTextureTranslationAndScale :=
       @_calculateTextureTranslationAndScale exampleSurface |}.

(** A [TileImagery] with neither a loading nor a ready imagery. *)
Definition emptyEntry : TileImagery :=
  {| readyImagery := None;
     loadingImagery := None;
     textureCoordinateRectangle := (0, 0, 1, 1)%float;
     textureTranslationAndScale := None |}.

(** A tile in which the entries of layer 0 are not adjacent. *)
Definition scatteredTile : QuadtreeTile :=
  exampleQuadtreeTile 14
    [readyEntry 1 101; readyEntry 0 100; loadingEntry 0 103;
     readyEntry 2 102; readyEntry 0 105].

(** A tile with an entry without imagery after entries of layer 0. *)
Definition brokenTile : QuadtreeTile :=
  exampleQuadtreeTile 15
    [readyEntry 1 101; readyEntry 0 100; emptyEntry; readyEntry 0 105].

(** The provider after [n] frames of the example sequence, which uses
    2, 5 and 1 commands. *)
Definition exampleFrames (n : nat) : Provider :=
  let frame p tiles :=
    match @renderFrame exampleSurface p tiles twoUnits frame3D with
    | Some p' => p'
    | None => p
    end in
  let p1 := frame newProvider [threeTextureTile] in
  let p2 := frame p1 [fiveTextureTile; threeTextureTile] in
  let p3 := frame p2 [bareTile] in
  match n with
  | 0 => newProvider
  | 1 => p1
  | 2 => p2
  | _ => p3
  end.

(** ** Notions used to state further properties of the decoder *)

(** [inner] occupies the positions from [shift] on of [outer], as a
    tile does inside the buffer of a composite tile. *)
Definition embedded (inner outer : DataView.ArrayBuffer) (shift : nat) : Prop :=
  shift + List.length inner <= List.length outer /\
  firstn (List.length inner) (skipn shift outer) = inner.

(** ** Notions used to state further properties of the surface provider *)

Section SurfaceProviderNotions.

Context {surface : SurfaceCollaborators}.

(** The imagery that the inner loop of [renderTile] draws from a
    collection, in the order of the collection. *)
Definition usableImageries (l : list TileImagery) : list Imagery :=
  flat_map (fun t => match usableImagery t with
                     | Some imagery => [imagery]
                     | None => []
                     end) l.

(** An entry as [renderTile] leaves it: an entry it draws has its
    texture translation and scale computed unless it had one. *)
Definition withCachedTransform (tile : TileRef) (t : TileImagery) : TileImagery :=
  match usableImagery t with
  | None => t
  | Some imagery =>
      {| readyImagery := readyImagery t;
         loadingImagery := loadingImagery t;
         textureCoordinateRectangle := textureCoordinateRectangle t;
         textureTranslationAndScale :=
           Some match textureTranslationAndScale t with
                | Some v => v
                | None =>
                    _calculateTextureTranslationAndScale
                      (imageryLayer imagery) tile t
                end |}
  end.

(** The values [renderTile] stores for an imagery. *)
Definition alphaOf (frameState : FrameState) (i : Imagery) : float :=
  evaluate (alpha (layers (imageryLayer i))) frameState (imageryLayer i) i.
Definition brightnessOf (frameState : FrameState) (i : Imagery) : float :=
  evaluate (brightness (layers (imageryLayer i))) frameState (imageryLayer i) i.
Definition contrastOf (frameState : FrameState) (i : Imagery) : float :=
  evaluate (contrast (layers (imageryLayer i))) frameState (imageryLayer i) i.
Definition hueOf (frameState : FrameState) (i : Imagery) : float :=
  evaluate (hue (layers (imageryLayer i))) frameState (imageryLayer i) i.
Definition saturationOf (frameState : FrameState) (i : Imagery) : float :=
  evaluate (saturation (layers (imageryLayer i))) frameState (imageryLayer i) i.
Definition oneOverGammaOf (frameState : FrameState) (i : Imagery) : float :=
  (1 / evaluate (gamma (layers (imageryLayer i))) frameState (imageryLayer i) i)%float.

(** The shader variant for a group of imagery drawn by one command: a
    colour adjustment is enabled when some imagery of the group deviates
    from its default. *)
Definition shaderKeyOf (frameState : FrameState) (g : list Imagery) : ShaderKey :=
  {| numberOfDayTextures := List.length g;
     applyBrightness :=
       existsb (fun i => negb (brightnessOf frameState i =? DEFAULT_BRIGHTNESS)%float) g;
     applyContrast :=
       existsb (fun i => negb (contrastOf frameState i =? DEFAULT_CONTRAST)%float) g;
     applyHue :=
       existsb (fun i => negb (hueOf frameState i =? DEFAULT_HUE)%float) g;
     applySaturation :=
       existsb (fun i => negb (saturationOf frameState i =? DEFAULT_SATURATION)%float) g;
     applyGamma :=
       existsb (fun i => negb (oneOverGammaOf frameState i =? 1 / DEFAULT_GAMMA)%float) g;
     applyAlpha :=
       existsb (fun i => negb (alphaOf frameState i =? 1)%float) g |}.

(** The credits of an imagery. *)
Definition creditsOf (i : Imagery) : list Credit :=
  match credits i with Some cs => cs | None => [] end.

(** The number of day textures of the pooled command at a position. *)
Definition textureCount (p : Provider) (command : CommandRef) : nat :=
  match nth_error (_drawCommands p) command with
  | Some c =>
      match shaderProgram c with
      | Some key => numberOfDayTextures key
      | None => 0
      end
  | None => 0
  end.

(** What a group of imagery drawn for [tile] leaves at position
    [position] of the pool: the command is owned by the tile and has
    the shader variant of the group, and its uniform map holds the
    textures and the alpha values of the group, the texture array being
    exactly as long as the group. *)
Definition drawnAt (p : Provider) (frameState : FrameState) (tile : TileRef)
    (position : nat) (g : list Imagery) : Prop :=
  exists command u,
    nth_error (_drawCommands p) position = Some command /\
    nth_error (_uniformMaps p) position = Some u /\
    owner command = Some tile /\
    shaderProgram command = Some (shaderKeyOf frameState g) /\
    commandUniformMap command = Some position /\
    dayTextures u = map (fun i => Some (texture i)) g /\
    firstn (List.length g) (dayTextureAlpha u)
    = map (fun i => Some (alphaOf frameState i)) g.

(** What the inner loop has done when it stops: [g] is the imagery it
    drew, a prefix of the usable imagery of the collection. *)
Record Gathered (maxTextures : nat) (tile : TileRef) (frameState : FrameState)
    (rest : list TileImagery) (d d' : DayTextures)
    (seen rest' : list TileImagery) (g : list Imagery) : Prop := {
  gathered_usable : usableImageries rest = g ++ usableImageries rest';
  gathered_count : dayCount d' = dayCount d + List.length g;
  gathered_budget : dayCount d' <= maxTextures;
  gathered_full : rest' <> [] -> dayCount d' = maxTextures;
  gathered_seen : seen = map (withCachedTransform tile)
                             (firstn (List.length seen) rest);
  gathered_rest : rest' = skipn (List.length seen) rest;
  gathered_brightness :
    brightnessFlag d'
    = brightnessFlag d
      || existsb (fun i => negb (brightnessOf frameState i =? DEFAULT_BRIGHTNESS)%float) g;
  gathered_contrast :
    contrastFlag d'
    = contrastFlag d
      || existsb (fun i => negb (contrastOf frameState i =? DEFAULT_CONTRAST)%float) g;
  gathered_hue :
    hueFlag d'
    = hueFlag d
      || existsb (fun i => negb (hueOf frameState i =? DEFAULT_HUE)%float) g;
  gathered_saturation :
    saturationFlag d'
    = saturationFlag d
      || existsb (fun i => negb (saturationOf frameState i =? DEFAULT_SATURATION)%float) g;
  gathered_gamma :
    gammaFlag d'
    = gammaFlag d
      || existsb (fun i => negb (oneOverGammaOf frameState i =? 1 / DEFAULT_GAMMA)%float) g;
  gathered_alpha :
    alphaFlag d'
    = alphaFlag d
      || existsb (fun i => negb (alphaOf frameState i =? 1)%float) g;
  gathered_credits :
    creditDisplay d' = creditDisplay d ++ flat_map creditsOf g;
  gathered_textures :
    dayCount d <= List.length (dayTextures (dayUniformMap d)) ->
    dayCount d' <= List.length (dayTextures (dayUniformMap d')) /\
    firstn (dayCount d') (dayTextures (dayUniformMap d'))
    = firstn (dayCount d) (dayTextures (dayUniformMap d))
      ++ map (fun i => Some (texture i)) g;
  gathered_alphas :
    dayCount d <= List.length (dayTextureAlpha (dayUniformMap d)) ->
    dayCount d' <= List.length (dayTextureAlpha (dayUniformMap d')) /\
    firstn (dayCount d') (dayTextureAlpha (dayUniformMap d'))
    = firstn (dayCount d) (dayTextureAlpha (dayUniformMap d))
      ++ map (fun i => Some (alphaOf frameState i)) g
}.

(** What a run of the render loop amounts to.  [groups] holds, per
    command claimed, the imagery drawn by it. *)
Record Rendered (context : Context) (frameState : FrameState) (tile : TileRef)
    (p p' : Provider) (rest : list TileImagery)
    (groups : list (list Imagery)) : Prop := {
  rendered_some : groups <> [];
  rendered_all : List.concat groups = usableImageries rest;
  rendered_used :
    _usedDrawCommands p' = _usedDrawCommands p + List.length groups;
  rendered_budget :
    Forall (fun g => List.length g <= maximumTextureImageUnits context) groups;
  rendered_full :
    Forall (fun g => List.length g = maximumTextureImageUnits context)
           (removelast groups);
  rendered_drawn :
    forall k g, nth_error groups k = Some g ->
                drawnAt p' frameState tile (_usedDrawCommands p + k) g;
  rendered_frame :
    forall i, i < _usedDrawCommands p ->
      nth_error (_drawCommands p') i = nth_error (_drawCommands p) i /\
      nth_error (_uniformMaps p') i = nth_error (_uniformMaps p) i;
  rendered_lists :
    forall n, exists added,
      tilesAt (_tilesToRenderByTextureCount p') n
      = tilesAt (_tilesToRenderByTextureCount p) n ++ added /\
      Forall (fun command =>
                _usedDrawCommands p <= command < _usedDrawCommands p' /\
                exists g, nth_error groups (command - _usedDrawCommands p) = Some g /\
                          List.length g = n) added;
  rendered_order : _layerOrderChanged p' = _layerOrderChanged p;
  rendered_debug : _debug_boundingSphereTile p' = _debug_boundingSphereTile p
}.

(** [l] is in an order that [sort] with the comparator of [beginFrame]
    can leave it in: the comparator is not positive on any entry and
    its successor. *)
Definition orderedByLayerIndex (l : list TileImagery) : Prop :=
  Sorted (fun a b => exists v, sortTileImageryByLayerIndex a b = Some v /\
                               (v <= 0)%Z) l.

(** The entries of [layer] are adjacent in [l]. *)
Definition contiguous (layer : LayerRef) (l : list TileImagery) : Prop :=
  exists pre run post,
    l = pre ++ run ++ post /\
    Forall (fun t => belongsTo layer t = false) pre /\
    Forall (fun t => belongsTo layer t = true) run /\
    Forall (fun t => belongsTo layer t = false) post.

(** [tile] once the entries of [layer] are gone from its imagery. *)
Definition withoutLayer (layer : LayerRef) (tile : QuadtreeTile)
    : QuadtreeTile :=
  {| tileId := tileId tile;
     imagery := filter (fun t => negb (belongsTo layer t)) (imagery tile);
     isRenderable :=
       if _isBaseLayer (layers layer) then false else isRenderable tile |}.

(** What the render lists hold in every reachable state: exactly the
    commands claimed in the current frame, each once, each on the list
    of its own texture count. *)
Definition frameInvariant (p : Provider) : Prop :=
  Permutation (flattenTiles (_tilesToRenderByTextureCount p))
              (seq 0 (_usedDrawCommands p)) /\
  forall n command,
    In command (tilesAt (_tilesToRenderByTextureCount p) n) ->
    textureCount p command = n.

End SurfaceProviderNotions.

(* ================================================================== *)
(** * Part II: properties                                              *)
(* ================================================================== *)

(** ** Reading from buffers *)

Lemma uintLE_defined (b : DataView.ArrayBuffer) (n pos : nat) :
  pos + n <= List.length b -> exists v, DataView.uintLE b pos n = Some v.
Proof.
  revert pos; induction n as [|n IH]; intros pos Hle; simpl.
  - now exists 0%Z.
  - destruct (nth_error b pos) as [lo|] eqn:Hlo.
    + destruct (IH (S pos)) as [hi Hhi]; [lia|].
      rewrite Hhi. now eexists.
    + apply nth_error_None in Hlo. lia.
Qed.

Lemma getUint_window (b : DataView.ArrayBuffer) (off len width o : nat) :
  o + width <= len ->
  DataView.getUint width (DataView.mk b off len) o
  = DataView.uintLE b (off + o) width.
Proof.
  intros Hle. unfold DataView.getUint; simpl.
  destruct (Nat.leb_spec (o + width) len); [reflexivity | lia].
Qed.

Lemma window_fits (b : DataView.ArrayBuffer) (off len : nat) :
  off + len <= List.length b ->
  DataView.window b off len = Some (DataView.mk b off len).
Proof.
  intros Hle. unfold DataView.window.
  destruct (Nat.leb_spec (off + len) (List.length b)); [reflexivity | lia].
Qed.

Lemma magic_eqb_true (a b : list byte) : magic_eqb a b = true <-> a = b.
Proof.
  unfold magic_eqb. destruct (list_eq_dec byte_eq_dec a b); split; congruence.
Qed.

Lemma magic_eqb_false (a b : list byte) : magic_eqb a b = false <-> a <> b.
Proof.
  unfold magic_eqb. destruct (list_eq_dec byte_eq_dec a b); split; congruence.
Qed.

Section ContentProviderProperties.

Context {collab : Collaborators}.

(** *** The header checks *)

(** An omitted [byteOffset] is [0]. *)
Lemma initialize_default_offset (c : Content) (arrayBuffer : DataView.ArrayBuffer) :
  initialize c arrayBuffer None = initialize c arrayBuffer (Some 0).
Proof. reflexivity. Qed.

(** C1.  A buffer that fails the magic check, the version check or the
    glTF-format check makes [initialize] throw the [DeveloperError] of
    that check, carrying the offending value, and the content object
    is returned exactly as it was passed in: no field has been
    assigned before the throw. *)
Theorem initialize_header_failure_leaves_content
    (c : Content) (arrayBuffer : DataView.ArrayBuffer) (off : nat) :
  let view := DataView.whole arrayBuffer in
  (getMagic arrayBuffer off <> i3dm ->
   initialize c arrayBuffer (Some off)
   = (c, Throw (DeveloperError (InvalidMagic (getMagic arrayBuffer off)))))
  /\
  (forall version,
     getMagic arrayBuffer off = i3dm ->
     DataView.getUint32 view (off + 4) = Some version ->
     version <> 1%Z ->
     initialize c arrayBuffer (Some off)
     = (c, Throw (DeveloperError (UnsupportedVersion version))))
  /\
  (forall batchTableByteLength gltfByteLength gltfFormat instancesLength,
     getMagic arrayBuffer off = i3dm ->
     DataView.getUint32 view (off + 4) = Some 1%Z ->
     DataView.getUint32 view (off + 12) = Some batchTableByteLength ->
     DataView.getUint32 view (off + 16) = Some gltfByteLength ->
     DataView.getUint32 view (off + 20) = Some gltfFormat ->
     DataView.getUint32 view (off + 24) = Some instancesLength ->
     gltfFormat <> 0%Z -> gltfFormat <> 1%Z ->
     initialize c arrayBuffer (Some off)
     = (c, Throw (DeveloperError (UnsupportedGltfFormat gltfFormat)))).
Proof.
  intros view. unfold initialize, sizeOfUint32. fold view.
  replace (off + 4 + 4 + 4) with (off + 12) by lia.
  replace (off + 12 + 4) with (off + 16) by lia.
  replace (off + 16 + 4) with (off + 20) by lia.
  replace (off + 20 + 4) with (off + 24) by lia.
  split; [|split].
  - intros Hmagic. apply magic_eqb_false in Hmagic. now rewrite Hmagic.
  - intros version Hmagic Hversion Hne.
    apply magic_eqb_true in Hmagic. rewrite Hmagic, Hversion. simpl.
    apply Z.eqb_neq in Hne. now rewrite Hne.
  - intros bt gl fmt n Hmagic Hversion Hbt Hgl Hfmt Hn Hne0 Hne1.
    apply magic_eqb_true in Hmagic.
    rewrite Hmagic, Hversion, Hbt, Hgl, Hfmt, Hn. simpl.
    apply Z.eqb_neq in Hne0, Hne1. now rewrite Hne0, Hne1.
Qed.

(** *** The instance records *)

Lemma readInstances_records (b : DataView.ArrayBuffer) (vo vl : nat)
    (hasBatchTable : bool) :
  vo + vl <= List.length b ->
  forall n i off,
    off + n * recordLength hasBatchTable <= vl ->
    exists l,
      readInstances (DataView.mk b vo vl) hasBatchTable n i off = Some l /\
      List.length l = n /\
      forall k, k < n ->
        exists inst,
          nth_error l k = Some inst /\
          recordDecoded b hasBatchTable
            (vo + off + k * recordLength hasBatchTable) (i + k) inst.
Proof.
  intros Hfit n. induction n as [|n IH]; intros i off Hle.
  - exists []. repeat split; auto. intros k Hk. lia.
  - assert (Hrec : recordLength hasBatchTable
                   = 16 + (if hasBatchTable then 2 else 0)) by reflexivity.
    cbn [readInstances]. unfold DataView.getFloat64, DataView.getUint16,
      sizeOfFloat64, sizeOfUint16.
    rewrite !getUint_window by (destruct hasBatchTable; simpl in *; lia).
    destruct (@uintLE_defined b 8 (vo + off)) as [lon Hlon]; [lia|].
    destruct (@uintLE_defined b 8 (vo + (off + 8))) as [lat Hlat]; [lia|].
    rewrite Hlon, Hlat. cbn [option_map].
    assert (Hbid : exists bid off',
               (if hasBatchTable
                then option_map (fun b0 : Z => (b0, off + 8 + 8 + 2))
                       (DataView.getUint 2 (DataView.mk b vo vl) (off + 8 + 8))
                else Some (Z.of_nat i, off + 8 + 8)) = Some (bid, off') /\
               off' = off + recordLength hasBatchTable /\
               (if hasBatchTable
                then DataView.uintLE b (vo + off + 16) 2 = Some bid
                else bid = Z.of_nat i)).
    { destruct hasBatchTable.
      - rewrite getUint_window by (simpl in *; lia).
        destruct (@uintLE_defined b 2 (vo + (off + 8 + 8))) as [bid Hbid];
          [simpl in *; lia|].
        rewrite Hbid. exists bid, (off + 8 + 8 + 2). cbn [option_map].
        repeat split; [simpl; lia|].
        now replace (vo + off + 16) with (vo + (off + 8 + 8)) by lia.
      - exists (Z.of_nat i), (off + 8 + 8). repeat split. simpl; lia. }
    destruct Hbid as (bid & off' & Hread & Hoff' & Hbid).
    rewrite Hread.
    destruct (IH (S i) off') as (l & Hl & Hlen & Hnth); [subst off'; lia|].
    rewrite Hl. eexists. split; [reflexivity|]. split; [simpl; lia|].
    intros [|k] Hk.
    + eexists. split; [reflexivity|].
      exists lon, lat, bid.
      replace (vo + off + 0 * recordLength hasBatchTable) with (vo + off) by lia.
      replace (vo + off + 8) with (vo + (off + 8)) by lia.
      replace (i + 0) with i by lia.
      repeat split; auto.
    + destruct (Hnth k) as (inst & Hk1 & Hk2); [lia|].
      exists inst. split; [exact Hk1|].
      replace (vo + off + S k * recordLength hasBatchTable)
        with (vo + off' + k * recordLength hasBatchTable) by (subst off'; lia).
      now replace (i + S k) with (S i + k) by lia.
Qed.

(** C3.  For a well-formed buffer that declares [instancesLength]
    records, [initialize] returns normally with a collection of that
    many instances; instance [i] is decoded from the record starting
    [i] record lengths after the glTF bytes: its longitude is the
    little-endian double in the first 8 bytes, its latitude the one in
    the next 8, its height is [0], and its batch id is the
    little-endian 16-bit value that follows exactly when the
    batch-table byte length is positive, and the index [i] otherwise. *)
Theorem initialize_decodes_instance_records
    (c : Content) (arrayBuffer : DataView.ArrayBuffer) (off : nat)
    (batchTableByteLength gltfByteLength gltfFormat instancesLength : Z) :
  let view := DataView.whole arrayBuffer in
  let hasBatchTable := (0 <? batchTableByteLength)%Z in
  let first := off + 28 + Z.to_nat batchTableByteLength
               + Z.to_nat gltfByteLength in
  getMagic arrayBuffer off = i3dm ->
  DataView.getUint32 view (off + 4) = Some 1%Z ->
  DataView.getUint32 view (off + 12) = Some batchTableByteLength ->
  DataView.getUint32 view (off + 16) = Some gltfByteLength ->
  DataView.getUint32 view (off + 20) = Some gltfFormat ->
  DataView.getUint32 view (off + 24) = Some instancesLength ->
  gltfFormat = 0%Z \/ gltfFormat = 1%Z ->
  first + Z.to_nat instancesLength * recordLength hasBatchTable
    <= List.length arrayBuffer ->
  (hasBatchTable = true ->
   exists json,
     JSON_parse (firstn (Z.to_nat batchTableByteLength)
                        (skipn (off + 28) arrayBuffer)) = Some json) ->
  exists c' m,
    initialize c arrayBuffer (Some off) = (c', Normal tt) /\
    _modelInstanceCollection c' = Some m /\
    List.length (instances m) = Z.to_nat instancesLength /\
    forall i, i < Z.to_nat instancesLength ->
      exists inst,
        nth_error (instances m) i = Some inst /\
        recordDecoded arrayBuffer hasBatchTable
          (first + i * recordLength hasBatchTable) i inst.
Proof.
  intros view hasBatchTable first Hmagic Hversion Hbt Hgl Hfmt Hn Hformat
         Hlen Hjson.
  assert (Hcheck : negb (gltfFormat =? 0)%Z && negb (gltfFormat =? 1)%Z = false)
    by (destruct Hformat; subst; reflexivity).
  apply magic_eqb_true in Hmagic.
  unfold initialize, sizeOfUint32. fold view.
  replace (off + 4 + 4 + 4) with (off + 12) by lia.
  replace (off + 12 + 4) with (off + 16) by lia.
  replace (off + 16 + 4) with (off + 20) by lia.
  replace (off + 20 + 4) with (off + 24) by lia.
  replace (off + 24 + 4) with (off + 28) by lia.
  rewrite Hmagic, Hversion, Hbt, Hgl, Hfmt, Hn.
  cbn [negb Z.eqb Pos.eqb]. rewrite Hcheck. fold hasBatchTable.
  assert (Hcollection :
    forall c0 resources skip,
      skip = off + 28 + (if hasBatchTable then Z.to_nat batchTableByteLength else 0) ->
      exists c' m,
        initializeCollection c0 arrayBuffer resources hasBatchTable skip
                             gltfByteLength gltfFormat instancesLength
        = (c', Normal tt) /\
        _modelInstanceCollection c' = Some m /\
        List.length (instances m) = Z.to_nat instancesLength /\
        forall i, i < Z.to_nat instancesLength ->
          exists inst,
            nth_error (instances m) i = Some inst /\
            recordDecoded arrayBuffer hasBatchTable
              (first + i * recordLength hasBatchTable) i inst).
  { intros c0 resources skip Hskip.
    assert (Hfirst : skip + Z.to_nat gltfByteLength = first).
    { subst skip first. unfold hasBatchTable.
      destruct (Z.ltb_spec 0 batchTableByteLength); lia. }
    unfold initializeCollection, sizeOfFloat64, sizeOfUint16.
    rewrite window_fits by lia. rewrite Hfirst.
    change (8 * 2 + (if hasBatchTable then 2 else 0))
      with (recordLength hasBatchTable).
    rewrite window_fits by lia.
    destruct (@readInstances_records arrayBuffer first
                (Z.to_nat instancesLength * recordLength hasBatchTable)
                hasBatchTable Hlen (Z.to_nat instancesLength) 0 0)
      as (l & Hl & Hlength & Hnth); [lia|].
    rewrite Hl.
    destruct (gltfFormat =? 0)%Z;
      (do 2 eexists; split; [reflexivity|]; split; [reflexivity|];
       split; [exact Hlength|];
       intros i Hi; destruct (Hnth i Hi) as (inst & H1 & H2);
       exists inst; split; [exact H1|];
       now replace (first + 0 + i * recordLength hasBatchTable)
         with (first + i * recordLength hasBatchTable) in H2 by lia). }
  destruct hasBatchTable eqn:Hhas.
  - destruct (Hjson eq_refl) as [json Hparse].
    unfold getStringFromTypedArray.
    rewrite window_fits by lia. cbn [option_map]. unfold DataView.bytes.
    cbn [DataView.byteLength DataView.byteOffset DataView.buffer].
    rewrite Hparse. apply Hcollection. reflexivity.
  - apply Hcollection. lia.
Qed.

(** *** The feature accessor *)

Lemma newFeatures_length tileset resources n :
  forall heap i, List.length (newFeatures tileset resources heap n i) = n.
Proof.
  induction n as [|n IH]; intros heap i; simpl; [reflexivity|].
  now rewrite IH.
Qed.

Lemma newFeatures_nth tileset resources n :
  forall heap i k,
    k < n ->
    nth_error (newFeatures tileset resources heap n i) k
    = Some {| featureObject := heap + k;
              featureTileset := tileset;
              featureBatchTableResources := resources;
              featureBatchId := i + k |}.
Proof.
  induction n as [|n IH]; intros heap i k Hk; [lia|].
  destruct k as [|k]; simpl.
  - now rewrite !Nat.add_0_r.
  - rewrite IH by lia.
    replace (S heap + k) with (heap + S k) by lia.
    now replace (S i + k) with (i + S k) by lia.
Qed.

(** Once the feature array exists, [getFeature] with a batch id in
    range returns the handle stored at that position and changes
    neither the content nor the allocation counter. *)
Lemma getFeature_cached (c : Content) (heap : nat) (b n : Z) features :
  featuresLength c = Some n ->
  _features c = Some features ->
  (0 <= b < n)%Z ->
  getFeature c heap (Some b)
  = ((c, heap), Normal (nth_error features (Z.to_nat b))).
Proof.
  intros Hn Hf Hb. unfold getFeature, createFeatures.
  unfold featuresLength in Hn. rewrite Hn. unfold featuresLength. rewrite Hn.
  destruct (Z.ltb_spec b 0); [lia|].
  destruct (Z.leb_spec n b); [lia|]. cbn [orb].
  now rewrite Hf, Hf.
Qed.

(** The first call of [getFeature] with a batch id in range allocates
    the feature array and stores it in the content. *)
Lemma getFeature_first_call (c : Content) (heap : nat) (b n : Z) :
  featuresLength c = Some n ->
  _features c = None ->
  (0 <= b < n)%Z ->
  let features := newFeatures (_tileset c) (_batchTableResources c) heap
                              (Z.to_nat n) 0 in
  getFeature c heap (Some b)
  = ((set_features c (Some features), heap + Z.to_nat n),
     Normal (nth_error features (Z.to_nat b))).
Proof.
  intros Hn Hnone Hb features.
  unfold getFeature, createFeatures.
  pose proof Hn as Hn'. unfold featuresLength in Hn'. rewrite Hn'.
  unfold featuresLength. rewrite Hn'.
  destruct (Z.ltb_spec b 0); [lia|].
  destruct (Z.leb_spec n b); [lia|]. cbn [orb].
  rewrite Hnone.
  destruct (Z.ltb_spec 0 n); [|lia].
  reflexivity.
Qed.

(** C6.  The first call of [getFeature] with a batch id in range builds
    the feature array: one freshly allocated handle per instance, the
    handle at position [i] bound to batch id [i].  It returns the
    handle at the requested position.  Every later call with the same
    batch id returns that very handle (same object identity), and
    every later call with any batch id in range leaves the content and
    the allocation counter as they are: the array is built once and
    never rebuilt. *)
Theorem getFeature_idempotent (c : Content) (heap : nat) (b n : Z) :
  featuresLength c = Some n ->
  _features c = None ->
  (0 <= b < n)%Z ->
  exists c1 f features,
    getFeature c heap (Some b) = ((c1, heap + Z.to_nat n), Normal (Some f)) /\
    _features c1 = Some features /\
    List.length features = Z.to_nat n /\
    (forall i, i < Z.to_nat n ->
       exists fi, nth_error features i = Some fi /\
                  featureBatchId fi = i /\ featureObject fi = heap + i) /\
    nth_error features (Z.to_nat b) = Some f /\
    (forall heap',
       getFeature c1 heap' (Some b) = ((c1, heap'), Normal (Some f))) /\
    (forall heap' b',
       (0 <= b' < n)%Z ->
       fst (getFeature c1 heap' (Some b')) = (c1, heap')).
Proof.
  intros Hn Hnone Hb.
  pose proof (@getFeature_first_call c heap b n Hn Hnone Hb) as Hcall.
  cbv zeta in Hcall.
  set (features := newFeatures (_tileset c) (_batchTableResources c) heap
                               (Z.to_nat n) 0) in *.
  set (c1 := set_features c (Some features)) in *.
  assert (Hn1 : featuresLength c1 = Some n) by exact Hn.
  assert (Hf1 : _features c1 = Some features) by reflexivity.
  assert (Hnth : nth_error features (Z.to_nat b)
                 = Some {| featureObject := heap + Z.to_nat b;
                           featureTileset := _tileset c;
                           featureBatchTableResources := _batchTableResources c;
                           featureBatchId := Z.to_nat b |}).
  { unfold features. rewrite newFeatures_nth by lia. reflexivity. }
  exists c1. eexists. exists features.
  split; [|split; [exact Hf1|split; [apply newFeatures_length|split; [|split;[exact Hnth|split]]]]].
  - rewrite Hcall, Hnth. reflexivity.
  - intros i Hi. eexists. split.
    + unfold features. apply newFeatures_nth. exact Hi.
    + split; reflexivity.
  - intros heap'. rewrite (@getFeature_cached c1 heap' b n features Hn1 Hf1 Hb).
    now rewrite Hnth.
  - intros heap' b' Hb'.
    now rewrite (@getFeature_cached c1 heap' b' n features Hn1 Hf1 Hb').
Qed.

(** C7.  On a content whose instance collection exists, [getFeature]
    throws exactly when the batch id is [undefined], negative, or not
    below [featuresLength], and what it throws is then the
    [DeveloperError] of the range check; no other call throws.  With
    no instances [featuresLength] is [0] and every call throws. *)
Theorem getFeature_throws_iff_out_of_range
    (c : Content) (m : ModelInstanceCollection) (heap : nat)
    (batchId : option Z) :
  _modelInstanceCollection c = Some m ->
  let n := collectionLength m in
  featuresLength c = Some n /\
  ((exists e, snd (getFeature c heap batchId) = Throw e)
   <-> (batchId = None \/
        exists b, batchId = Some b /\ ((b < 0)%Z \/ (n <= b)%Z))) /\
  (forall e, snd (getFeature c heap batchId) = Throw e ->
             e = DeveloperError (BatchIdOutOfRange n)) /\
  (instances m = [] ->
   n = 0%Z /\
   snd (getFeature c heap batchId)
   = Throw (DeveloperError (BatchIdOutOfRange 0))).
Proof.
  intros Hm n.
  assert (Hn : featuresLength c = Some n)
    by (unfold featuresLength; now rewrite Hm).
  assert (Hout : (batchId = None \/
                  exists b, batchId = Some b /\ ((b < 0)%Z \/ (n <= b)%Z)) ->
                 snd (getFeature c heap batchId)
                 = Throw (DeveloperError (BatchIdOutOfRange n))).
  { intros Hcase. unfold getFeature. rewrite Hm. cbn [option_map]. fold n.
    destruct Hcase as [->|(b & -> & Hb)]; [reflexivity|].
    destruct (Z.ltb_spec b 0); [reflexivity|].
    destruct (Z.leb_spec n b); [reflexivity|lia]. }
  assert (Hin : forall b, batchId = Some b -> (0 <= b < n)%Z ->
                exists r, snd (getFeature c heap batchId) = Normal r).
  { intros b -> Hb.
    destruct (_features c) as [features|] eqn:Hf.
    - rewrite (@getFeature_cached c heap b n features Hn Hf Hb).
      now eexists.
    - rewrite (@getFeature_first_call c heap b n Hn Hf Hb). now eexists. }
  assert (Hdec : (batchId = None \/
                  exists b, batchId = Some b /\ ((b < 0)%Z \/ (n <= b)%Z))
                 \/ exists b, batchId = Some b /\ (0 <= b < n)%Z).
  { destruct batchId as [b|]; [|now left; left].
    destruct (Z.ltb_spec b 0); [left; right; exists b; auto|].
    destruct (Z.leb_spec n b); [left; right; exists b; auto|].
    right. exists b. split; [reflexivity|lia]. }
  split; [exact Hn|]. split; [|split].
  - split.
    + intros [e He]. destruct Hdec as [Hcase|(b & Hb1 & Hb2)]; [exact Hcase|].
      destruct (Hin b Hb1 Hb2) as [r Hr]. congruence.
    + intros Hcase. eexists. now apply Hout.
  - intros e He. destruct Hdec as [Hcase|(b & Hb1 & Hb2)].
    + rewrite (Hout Hcase) in He. congruence.
    + destruct (Hin b Hb1 Hb2) as [r Hr]. congruence.
  - intros Hempty.
    assert (Hzero : n = 0%Z) by (unfold n, collectionLength; now rewrite Hempty).
    split; [exact Hzero|]. rewrite <- Hzero. apply Hout.
    destruct batchId as [b|]; [right|now left].
    exists b. split; [reflexivity|lia].
Qed.

(** *** The state machine *)

Ltac case_matches :=
  repeat match goal with
         | |- context [match ?e with _ => _ end] => destruct e eqn:?
         | |- context [if ?e then _ else _] => destruct e eqn:?
         end.

(** [initialize] never touches [readyPromise], and leaves [state] as
    it is unless it sets it to [PROCESSING]. *)
Lemma initializeCollection_ready c arrayBuffer resources hasBatchTable
      byteOffset gltfByteLength gltfFormat instancesLength :
  let c' := fst (initializeCollection c arrayBuffer resources hasBatchTable
                   byteOffset gltfByteLength gltfFormat instancesLength) in
  readyPromise c' = readyPromise c /\
  (state c' = state c \/ state c' = PROCESSING).
Proof.
  unfold initializeCollection. case_matches; simpl; auto.
Qed.

Lemma initialize_ready c arrayBuffer byteOffset :
  let c' := fst (initialize c arrayBuffer byteOffset) in
  readyPromise c' = readyPromise c /\
  (state c' = state c \/ state c' = PROCESSING).
Proof.
  unfold initialize. case_matches; simpl; auto;
    match goal with
    | |- context [initializeCollection ?a ?b ?c ?d ?e ?f ?g ?h] =>
        let H := fresh "H" in
        pose proof (@initializeCollection_ready a b c d e f g h) as H;
        cbv zeta in H; simpl in H; exact H
    end.
Qed.

Lemma resolve_settled d :
  Deferred.settled d = true -> Deferred.resolve d = d.
Proof. destruct d; simpl; congruence. Qed.

Lemma reject_settled d e :
  Deferred.settled d = true -> Deferred.reject d e = d.
Proof. destruct d; simpl; congruence. Qed.

Lemma resolve_is_settled d : Deferred.settled (Deferred.resolve d) = true.
Proof. now destruct d. Qed.

Lemma reject_is_settled d e : Deferred.settled (Deferred.reject d e) = true.
Proof. now destruct d. Qed.

(** A settled [readyPromise] is left as it is by every event. *)
Lemma step_keeps_settled (c : Content) (e : Event) :
  Deferred.settled (readyPromise c) = true ->
  readyPromise (step c e) = readyPromise c.
Proof.
  intros Hs. destruct e; simpl.
  - unfold request. now destruct admitted.
  - unfold request_then, request_otherwise.
    destruct (isDestroyed c); simpl; [now apply reject_settled|].
    pose proof (@initialize_ready c arrayBuffer None) as [Hr _].
    destruct (initialize c arrayBuffer None) as [c' [u|err]]; simpl in *;
      [exact Hr|].
    rewrite Hr. now apply reject_settled.
  - unfold request_otherwise; simpl. now apply reject_settled.
  - apply initialize_ready.
  - unfold onCollectionReady; simpl. now apply resolve_settled.
  - unfold onCollectionFailed; simpl. now apply reject_settled.
  - reflexivity.
Qed.

Lemma run_keeps_settled (es : list Event) :
  forall c, Deferred.settled (readyPromise c) = true ->
            readyPromise (run c es) = readyPromise c.
Proof.
  induction es as [|e es IH]; intros c Hs; [reflexivity|].
  unfold run in *. simpl.
  rewrite IH; [now apply step_keeps_settled|].
  now rewrite step_keeps_settled.
Qed.

Lemma step_settledWhenTerminal (c : Content) (e : Event) :
  settledWhenTerminal c -> settledWhenTerminal (step c e).
Proof.
  unfold settledWhenTerminal, terminal. intros Hinv.
  destruct e; simpl.
  - unfold request. destruct admitted; simpl; [|exact Hinv].
    intros [H|H]; discriminate.
  - unfold request_then, request_otherwise.
    destruct (isDestroyed c); simpl; [intros _; apply reject_is_settled|].
    pose proof (@initialize_ready c arrayBuffer None) as [Hr Hst].
    destruct (initialize c arrayBuffer None) as [c' [u|err]]; simpl in *.
    + rewrite Hr. destruct Hst as [Hst|Hst]; rewrite Hst; [exact Hinv|].
      intros [H|H]; discriminate.
    + intros _. apply reject_is_settled.
  - unfold request_otherwise; simpl. intros _. apply reject_is_settled.
  - pose proof (@initialize_ready c arrayBuffer byteOffset) as [Hr Hst].
    cbv zeta in *. rewrite Hr.
    destruct Hst as [Hst|Hst]; rewrite Hst; [exact Hinv|].
    intros [H|H]; discriminate.
  - unfold onCollectionReady; simpl. intros _. apply resolve_is_settled.
  - unfold onCollectionFailed; simpl. intros _. apply reject_is_settled.
  - exact Hinv.
Qed.

Lemma run_settledWhenTerminal (es : list Event) :
  forall c, settledWhenTerminal c -> settledWhenTerminal (run c es).
Proof.
  induction es as [|e es IH]; intros c Hinv; [exact Hinv|].
  unfold run in *. simpl. apply IH. now apply step_settledWhenTerminal.
Qed.

(** C2 (as amended).  When the bytes of a request are delivered to a
    content that was destroyed while [LOADING], the continuation does
    not call [initialize]: the instance collection, the batch table
    resources and [processingPromise] stay as they are and the state
    never becomes [PROCESSING].  The continuation returns a rejection
    with reason ['tileset is destroyed'], which reaches the
    [otherwise] callback: the state becomes [FAILED] and
    [readyPromise], when still pending, is rejected with that reason. *)
Theorem destroyed_while_loading_is_rejected
    (c : Content) (arrayBuffer : DataView.ArrayBuffer) :
  state c = LOADING ->
  isDestroyed c = true ->
  let c' := request_then c arrayBuffer in
  state c' = FAILED /\
  state c' <> PROCESSING /\
  _modelInstanceCollection c' = _modelInstanceCollection c /\
  _batchTableResources c' = _batchTableResources c /\
  processingPromise c' = processingPromise c /\
  readyPromise c'
  = Deferred.reject (readyPromise c) (Rejection "tileset is destroyed") /\
  (readyPromise c = Deferred.Pending ->
   readyPromise c' = Deferred.Rejected (Rejection "tileset is destroyed")).
Proof.
  intros Hstate Hdestroyed c'. subst c'.
  unfold request_then. rewrite Hdestroyed. unfold request_otherwise; simpl.
  repeat split; try discriminate.
  intros Hpending. now rewrite Hpending.
Qed.

(** C9.  Starting from a new content object, after any sequence of
    events that leaves the state [READY] or [FAILED], [readyPromise]
    is settled, and whatever happens afterwards (further readiness or
    failure callbacks, further request and initialize cycles,
    destruction) leaves it exactly as it was settled. *)
Theorem readyPromise_settles_once
    (tileset : Cesium3DTileset) (tile : Cesium3DTile) (url : string)
    (before after : list Event) :
  let c := run (newContent tileset tile url) before in
  state c = READY \/ state c = FAILED ->
  Deferred.settled (readyPromise c) = true /\
  readyPromise (run c after) = readyPromise c.
Proof.
  intros c Hterminal.
  assert (Hs : Deferred.settled (readyPromise c) = true).
  { apply (@run_settledWhenTerminal before (newContent tileset tile url));
      [|exact Hterminal].
    intros [H|H]; discriminate. }
  split; [exact Hs|]. now apply run_keeps_settled.
Qed.

End ContentProviderProperties.

(** *** The content provider on the example tiles *)

Lemma initialize_header_failure_leaves_content_witness :
  @initialize exampleCollaborators exampleContent [x69; x33; x64; x00] (Some 0)
  = (exampleContent,
     Throw (DeveloperError (InvalidMagic [x69; x33; x64; x00])))
  /\
  @initialize exampleCollaborators exampleContent
    (exampleHeader i3dm x02 x00 x00 x00 x00) (Some 0)
  = (exampleContent, Throw (DeveloperError (UnsupportedVersion 2)))
  /\
  @initialize exampleCollaborators exampleContent
    (exampleHeader i3dm x01 x00 x00 x05 x00) (Some 0)
  = (exampleContent, Throw (DeveloperError (UnsupportedGltfFormat 5))).
Proof.
  split; [|split].
  - apply (proj1 (@initialize_header_failure_leaves_content
                    exampleCollaborators exampleContent
                    [x69; x33; x64; x00] 0)).
    vm_compute. discriminate.
  - apply (proj1 (proj2 (@initialize_header_failure_leaves_content
                           exampleCollaborators exampleContent
                           (exampleHeader i3dm x02 x00 x00 x00 x00) 0)) 2%Z);
      [reflexivity | reflexivity | discriminate].
  - apply (proj2 (proj2 (@initialize_header_failure_leaves_content
                           exampleCollaborators exampleContent
                           (exampleHeader i3dm x01 x00 x00 x05 x00) 0))
                 0%Z 0%Z 5%Z 0%Z);
      try reflexivity; discriminate.
Defined.

Lemma initialize_decodes_instance_records_witness :
  (exists c' m,
     @initialize exampleCollaborators exampleContent exampleTileWithBatchTable
                 (Some 0) = (c', Normal tt) /\
     _modelInstanceCollection c' = Some m /\
     List.length (instances m) = 1 /\
     forall i, i < 1 ->
       exists inst,
         nth_error (instances m) i = Some inst /\
         @recordDecoded exampleCollaborators exampleTileWithBatchTable true
                        (31 + i * 18) i inst)
  /\
  (exists c' m,
     @initialize exampleCollaborators exampleContent exampleTile
                 (Some 0) = (c', Normal tt) /\
     _modelInstanceCollection c' = Some m /\
     List.length (instances m) = 2 /\
     forall i, i < 2 ->
       exists inst,
         nth_error (instances m) i = Some inst /\
         @recordDecoded exampleCollaborators exampleTile false
                        (29 + i * 16) i inst).
Proof.
  split.
  - apply (@initialize_decodes_instance_records exampleCollaborators
             exampleContent exampleTileWithBatchTable 0 2%Z 1%Z 1%Z 1%Z);
      try reflexivity.
    + right; reflexivity.
    + intros _. eexists. reflexivity.
  - apply (@initialize_decodes_instance_records exampleCollaborators
             exampleContent exampleTile 0 0%Z 1%Z 0%Z 2%Z);
      try reflexivity.
    + left; reflexivity.
    + discriminate.
Defined.

Lemma getFeature_idempotent_witness :
  exists c1 f features,
    getFeature exampleInitialized 7 (Some 1%Z) = ((c1, 9), Normal (Some f)) /\
    _features c1 = Some features /\
    List.length features = 2 /\
    (forall i, i < 2 ->
       exists fi, nth_error features i = Some fi /\
                  featureBatchId fi = i /\ featureObject fi = 7 + i) /\
    nth_error features 1 = Some f /\
    (forall heap',
       getFeature c1 heap' (Some 1%Z) = ((c1, heap'), Normal (Some f))) /\
    (forall heap' b',
       (0 <= b' < 2)%Z ->
       fst (getFeature c1 heap' (Some b')) = (c1, heap')).
Proof.
  apply (@getFeature_idempotent exampleCollaborators exampleInitialized 7
           1%Z 2%Z); [reflexivity | reflexivity | lia].
Defined.

Lemma getFeature_throws_iff_out_of_range_witness :
  (featuresLength exampleInitialized = Some 2%Z /\
   ((exists e, snd (getFeature exampleInitialized 0 (Some 2%Z)) = Throw e)
    <-> (Some 2%Z = None \/
         exists b, Some 2%Z = Some b /\ ((b < 0)%Z \/ (2 <= b)%Z))) /\
   (forall e, snd (getFeature exampleInitialized 0 (Some 2%Z)) = Throw e ->
              e = DeveloperError (BatchIdOutOfRange 2)))
  /\
  (featuresLength exampleEmpty = Some 0%Z /\
   snd (getFeature exampleEmpty 0 (Some 0%Z))
   = Throw (DeveloperError (BatchIdOutOfRange 0))).
Proof.
  split.
  - destruct (@getFeature_throws_iff_out_of_range exampleCollaborators
                exampleInitialized exampleCollection 0 (Some 2%Z) eq_refl)
      as (H1 & H2 & H3 & _).
    split; [exact H1 | split; [exact H2 | exact H3]].
  - destruct (@getFeature_throws_iff_out_of_range exampleCollaborators
                exampleEmpty exampleEmptyCollection 0 (Some 0%Z) eq_refl)
      as (H1 & _ & _ & H4).
    split; [exact H1|]. exact (proj2 (H4 eq_refl)).
Defined.

Lemma destroyed_while_loading_is_rejected_witness :
  let c := destroy (request exampleContent true) in
  let c' := request_then c exampleTile in
  state c' = FAILED /\
  state c' <> PROCESSING /\
  _modelInstanceCollection c' = _modelInstanceCollection c /\
  _batchTableResources c' = _batchTableResources c /\
  processingPromise c' = processingPromise c /\
  readyPromise c'
  = Deferred.reject (readyPromise c) (Rejection "tileset is destroyed") /\
  (readyPromise c = Deferred.Pending ->
   readyPromise c' = Deferred.Rejected (Rejection "tileset is destroyed")).
Proof.
  intros c.
  apply (@destroyed_while_loading_is_rejected exampleCollaborators c
           exampleTile); reflexivity.
Defined.

(** C2 (as stated) fails: a content is requested, destroyed while
    [LOADING], and then receives its bytes.  Its [readyPromise], pending
    until then, is rejected with ['tileset is destroyed']: the
    destruction is reported through the terminal notification. *)
Lemma destroyed_while_loading_surfaces_rejection :
  let c := destroy (request exampleContent true) in
  state c = LOADING /\
  isDestroyed c = true /\
  readyPromise c = Deferred.Pending /\
  readyPromise (request_then c exampleTile)
  = Deferred.Rejected (Rejection "tileset is destroyed") /\
  state (request_then c exampleTile) = FAILED.
Proof. repeat split. Qed.

Lemma readyPromise_settles_once_witness :
  let c := run exampleContent
               [CallRequest true; BytesDelivered exampleTile; CollectionReady] in
  Deferred.settled (readyPromise c) = true /\
  readyPromise
    (run c [CollectionFailed TypeError; CallRequest true;
            BytesDelivered [x00]; CollectionReady;
            CallInitialize exampleTile None; CollectionFailed RangeError])
  = readyPromise c.
Proof.
  intros c.
  apply (@readyPromise_settles_once exampleCollaborators
           {| baseUrl := "http://host/" |}
           (@Build_Cesium3DTile exampleCollaborators 10%float tt)
           "http://host/tile.i3dm"
           [CallRequest true; BytesDelivered exampleTile; CollectionReady]).
  left. reflexivity.
Defined.

(** ** The distance metric *)

(** *** The sign of binary64 results

    [Prim2SF] and the specifications of the primitive operations
    relate JavaScript's numbers to the values of [SpecFloat]. *)

Lemma shr_1_nonneg mrs : (0 <= shr_m mrs)%Z -> (0 <= shr_m (shr_1 mrs))%Z.
Proof.
  destruct mrs as [m r s]. cbn [shr_m]. intros H.
  destruct m as [|[p|p|]|p]; cbn; lia.
Qed.

Lemma iter_pos_invariant {A} (f : A -> A) (Inv : A -> Prop) :
  (forall a, Inv a -> Inv (f a)) ->
  forall n a, Inv a -> Inv (iter_pos f n a).
Proof.
  intros Hf. induction n as [n IH|n IH|]; intros a Ha; cbn [iter_pos]; auto.
Qed.

Lemma shr_nonneg mrs e n :
  (0 <= shr_m mrs)%Z -> (0 <= shr_m (fst (shr mrs e n)))%Z.
Proof.
  intros H. unfold shr. destruct n as [|p|p]; cbn [fst]; try exact H.
  apply (@iter_pos_invariant _ shr_1 (fun r => (0 <= shr_m r)%Z));
    [exact shr_1_nonneg | exact H].
Qed.

Lemma shr_fexp_nonneg prec emax m e l :
  (0 <= m)%Z -> (0 <= shr_m (fst (shr_fexp prec emax m e l)))%Z.
Proof.
  intros H. unfold shr_fexp. apply shr_nonneg.
  destruct l as [|[| |]]; exact H.
Qed.

Lemma round_nearest_even_nonneg m l :
  (0 <= m)%Z -> (0 <= round_nearest_even m l)%Z.
Proof.
  intros H. unfold round_nearest_even.
  destruct l as [|[| |]]; try destruct (Z.even m); lia.
Qed.

(** Rounding a mantissa that is not negative gives a value of the
    requested sign, never a NaN. *)
Lemma binary_round_aux_signed prec emax sx mx ex lx :
  (0 <= mx)%Z -> signedBy sx (binary_round_aux prec emax sx mx ex lx).
Proof.
  intros H. unfold binary_round_aux.
  pose proof (@shr_fexp_nonneg prec emax mx ex lx H) as H1.
  destruct (shr_fexp prec emax mx ex lx) as [mrs' e']. cbn [fst] in H1.
  pose proof (@shr_fexp_nonneg prec emax
                (round_nearest_even (shr_m mrs') (loc_of_shr_record mrs'))
                e' loc_Exact
                (@round_nearest_even_nonneg _ _ H1)) as H2.
  destruct (shr_fexp prec emax _ e' loc_Exact) as [mrs'' e'']. cbn [fst] in H2.
  destruct (shr_m mrs'') as [|m|m]; [reflexivity| |lia].
  destruct (e'' <=? emax - prec)%Z; reflexivity.
Qed.

Lemma binary_round_signed prec emax sx mx ex :
  signedBy sx (binary_round prec emax sx mx ex).
Proof.
  unfold binary_round. destruct (shl_align _ _ _) as [mz ez].
  apply binary_round_aux_signed. lia.
Qed.

Lemma signedBy_nonNegative v : signedBy false v -> nonNegative v = true.
Proof. destruct v as [[]|[]| |[] m e]; cbn; congruence || tauto. Qed.

(** The square of a positive number or infinity. *)
Lemma SFmul_square_nonNegative prec emax v :
  SFltb (S754_zero false) v = true ->
  nonNegative (SFmul prec emax v v) = true.
Proof.
  destruct v as [s|[]| |[] m e]; cbn; try discriminate; intros _;
    try reflexivity.
  apply signedBy_nonNegative.
  exact (@binary_round_aux_signed prec emax false (Z.pos (m * m)) (e + e)
           loc_Exact ltac:(lia)).
Qed.

Lemma SFadd_nonNegative prec emax u v :
  nonNegative u = true -> nonNegative v = true ->
  nonNegative (SFadd prec emax u v) = true.
Proof.
  destruct u as [[]|[]| |[] mx ex]; cbn [nonNegative]; try discriminate;
    destruct v as [[]|[]| |[] my ey]; cbn [nonNegative]; try discriminate;
    intros _ _; try reflexivity.
  cbn [SFadd cond_Zopp Z.add binary_normalize].
  apply signedBy_nonNegative, binary_round_signed.
Qed.

Lemma SFsqrt_nonNegative prec emax v :
  nonNegative v = true -> nonNegative (SFsqrt prec emax v) = true.
Proof.
  destruct v as [[]|[]| |[] m e]; cbn [nonNegative]; try discriminate;
    intros _; try reflexivity.
  cbn [SFsqrt]. unfold SFsqrt_core_binary.
  match goal with
  | |- context [Z.sqrtrem ?n] =>
      assert (Hn : (0 <= n)%Z);
      [|pose proof (Z.sqrtrem_spec n Hn) as Hspec;
        destruct (Z.sqrtrem n) as [q r]]
  end.
  - destruct (e - 2 * _)%Z; try lia. apply Z.shiftl_nonneg. lia.
  - apply signedBy_nonNegative, binary_round_aux_signed. lia.
Qed.

Lemma nonNegative_leb (a : float) :
  nonNegative (Prim2SF a) = true -> (0 <=? a)%float = true.
Proof.
  rewrite leb_spec. change (Prim2SF 0) with (S754_zero false).
  destruct (Prim2SF a) as [[]|[]| |[] m e]; cbn; congruence.
Qed.

Lemma nonNegative_not_nan (a : float) :
  nonNegative (Prim2SF a) = true -> PrimFloat.is_nan a = false.
Proof.
  unfold PrimFloat.is_nan. rewrite eqb_spec.
  destruct (Prim2SF a) as [[]|[]| |[] m e]; cbn; try congruence.
  intros _. unfold SFeqb, SFcompare. rewrite Z.compare_refl.
  now rewrite Pos.compare_cont_refl.
Qed.

(** One [if (d > 0.0) result += d * d] keeps the sum non-negative. *)
Lemma add_square_nonNegative (acc d : float) :
  nonNegative (Prim2SF acc) = true ->
  nonNegative (Prim2SF (if (0 <? d)%float then acc + d * d else acc)%float)
  = true.
Proof.
  intros Hacc. destruct (0 <? d)%float eqn:Hd; [|exact Hacc].
  rewrite ltb_spec in Hd. change (Prim2SF 0) with (S754_zero false) in Hd.
  rewrite add_spec, mul_spec.
  apply SFadd_nonNegative; [exact Hacc|].
  now apply SFmul_square_nonNegative.
Qed.

(** So does the [if ... else if ...] of a horizontal axis. *)
Lemma axis_square_nonNegative (acc a b : float) :
  nonNegative (Prim2SF acc) = true ->
  nonNegative
    (Prim2SF (if (0 <? a)%float then acc + a * a
              else if (0 <? b)%float then acc + b * b else acc)%float)
  = true.
Proof.
  intros Hacc. pose proof (@add_square_nonNegative acc a Hacc) as Ha.
  destruct (0 <? a)%float; [exact Ha|].
  exact (@add_square_nonNegative acc b Hacc).
Qed.

(** *** The value of [getDistanceToTile] *)




(** ** The draw-command pool and the render lists *)

Section SurfaceProviderProperties.

Context {surface : SurfaceCollaborators}.

Lemma replace_length {A} (l : list A) :
  forall i v, List.length (replace l i v) = List.length l.
Proof.
  induction l as [|a l IH]; intros [|i] v; simpl; auto.
Qed.

Lemma replace_nth {A} (l : list A) :
  forall i v, i < List.length l -> nth_error (replace l i v) i = Some v.
Proof.
  induction l as [|a l IH]; intros [|i] v Hi; simpl in *; try lia; auto.
  apply IH. lia.
Qed.

Lemma flattenTiles_app (a b : JSArray.t (list CommandRef)) :
  flattenTiles (a ++ b) = flattenTiles a ++ flattenTiles b.
Proof. unfold flattenTiles. now rewrite map_app, concat_app. Qed.

Lemma flattenTiles_holes (k : nat) :
  flattenTiles (repeat None k) = [].
Proof. induction k as [|k IH]; [reflexivity | exact IH]. Qed.

Lemma flattenTiles_cons o (a : JSArray.t (list CommandRef)) :
  flattenTiles (o :: a)
  = match o with Some tiles => tiles | None => [] end ++ flattenTiles a.
Proof. reflexivity. Qed.

Lemma flattenTiles_at (a : JSArray.t (list CommandRef)) (n : nat) :
  flattenTiles a
  = flattenTiles (firstn n a) ++ tilesAt a n ++ flattenTiles (skipn (S n) a).
Proof.
  unfold tilesAt, JSArray.get. revert n.
  induction a as [|o a IH]; intros n.
  - destruct n; reflexivity.
  - destruct n as [|n].
    + rewrite flattenTiles_cons. reflexivity.
    + cbn [firstn skipn nth_error]. rewrite !flattenTiles_cons.
      rewrite (IH n) at 1. now rewrite <- app_assoc.
Qed.

Lemma flattenTiles_set (a : JSArray.t (list CommandRef)) (n : nat) v :
  flattenTiles (JSArray.set a n v)
  = flattenTiles (firstn n a) ++ v ++ flattenTiles (skipn (S n) a).
Proof.
  unfold JSArray.set. rewrite !flattenTiles_app, flattenTiles_holes.
  change (flattenTiles (Some v :: skipn (S n) a))
    with (v ++ flattenTiles (skipn (S n) a)).
  reflexivity.
Qed.

Lemma get_set_same {A} (a : JSArray.t A) (n : nat) (v : A) :
  JSArray.get (JSArray.set a n v) n = Some v.
Proof.
  unfold JSArray.get, JSArray.set.
  rewrite app_assoc, nth_error_app2;
    rewrite length_app, length_firstn, repeat_length; [|lia].
  replace (n - (Nat.min n (List.length a) + (n - List.length a))) with 0 by lia.
  reflexivity.
Qed.

(** Pushing a command on the list of a texture count inserts it in
    what [endFrame] emits and leaves the other commands in place. *)
Lemma pushTileToRender_flatten (a : JSArray.t (list CommandRef)) n command :
  exists l1 l2,
    flattenTiles a = l1 ++ l2 /\
    flattenTiles (pushTileToRender a n command) = l1 ++ command :: l2.
Proof.
  exists (flattenTiles (firstn n a) ++ tilesAt a n),
         (flattenTiles (skipn (S n) a)).
  split.
  - rewrite <- app_assoc. apply flattenTiles_at.
  - unfold pushTileToRender, tilesAt.
    destruct (JSArray.get a n) as [tiles|];
      rewrite flattenTiles_set, <- !app_assoc; reflexivity.
Qed.

Lemma pushTileToRender_at (a : JSArray.t (list CommandRef)) n command :
  JSArray.get (pushTileToRender a n command) n
  = Some (tilesAt a n ++ [command]).
Proof.
  unfold pushTileToRender, tilesAt.
  destruct (JSArray.get a n) as [tiles|]; apply get_set_same.
Qed.

Lemma endFrame_flatten (p : Provider) (commandList : list CommandRef) :
  endFrame p commandList
  = commandList ++ flattenTiles (_tilesToRenderByTextureCount p).
Proof.
  unfold endFrame. generalize (_tilesToRenderByTextureCount p) as a.
  intros a. revert commandList.
  induction a as [|o a IH]; intros commandList; simpl.
  - now rewrite app_nil_r.
  - rewrite IH. destruct o as [tiles|].
    + change (flattenTiles (Some tiles :: a)) with (tiles ++ flattenTiles a).
      now rewrite app_assoc.
    + reflexivity.
Qed.

Lemma clearTilesToRender_flatten (a : JSArray.t (list CommandRef)) :
  flattenTiles (clearTilesToRender a) = [].
Proof.
  induction a as [|o a IH]; [reflexivity|].
  unfold clearTilesToRender in *. simpl.
  destruct o; exact IH.
Qed.

(** *** The inner loop *)

Lemma dayTextureLoop_lengths maxTextures tile frameState rest :
  forall d,
    let '(_, seen, rest') :=
      dayTextureLoop maxTextures tile frameState rest d in
    List.length seen + List.length rest' = List.length rest.
Proof.
  induction rest as [|t rest IH]; intros d; cbn [dayTextureLoop];
    [reflexivity|].
  destruct (dayCount d <? maxTextures); [|cbn [List.length]; lia].
  destruct (usableImagery t) as [imagery|].
  - destruct (addDayTexture tile frameState t imagery d) as [t' d'].
    specialize (IH d').
    destruct (dayTextureLoop maxTextures tile frameState rest d')
      as [[d'' seen] rest'].
    cbn [List.length]. lia.
  - specialize (IH d).
    destruct (dayTextureLoop maxTextures tile frameState rest d)
      as [[d'' seen] rest'].
    cbn [List.length]. lia.
Qed.

(** With a texture unit available the loop passes over at least one
    entry. *)
Lemma dayTextureLoop_progress maxTextures tile frameState t rest d :
  dayCount d < maxTextures ->
  let '(_, _, rest') :=
    dayTextureLoop maxTextures tile frameState (t :: rest) d in
  List.length rest' <= List.length rest.
Proof.
  intros Hlt. cbn [dayTextureLoop].
  destruct (Nat.ltb_spec (dayCount d) maxTextures); [|lia].
  destruct (usableImagery t) as [imagery|].
  - destruct (addDayTexture tile frameState t imagery d) as [t' d'].
    pose proof (@dayTextureLoop_lengths maxTextures tile frameState rest d') as H'.
    destruct (dayTextureLoop maxTextures tile frameState rest d')
      as [[d'' seen] rest'].
    lia.
  - pose proof (@dayTextureLoop_lengths maxTextures tile frameState rest d) as H'.
    destruct (dayTextureLoop maxTextures tile frameState rest d)
      as [[d'' seen] rest'].
    lia.
Qed.

(** Entries without usable imagery are passed over without touching
    the loop variables. *)
Lemma dayTextureLoop_none_usable maxTextures tile frameState rest d :
  dayCount d < maxTextures ->
  Forall (fun t => usableImagery t = None) rest ->
  dayTextureLoop maxTextures tile frameState rest d = (d, rest, []).
Proof.
  intros Hlt Hnone. induction Hnone as [|t rest Ht Hrest IH];
    cbn [dayTextureLoop].
  - reflexivity.
  - destruct (Nat.ltb_spec (dayCount d) maxTextures); [|lia].
    now rewrite Ht, IH.
Qed.

(** *** One pass of the render loop *)

Lemma claimCommand_spec (p : Provider) (tile : TileRef) :
  poolInvariant p ->
  exists p1,
    claimCommand p tile
    = Some (_usedDrawCommands p, _usedDrawCommands p, p1) /\
    _usedDrawCommands p1 = S (_usedDrawCommands p) /\
    _tilesToRenderByTextureCount p1 = _tilesToRenderByTextureCount p /\
    _debug_boundingSphereTile p1 = _debug_boundingSphereTile p /\
    List.length (_drawCommands p1)
    = Nat.max (List.length (_drawCommands p)) (S (_usedDrawCommands p)) /\
    List.length (_uniformMaps p1) = List.length (_drawCommands p1).
Proof.
  intros (Hmaps & Hused & _). unfold claimCommand.
  destruct (Nat.leb_spec (List.length (_drawCommands p)) (_usedDrawCommands p))
    as [Hle|Hlt].
  - assert (Heq : List.length (_drawCommands p) = _usedDrawCommands p) by lia.
    rewrite Hmaps, Heq. eexists. split; [reflexivity|].
    cbn. rewrite !length_app. cbn. repeat split; lia.
  - destruct (nth_error (_uniformMaps p) (_usedDrawCommands p)) eqn:Hnth.
    + eexists. split; [reflexivity|]. cbn. repeat split; lia.
    + apply nth_error_None in Hnth. lia.
Qed.

(** What one pass of the [do] loop does to a provider that satisfies
    the pool invariant: it claims the command at position
    [_usedDrawCommands], allocating it when the pool ends there,
    and pushes it on the list of the number of textures gathered. *)
Lemma renderPass_spec (p : Provider) (context : Context)
      (frameState : FrameState) (tile : TileRef) (credits : list Credit)
      (rest : list TileImagery) :
  poolInvariant p ->
  exists p' credits' seen rest' d0 d,
    renderPass p context frameState tile credits rest
    = Normal (p', credits', seen, rest') /\
    dayCount d0 = 0 /\
    dayTextureLoop (maximumTextureImageUnits context) tile frameState rest d0
    = (d, seen, rest') /\
    poolInvariant p' /\
    _usedDrawCommands p' = S (_usedDrawCommands p) /\
    List.length (_drawCommands p')
    = Nat.max (List.length (_drawCommands p)) (S (_usedDrawCommands p)) /\
    _tilesToRenderByTextureCount p'
    = pushTileToRender (_tilesToRenderByTextureCount p) (dayCount d)
                       (_usedDrawCommands p) /\
    exists command,
      nth_error (_drawCommands p') (_usedDrawCommands p) = Some command /\
      owner command = Some tile /\
      shaderProgram command
      = Some {| numberOfDayTextures := dayCount d;
                applyBrightness := brightnessFlag d;
                applyContrast := contrastFlag d;
                applyHue := hueFlag d;
                applySaturation := saturationFlag d;
                applyGamma := gammaFlag d;
                applyAlpha := alphaFlag d |}.
Proof.
  intros Hinv.
  destruct (claimCommand_spec tile Hinv)
    as (p1 & Hclaim & Hused1 & Hlists1 & Hdebug1 & Hlen1 & Hmaps1).
  destruct Hinv as (Hmaps & Hused & Hrefs).
  unfold renderPass. rewrite Hclaim.
  destruct (nth_error (_uniformMaps p1) (_usedDrawCommands p)) as [u|] eqn:Hu;
    [|apply nth_error_None in Hu; lia].
  match goal with
  | |- context [dayTextureLoop ?m ?t ?f ?r ?d0] =>
      set (start := d0); destruct (dayTextureLoop m t f r start)
        as [[d seen] rest'] eqn:Hloop
  end.
  do 4 eexists. exists start, d.
  split; [reflexivity|]. split; [reflexivity|]. split; [exact Hloop|].
  unfold poolInvariant.
  cbn [_usedDrawCommands _drawCommands _uniformMaps
       _tilesToRenderByTextureCount set_pool set_tilesToRender].
  rewrite !replace_length, Hlists1.
  split; [|split; [exact Hused1|split; [exact Hlen1|split; [reflexivity|]]]].
  - split; [exact Hmaps1|]. split; [lia|].
    destruct (pushTileToRender_flatten (_tilesToRenderByTextureCount p)
                (dayCount d) (_usedDrawCommands p)) as (l1 & l2 & H1 & H2).
    rewrite H2, Hused1. rewrite H1 in Hrefs.
    apply Forall_app in Hrefs. destruct Hrefs as [Hl1 Hl2].
    apply Forall_app. split; [|constructor; [lia|]];
      (eapply Forall_impl; [|eassumption]); cbv beta; intros; lia.
  - eexists. split; [apply replace_nth; lia|]. split; reflexivity.
Qed.

(** *** The render loop *)

(** What the render lists hold, counted. *)
Lemma renderPass_emits (p p' : Provider) n :
  _tilesToRenderByTextureCount p'
  = pushTileToRender (_tilesToRenderByTextureCount p) n (_usedDrawCommands p) ->
  List.length (flattenTiles (_tilesToRenderByTextureCount p'))
  = S (List.length (flattenTiles (_tilesToRenderByTextureCount p))).
Proof.
  intros ->.
  destruct (pushTileToRender_flatten (_tilesToRenderByTextureCount p) n
              (_usedDrawCommands p)) as (l1 & l2 & H1 & H2).
  rewrite H1, H2, !length_app. simpl. lia.
Qed.

Lemma renderLoop_correct context frameState tile (fuel : nat) :
  forall p credits seen rest p' credits' collection,
    poolInvariant p ->
    renderLoop fuel p context frameState tile credits seen rest
    = Some (Normal (p', credits', collection)) ->
    _usedDrawCommands p < _usedDrawCommands p' /\ claimed p p'.
Proof.
  induction fuel as [|fuel IH];
    intros p credits seen rest p' credits' collection Hinv Hrun;
    [discriminate|].
  cbn [renderLoop] in Hrun.
  destruct (renderPass_spec context frameState tile credits rest Hinv)
    as (p1 & credits1 & seen1 & rest1 & d0 & d & Hpass & _ & _ & Hinv1
        & Hused1 & Hlen1 & Hlists1 & _).
  rewrite Hpass in Hrun.
  pose proof (@renderPass_emits p p1 _ Hlists1) as Hemit.
  destruct rest1 as [|t rest1].
  - injection Hrun as <- _ _. unfold claimed.
    rewrite Hused1, Hlen1, Hemit.
    split; [lia|]. split; [exact Hinv1|]. split; lia.
  - destruct (IH _ _ _ _ _ _ _ Hinv1 Hrun) as (Hlt & Hinv' & Hlen' & Hemit').
    unfold claimed. rewrite Hlen', Hemit', Hlen1, Hemit.
    split; [lia|]. split; [exact Hinv'|]. split; lia.
Qed.

Lemma renderLoop_total context frameState tile (fuel : nat) :
  0 < maximumTextureImageUnits context ->
  forall p credits seen rest,
    poolInvariant p ->
    List.length rest < fuel ->
    exists p' credits' collection,
      renderLoop fuel p context frameState tile credits seen rest
      = Some (Normal (p', credits', collection)).
Proof.
  intros Hunits. induction fuel as [|fuel IH];
    intros p credits seen rest Hinv Hfuel; [lia|].
  cbn [renderLoop].
  destruct (renderPass_spec context frameState tile credits rest Hinv)
    as (p1 & credits1 & seen1 & rest1 & d0 & d & Hpass & Hd0 & Hloop & Hinv1 & _).
  rewrite Hpass.
  destruct rest1 as [|t1 rest1]; [now do 3 eexists|].
  apply IH; [exact Hinv1|].
  destruct rest as [|t rest]; [discriminate|].
  pose proof (@dayTextureLoop_progress (maximumTextureImageUnits context)
                tile frameState t rest d0) as Hprogress.
  rewrite Hloop in Hprogress. cbn [List.length] in *.
  specialize (Hprogress ltac:(lia)). lia.
Qed.

(** A tile none of whose entries has usable imagery takes one pass,
    which gathers no texture. *)
Lemma renderLoop_none_usable context frameState tile (fuel : nat) :
  0 < maximumTextureImageUnits context ->
  forall p credits seen rest,
    poolInvariant p ->
    Forall (fun t => usableImagery t = None) rest ->
    exists p' credits' collection,
      renderLoop (S fuel) p context frameState tile credits seen rest
      = Some (Normal (p', credits', collection)) /\
      _usedDrawCommands p' = S (_usedDrawCommands p) /\
      _tilesToRenderByTextureCount p'
      = pushTileToRender (_tilesToRenderByTextureCount p) 0
                         (_usedDrawCommands p) /\
      exists command,
        nth_error (_drawCommands p') (_usedDrawCommands p) = Some command /\
        owner command = Some tile /\
        option_map numberOfDayTextures (shaderProgram command) = Some 0.
Proof.
  intros Hunits p credits seen rest Hinv Hnone.
  cbn [renderLoop].
  destruct (renderPass_spec context frameState tile credits rest Hinv)
    as (p1 & credits1 & seen1 & rest1 & d0 & d & Hpass & Hd0 & Hloop & Hinv1
        & Hused1 & Hlen1 & Hlists1 & command & Hcommand & Howner & Hshader).
  rewrite Hpass.
  rewrite dayTextureLoop_none_usable in Hloop by (assumption || lia).
  injection Hloop as <- <- <-.
  do 3 eexists. split; [reflexivity|]. split; [exact Hused1|].
  split; [now rewrite Hlists1, Hd0|].
  exists command. split; [exact Hcommand|]. split; [exact Howner|].
  now rewrite Hshader, Hd0.
Qed.

Lemma renderTile_correct p tile context frameState credits p' credits' tile' :
  poolInvariant p ->
  renderTile p tile context frameState credits
  = Some (Normal (p', credits', tile')) ->
  _usedDrawCommands p < _usedDrawCommands p' /\ claimed p p'.
Proof.
  intros Hinv Hrun. unfold renderTile in Hrun.
  destruct (renderLoop (S (List.length (imagery tile))) p context frameState
              (tileId tile) credits [] (imagery tile))
    as [[[[p1 credits1] collection]|e]|] eqn:Hloop; try discriminate.
  injection Hrun as <- _ _.
  eapply renderLoop_correct; eassumption.
Qed.

Lemma renderTile_total p tile context frameState credits :
  poolInvariant p ->
  0 < maximumTextureImageUnits context ->
  exists p' credits' tile',
    renderTile p tile context frameState credits
    = Some (Normal (p', credits', tile')).
Proof.
  intros Hinv Hunits. unfold renderTile.
  destruct (@renderLoop_total context frameState (tileId tile)
              (S (List.length (imagery tile))) Hunits p credits []
              (imagery tile) Hinv) as (p' & credits' & collection & Hrun);
    [lia|].
  rewrite Hrun. now do 3 eexists.
Qed.

(** *** Frames *)

Lemma claimed_refl p : poolInvariant p -> claimed p p.
Proof.
  intros Hinv. unfold claimed. split; [exact Hinv|].
  destruct Hinv as (_ & Hused & _). split; lia.
Qed.

Lemma renderTiles_correct context frameState (tiles : list QuadtreeTile) :
  forall p credits p' credits',
    poolInvariant p ->
    renderTiles p tiles context frameState credits = Some (p', credits') ->
    _usedDrawCommands p <= _usedDrawCommands p' /\ claimed p p'.
Proof.
  induction tiles as [|tile tiles IH]; intros p credits p' credits' Hinv Hrun;
    cbn [renderTiles] in Hrun.
  - injection Hrun as <- _. split; [lia|]. now apply claimed_refl.
  - destruct (renderTile p tile context frameState credits)
      as [[[[p1 credits1] tile1]|e]|] eqn:Htile; try discriminate.
    destruct (@renderTile_correct _ _ _ _ _ _ _ _ Hinv Htile)
      as (Hlt & Hinv1 & Hlen1 & Hemit1).
    destruct (IH _ _ _ _ Hinv1 Hrun) as (Hle & Hinv' & Hlen' & Hemit').
    unfold claimed. split; [lia|]. split; [exact Hinv'|]. split; lia.
Qed.

Lemma renderTiles_total context frameState (tiles : list QuadtreeTile) :
  0 < maximumTextureImageUnits context ->
  forall p credits,
    poolInvariant p ->
    exists p' credits',
      renderTiles p tiles context frameState credits = Some (p', credits').
Proof.
  intros Hunits. induction tiles as [|tile tiles IH]; intros p credits Hinv;
    cbn [renderTiles]; [now do 2 eexists|].
  destruct (@renderTile_total p tile context frameState credits Hinv Hunits)
    as (p1 & credits1 & tile1 & Htile).
  rewrite Htile. apply IH.
  now destruct (@renderTile_correct _ _ _ _ _ _ _ _ Hinv Htile) as (_ & Hinv1 & _).
Qed.

Lemma poolInvariant_new : poolInvariant newProvider.
Proof. split; [reflexivity|]. split; [apply le_n | constructor]. Qed.

Lemma beginFrame_pool (p : Provider) :
  let p' := fst (beginFrame p) in
  _drawCommands p' = _drawCommands p /\
  _uniformMaps p' = _uniformMaps p /\
  _usedDrawCommands p' = 0 /\
  flattenTiles (_tilesToRenderByTextureCount p') = [].
Proof.
  unfold beginFrame. destruct (_layerOrderChanged p); cbn;
    (split; [reflexivity|]; split; [reflexivity|]; split; [reflexivity|]);
    apply clearTilesToRender_flatten.
Qed.

Lemma beginFrame_invariant (p : Provider) :
  poolInvariant p -> poolInvariant (fst (beginFrame p)).
Proof.
  intros (Hmaps & Hused & _).
  destruct (beginFrame_pool p) as (Hc & Hm & Hu & Hf).
  cbv zeta in *. unfold poolInvariant. rewrite Hc, Hm, Hu, Hf.
  split; [exact Hmaps|]. split; [lia | constructor].
Qed.

(** A frame leaves the pool as long as the larger of its former length
    and the number of commands the frame used, and [endFrame] emits
    exactly the commands used, all of them below the usage counter. *)
Lemma renderFrame_correct p tiles context frameState p' :
  poolInvariant p ->
  renderFrame p tiles context frameState = Some p' ->
  poolInvariant p' /\
  List.length (_drawCommands p')
  = Nat.max (List.length (_drawCommands p)) (_usedDrawCommands p') /\
  List.length (_uniformMaps p') = List.length (_drawCommands p') /\
  List.length (endFrame p' []) = _usedDrawCommands p' /\
  Forall (fun command => command < _usedDrawCommands p') (endFrame p' []).
Proof.
  intros Hinv Hframe. unfold renderFrame in Hframe.
  destruct (renderTiles (fst (beginFrame p)) tiles context frameState [])
    as [[p1 credits1]|] eqn:Htiles; [|discriminate].
  injection Hframe as <-.
  destruct (@renderTiles_correct _ _ _ _ _ _ _ (@beginFrame_invariant _ Hinv) Htiles)
    as (_ & Hinv' & Hlen & Hemit).
  destruct (beginFrame_pool p) as (Hc & _ & Hu & Hf).
  cbv zeta in *. rewrite Hc, Hu, Hf in *.
  rewrite endFrame_flatten. cbn [app List.length] in *.
  split; [exact Hinv'|]. split; [exact Hlen|].
  destruct Hinv' as (Hmaps & _ & Hrefs).
  split; [exact Hmaps|]. split; [lia | exact Hrefs].
Qed.

(** *** Removing an imagery layer *)

Lemma takeWhile_dropWhile {A} (f : A -> bool) (l : list A) :
  takeWhile f l ++ dropWhile f l = l.
Proof.
  induction l as [|a l IH]; simpl; [reflexivity|].
  destruct (f a); simpl; [now rewrite IH | reflexivity].
Qed.

Lemma takeWhile_all {A} (f : A -> bool) (l : list A) :
  Forall (fun a => f a = true) (takeWhile f l).
Proof.
  induction l as [|a l IH]; simpl; [constructor|].
  destruct (f a) eqn:Hf; now constructor.
Qed.

Lemma dropWhile_head {A} (f : A -> bool) (l : list A) a rest :
  dropWhile f l = a :: rest -> f a = false.
Proof.
  induction l as [|b l IH]; simpl; [discriminate|].
  destruct (f b) eqn:Hf; [exact IH|]. now intros [= <- _].
Qed.

Lemma filter_all {A} (f : A -> bool) (l : list A) :
  Forall (fun a => f a = true) l -> filter f l = l.
Proof.
  induction 1 as [|a l Ha _ IH]; simpl; [reflexivity|].
  now rewrite Ha, IH.
Qed.

Lemma filter_none {A} (f : A -> bool) (l : list A) :
  Forall (fun a => f a = false) l -> filter f l = [].
Proof.
  induction 1 as [|a l Ha _ IH]; simpl; [reflexivity|].
  now rewrite Ha, IH.
Qed.

Lemma splice_run {A} (pre run post : list A) :
  splice (pre ++ run ++ post) (List.length pre) (List.length run)
  = pre ++ post.
Proof.
  unfold splice.
  rewrite firstn_app, firstn_all, Nat.sub_diag, firstn_O, app_nil_r.
  rewrite app_assoc, skipn_app.
  rewrite length_app, Nat.sub_diag, skipn_O.
  rewrite <- length_app, skipn_all. reflexivity.
Qed.

(** The imagery the loop reads from an entry is the one that names
    its layer. *)
Lemma removalLoop_imagery (t : TileImagery) :
  option_map imageryLayer
    (match loadingImagery t with
     | Some imagery => Some imagery
     | None => readyImagery t
     end)
  = tileImageryLayer t.
Proof. unfold tileImageryLayer. now destruct (loadingImagery t). Qed.

(** Once the first entry of the layer has been met, the loop frees the
    entries of the layer that follow and stops at the first entry of
    another layer. *)
Lemma removalLoop_started (layer : LayerRef) (rest : list TileImagery) :
  forall i startIndex numDestroyed freed,
    startIndex <> (-1)%Z ->
    Forall hasImagery rest ->
    removalLoop layer rest i startIndex numDestroyed freed
    = ((startIndex,
        numDestroyed + List.length (takeWhile (belongsTo layer) rest),
        freed ++ takeWhile (belongsTo layer) rest), Normal tt).
Proof.
  induction rest as [|t rest IH]; intros i s n freed Hs Hall;
    cbn [removalLoop takeWhile].
  - now rewrite Nat.add_0_r, app_nil_r.
  - inversion Hall as [|? ? Ht Hrest]; subst.
    pose proof (removalLoop_imagery t) as Himagery.
    unfold hasImagery in Ht.
    destruct (match loadingImagery t with
              | Some imagery => Some imagery
              | None => readyImagery t
              end) as [imagery|]; cbn [option_map] in Himagery;
      [|congruence].
    assert (Hb : belongsTo layer t = Nat.eqb (imageryLayer imagery) layer)
      by (unfold belongsTo; now rewrite <- Himagery).
    rewrite Hb. apply Z.eqb_neq in Hs. rewrite Hs.
    destruct (Nat.eqb (imageryLayer imagery) layer).
    + rewrite IH by (try apply Z.eqb_neq; assumption).
      cbn [List.length]. rewrite <- app_assoc. cbn [app].
      do 3 f_equal. lia.
    + cbn [negb List.length]. now rewrite Nat.add_0_r, app_nil_r.
Qed.

(** Before that, the loop skips the entries of other layers. *)
Lemma removalLoop_searching (layer : LayerRef) (rest : list TileImagery) :
  forall i freed,
    Forall hasImagery rest ->
    removalLoop layer rest i (-1) 0 freed
    = match dropWhile (fun t => negb (belongsTo layer t)) rest with
      | [] => (((-1)%Z, 0, freed), Normal tt)
      | found =>
          ((Z.of_nat
              (i + List.length
                     (takeWhile (fun t => negb (belongsTo layer t)) rest)),
            List.length (takeWhile (belongsTo layer) found),
            freed ++ takeWhile (belongsTo layer) found), Normal tt)
      end.
Proof.
  induction rest as [|t rest IH]; intros i freed Hall;
    cbn [removalLoop takeWhile dropWhile]; [reflexivity|].
  inversion Hall as [|? ? Ht Hrest]; subst.
  pose proof (removalLoop_imagery t) as Himagery.
  unfold hasImagery in Ht.
  destruct (match loadingImagery t with
            | Some imagery => Some imagery
            | None => readyImagery t
            end) as [imagery|] eqn:Hread; cbn [option_map] in Himagery;
    [|congruence].
  assert (Hb : belongsTo layer t = Nat.eqb (imageryLayer imagery) layer)
    by (unfold belongsTo; now rewrite <- Himagery).
  rewrite Hb.
  destruct (Nat.eqb (imageryLayer imagery) layer) eqn:Hlayer; cbn [negb].
  - cbn [Z.eqb Pos.eqb]. rewrite removalLoop_started by (lia || assumption).
    cbn [takeWhile]. rewrite Hb.
    cbn [List.length]. rewrite <- app_assoc. cbn [app].
    now rewrite Nat.add_0_r.
  - cbn [Z.eqb Pos.eqb negb]. rewrite IH by assumption.
    destruct (dropWhile (fun t0 => negb (belongsTo layer t0)) rest);
      [reflexivity|].
    cbn [List.length]. now rewrite Nat.add_succ_r.
Qed.

Lemma StronglySorted_app_inv {A} (R : A -> A -> Prop) (l1 l2 : list A) :
  StronglySorted R (l1 ++ l2) ->
  StronglySorted R l2 /\ forall a b, In a l1 -> In b l2 -> R a b.
Proof.
  induction l1 as [|x l1 IH]; simpl; intros Hs.
  - split; [exact Hs | contradiction].
  - apply StronglySorted_inv in Hs. destruct Hs as [Hs Hx].
    destruct (IH Hs) as [H2 H12]. split; [exact H2|].
    intros a b [<-|Ha] Hb.
    + rewrite Forall_forall in Hx. apply Hx, in_or_app. now right.
    + now apply H12.
Qed.

Lemma belongsTo_index (index : LayerRef -> Z) layer t :
  belongsTo layer t = true -> entryIndex index t = index layer.
Proof.
  unfold belongsTo, entryIndex. destruct (tileImageryLayer t); [|discriminate].
  intros H. apply Nat.eqb_eq in H. now subst.
Qed.

(** In a collection sorted by layer index, no entry of the layer
    follows the first entry of another layer that comes after it. *)
Lemma sorted_run_is_whole (index : LayerRef -> Z) (layer : LayerRef)
      (pre run post : list TileImagery) (x : TileImagery) :
  let l := pre ++ (x :: run) ++ post in
  Sorted Z.le (map (entryIndex index) l) ->
  (forall t, In t l -> entryIndex index t = index layer ->
             belongsTo layer t = true) ->
  belongsTo layer x = true ->
  (forall h post', post = h :: post' -> belongsTo layer h = false) ->
  Forall (fun t => belongsTo layer t = false) post.
Proof.
  intros l Hsorted Hties Hx Hhead.
  destruct post as [|h post']; [constructor|].
  assert (Hh : belongsTo layer h = false) by now apply (Hhead h post').
  apply Sorted_StronglySorted in Hsorted;
    [|intros a b c; apply Z.le_trans].
  unfold l in Hsorted. rewrite !map_app in Hsorted.
  apply StronglySorted_app_inv in Hsorted. destruct Hsorted as [Hsorted _].
  apply StronglySorted_app_inv in Hsorted.
  destruct Hsorted as [Hpost Hcross].
  assert (Hxh : (entryIndex index x <= entryIndex index h)%Z)
    by (apply Hcross; simpl; auto).
  cbn [map] in Hpost. apply StronglySorted_inv in Hpost.
  destruct Hpost as [_ Hafter]. rewrite Forall_forall in Hafter.
  constructor; [exact Hh|]. apply Forall_forall. intros e He.
  destruct (belongsTo layer e) eqn:Hbe; [|reflexivity].
  assert (Hhe : (entryIndex index h <= entryIndex index e)%Z)
    by (apply Hafter, in_map, He).
  rewrite (belongsTo_index index _ _ Hbe) in Hhe.
  rewrite (belongsTo_index index _ _ Hx) in Hxh.
  assert (Hin : In h l)
    by (unfold l; apply in_or_app; right; apply in_or_app; right; now left).
  rewrite (Hties h Hin) in Hh by lia. discriminate.
Qed.

(** C8.  On a loaded tile whose entries all have an imagery and are
    sorted by ascending layer index, where an entry with the index of
    the removed layer is an entry of that layer, the callback of
    [_onLayerRemoved] returns normally and leaves in the collection
    exactly the entries of the other layers, in their order; it has
    called [freeResources] on exactly the entries of the removed
    layer; and it has set [isRenderable] to [false] when the removed
    layer is the base layer, leaving it as it was otherwise. *)
Theorem onLayerRemoved_removes_the_layer_run
    (index : LayerRef -> Z) (layer : LayerRef) (tile : QuadtreeTile) :
  Forall hasImagery (imagery tile) ->
  Sorted Z.le (map (entryIndex index) (imagery tile)) ->
  (forall t, In t (imagery tile) -> entryIndex index t = index layer ->
             belongsTo layer t = true) ->
  onLayerRemoved_tile layer tile
  = (({| tileId := tileId tile;
         imagery := filter (fun t => negb (belongsTo layer t)) (imagery tile);
         isRenderable :=
           if _isBaseLayer (layers layer) then false else isRenderable tile |},
      filter (belongsTo layer) (imagery tile)),
     Normal tt).
Proof.
  intros Hall Hsorted Hties. unfold onLayerRemoved_tile.
  rewrite removalLoop_searching by exact Hall.
  set (other := fun t => negb (belongsTo layer t)).
  pose proof (takeWhile_dropWhile other (imagery tile)) as Hsplit.
  pose proof (takeWhile_all other (imagery tile)) as Hpre.
  assert (Hpre' : Forall (fun t => belongsTo layer t = false)
                         (takeWhile other (imagery tile))).
  { eapply Forall_impl; [|exact Hpre]. unfold other. cbv beta.
    intros t Ht. now destruct (belongsTo layer t). }
  destruct (dropWhile other (imagery tile)) as [|x found] eqn:Hfound.
  - rewrite app_nil_r in Hsplit. rewrite Hsplit in Hpre, Hpre'.
    cbn [Z.eqb negb]. rewrite (filter_all _ Hpre), (filter_none _ Hpre').
    reflexivity.
  - assert (Hx : belongsTo layer x = true).
    { apply dropWhile_head in Hfound. unfold other in Hfound.
      now destruct (belongsTo layer x). }
    pose proof (takeWhile_dropWhile (belongsTo layer) (x :: found)) as Hsplit2.
    pose proof (takeWhile_all (belongsTo layer) (x :: found)) as Hrun.
    cbn [takeWhile dropWhile] in *. rewrite Hx in *.
    set (pre := takeWhile other (imagery tile)) in *.
    set (run := takeWhile (belongsTo layer) found) in *.
    set (post := dropWhile (belongsTo layer) found) in *.
    assert (Hl : imagery tile = pre ++ (x :: run) ++ post)
      by (rewrite Hsplit2; symmetry; exact Hsplit).
    assert (Hpost : Forall (fun t => belongsTo layer t = false) post).
    { apply (@sorted_run_is_whole index layer pre run post x);
        try (rewrite <- Hl; assumption); [exact Hx|].
      intros h post' Hpost. unfold post in Hpost.
      now apply dropWhile_head in Hpost. }
    assert (Hpost' : Forall (fun t => other t = true) post).
    { eapply Forall_impl; [|exact Hpost]. unfold other. cbv beta.
      now intros t ->. }
    assert (Hrun' : Forall (fun t => other t = false) (x :: run)).
    { eapply Forall_impl; [|exact Hrun]. unfold other. cbv beta.
      now intros t ->. }
    replace (negb (Z.of_nat (0 + List.length pre) =? -1)%Z) with true
      by (symmetry; apply negb_true_iff, Z.eqb_neq; lia).
    rewrite Nat2Z.id. cbn [Nat.add].
    rewrite Hl at 1.
    change (S (List.length run)) with (List.length (x :: run)).
    rewrite splice_run.
    rewrite Hl, !filter_app.
    rewrite (filter_all _ Hpre), (filter_none _ Hrun'), (filter_all _ Hpost').
    rewrite (filter_none _ Hpre'), (filter_all _ Hrun), (filter_none _ Hpost).
    now rewrite app_nil_r.
Qed.

(** Every state the provider can reach satisfies the pool invariant. *)
Lemma reachable_poolInvariant (p : Provider) :
  reachable p -> poolInvariant p.
Proof.
  induction 1 as [|p _ IH|p tile context frameState credits p' credits' tile'
                    _ IH Hrun|p _ IH].
  - apply poolInvariant_new.
  - now apply beginFrame_invariant.
  - now destruct (@renderTile_correct _ _ _ _ _ _ _ _ IH Hrun) as (_ & Hinv & _).
  - exact IH.
Qed.

(** *** The claims about the pool *)

(** C10.  On a provider that satisfies the pool invariant and with at
    least one texture unit, [renderTile] returns normally, claims at
    least one pool slot, and adds to the render lists one command per
    slot claimed, so [endFrame] emits at least one command more.
    When no entry of the tile passes the test of the inner loop (the
    collection is empty, or no entry has ready imagery of non-zero
    alpha), the loop runs exactly once: the counter is incremented by
    one, and the command at the claimed position, owned by the tile
    and with zero day textures, is appended to the list of texture
    count [0]. *)
Theorem renderTile_emits_a_command
    (p : Provider) (tile : QuadtreeTile) (context : Context)
    (frameState : FrameState) (credits : list Credit) :
  poolInvariant p ->
  0 < maximumTextureImageUnits context ->
  (exists p' credits' tile',
     renderTile p tile context frameState credits
     = Some (Normal (p', credits', tile')) /\
     _usedDrawCommands p < _usedDrawCommands p' /\
     List.length (endFrame p' [])
     = List.length (endFrame p [])
       + (_usedDrawCommands p' - _usedDrawCommands p))
  /\
  (Forall (fun t => usableImagery t = None) (imagery tile) ->
   exists p' credits' tile' command,
     renderTile p tile context frameState credits
     = Some (Normal (p', credits', tile')) /\
     _usedDrawCommands p' = S (_usedDrawCommands p) /\
     JSArray.get (_tilesToRenderByTextureCount p') 0
     = Some (tilesAt (_tilesToRenderByTextureCount p) 0
             ++ [_usedDrawCommands p]) /\
     List.length (endFrame p' []) = S (List.length (endFrame p [])) /\
     nth_error (_drawCommands p') (_usedDrawCommands p) = Some command /\
     owner command = Some (tileId tile) /\
     option_map numberOfDayTextures (shaderProgram command) = Some 0).
Proof.
  intros Hinv Hunits. split.
  - destruct (@renderTile_total p tile context frameState credits Hinv Hunits)
      as (p' & credits' & tile' & Hrun).
    exists p', credits', tile'. split; [exact Hrun|].
    destruct (@renderTile_correct _ _ _ _ _ _ _ _ Hinv Hrun)
      as (Hlt & _ & _ & Hemit).
    split; [exact Hlt|]. rewrite !endFrame_flatten. exact Hemit.
  - intros Hnone.
    destruct (@renderLoop_none_usable context frameState (tileId tile)
                (List.length (imagery tile)) Hunits p credits []
                (imagery tile) Hinv Hnone)
      as (p1 & credits1 & collection & Hloop & Hused & Hlists
          & command & Hcommand & Howner & Hshader).
    unfold renderTile. rewrite Hloop.
    exists p1, credits1. eexists. exists command.
    split; [reflexivity|]. split; [exact Hused|].
    split; [rewrite Hlists; apply pushTileToRender_at|].
    split; [|now split; [|split]].
    rewrite !endFrame_flatten. cbn [app].
    exact (@renderPass_emits p p1 0 Hlists).
Qed.

(** C5.  The pool never shrinks and grows only to the high-water mark
    of the commands in use.  [beginFrame] leaves both pool arrays as
    they are and resets the usage counter (and empties the render
    lists).  A frame, on a provider that satisfies the pool invariant,
    always completes when there is a texture unit, and it leaves the
    pool exactly as long as the larger of its former length and the
    number of commands the frame used; [endFrame] then emits as many
    commands as were used, each at a pool position below the usage
    counter.  Hence, over three frames that use 2, 5 and 1 commands,
    the pool holds at least 5 commands after the second frame and the
    third frame allocates nothing and emits one command, the one at
    position [0]. *)
Theorem pool_grows_to_high_water_mark :
  (forall p,
     let p' := fst (beginFrame p) in
     _drawCommands p' = _drawCommands p /\
     _uniformMaps p' = _uniformMaps p /\
     _usedDrawCommands p' = 0 /\
     endFrame p' [] = [])
  /\
  (forall p tiles context frameState,
     poolInvariant p ->
     0 < maximumTextureImageUnits context ->
     exists p', renderFrame p tiles context frameState = Some p')
  /\
  (forall p tiles context frameState p',
     poolInvariant p ->
     renderFrame p tiles context frameState = Some p' ->
     poolInvariant p' /\
     List.length (_drawCommands p')
     = Nat.max (List.length (_drawCommands p)) (_usedDrawCommands p') /\
     List.length (_uniformMaps p') = List.length (_drawCommands p') /\
     List.length (endFrame p' []) = _usedDrawCommands p' /\
     Forall (fun command => command < _usedDrawCommands p') (endFrame p' []))
  /\
  (forall p0 p1 p2 p3 tiles1 tiles2 tiles3 context1 context2 context3
          frameState1 frameState2 frameState3,
     poolInvariant p0 ->
     renderFrame p0 tiles1 context1 frameState1 = Some p1 ->
     _usedDrawCommands p1 = 2 ->
     renderFrame p1 tiles2 context2 frameState2 = Some p2 ->
     _usedDrawCommands p2 = 5 ->
     renderFrame p2 tiles3 context3 frameState3 = Some p3 ->
     _usedDrawCommands p3 = 1 ->
     List.length (_drawCommands p0) <= List.length (_drawCommands p1) /\
     List.length (_drawCommands p1) <= List.length (_drawCommands p2) /\
     5 <= List.length (_drawCommands p2) /\
     List.length (_drawCommands p3) = List.length (_drawCommands p2) /\
     List.length (_uniformMaps p3) = List.length (_uniformMaps p2) /\
     endFrame p3 [] = [0]).
Proof.
  split; [|split; [|split]].
  - intros p. destruct (beginFrame_pool p) as (Hc & Hm & Hu & Hf).
    cbv zeta in *. rewrite endFrame_flatten.
    split; [exact Hc|]. split; [exact Hm|]. split; [exact Hu | exact Hf].
  - intros p tiles context frameState Hinv Hunits. unfold renderFrame.
    destruct (@renderTiles_total context frameState tiles Hunits
                (fst (beginFrame p)) [] (@beginFrame_invariant _ Hinv))
      as (p' & credits' & Hrun).
    rewrite Hrun. now eexists.
  - intros p tiles context frameState p'. apply renderFrame_correct.
  - intros p0 p1 p2 p3 tiles1 tiles2 tiles3 context1 context2 context3
           frameState1 frameState2 frameState3
           Hinv0 Hframe1 Hused1 Hframe2 Hused2 Hframe3 Hused3.
    destruct (@renderFrame_correct _ _ _ _ _ Hinv0 Hframe1)
      as (Hinv1 & Hlen1 & Hmaps1 & _).
    destruct (@renderFrame_correct _ _ _ _ _ Hinv1 Hframe2)
      as (Hinv2 & Hlen2 & Hmaps2 & _).
    destruct (@renderFrame_correct _ _ _ _ _ Hinv2 Hframe3)
      as (Hinv3 & Hlen3 & Hmaps3 & Hcount3 & Hrefs3).
    rewrite Hused3 in *.
    split; [lia|]. split; [lia|]. split; [lia|]. split; [lia|].
    split; [lia|].
    destruct (endFrame p3 []) as [|command [|? ?]]; try discriminate.
    inversion Hrefs3 as [|? ? Hcommand _]; subst.
    f_equal. lia.
Qed.

End SurfaceProviderProperties.

(** *** The surface provider on the example tiles *)

Lemma renderTile_emits_a_command_witness :
  (exists p' credits' tile',
     @renderTile exampleSurface (exampleFrames 1) hiddenTile twoUnits frame3D []
     = Some (Normal (p', credits', tile')) /\
     _usedDrawCommands (exampleFrames 1) < _usedDrawCommands p' /\
     List.length (endFrame p' [])
     = List.length (endFrame (exampleFrames 1) [])
       + (_usedDrawCommands p' - _usedDrawCommands (exampleFrames 1)))
  /\
  (exists p' credits' tile' command,
     @renderTile exampleSurface (exampleFrames 1) hiddenTile twoUnits frame3D []
     = Some (Normal (p', credits', tile')) /\
     _usedDrawCommands p' = 3 /\
     JSArray.get (_tilesToRenderByTextureCount p') 0 = Some [2] /\
     List.length (endFrame p' []) = 3 /\
     nth_error (_drawCommands p') 2 = Some command /\
     owner command = Some 13 /\
     option_map numberOfDayTextures (shaderProgram command) = Some 0).
Proof.
  assert (Hinv : @poolInvariant (exampleFrames 1)).
  { split; [reflexivity|]. split; [vm_compute; lia|].
    vm_compute. repeat constructor. }
  assert (Hunits : 0 < maximumTextureImageUnits twoUnits)
    by (vm_compute; lia).
  destruct (@renderTile_emits_a_command exampleSurface (exampleFrames 1)
              hiddenTile twoUnits frame3D [] Hinv Hunits) as [Hany Hhidden].
  split; [exact Hany|].
  apply Hhidden. repeat constructor.
Defined.

Lemma pool_grows_to_high_water_mark_witness :
  (exists p',
     @renderFrame exampleSurface (exampleFrames 2) [bareTile] twoUnits frame3D
     = Some p')
  /\
  (List.length (_drawCommands (exampleFrames 3))
   = Nat.max (List.length (_drawCommands (exampleFrames 2)))
             (_usedDrawCommands (exampleFrames 3)) /\
   List.length (endFrame (exampleFrames 3) [])
   = _usedDrawCommands (exampleFrames 3) /\
   Forall (fun command => command < _usedDrawCommands (exampleFrames 3))
          (endFrame (exampleFrames 3) []))
  /\
  (List.length (_drawCommands (exampleFrames 0))
   <= List.length (_drawCommands (exampleFrames 1)) /\
   List.length (_drawCommands (exampleFrames 1))
   <= List.length (_drawCommands (exampleFrames 2)) /\
   5 <= List.length (_drawCommands (exampleFrames 2)) /\
   List.length (_drawCommands (exampleFrames 3))
   = List.length (_drawCommands (exampleFrames 2)) /\
   List.length (_uniformMaps (exampleFrames 3))
   = List.length (_uniformMaps (exampleFrames 2)) /\
   endFrame (exampleFrames 3) [] = [0]).
Proof.
  assert (Hinv0 : @poolInvariant (exampleFrames 0))
    by (split; [reflexivity|]; split; [apply le_n | constructor]).
  assert (Hinv2 : @poolInvariant (exampleFrames 2)).
  { split; [reflexivity|]. split; [vm_compute; lia|].
    vm_compute. repeat constructor. }
  destruct (@pool_grows_to_high_water_mark exampleSurface)
    as (_ & Htotal & Hframe & Hscenario).
  split; [|split].
  - apply Htotal; [exact Hinv2 | vm_compute; lia].
  - assert (Hthird : @renderFrame exampleSurface (exampleFrames 2) [bareTile]
                                  twoUnits frame3D = Some (exampleFrames 3))
      by (vm_compute; reflexivity).
    destruct (Hframe (exampleFrames 2) [bareTile] twoUnits frame3D
                (exampleFrames 3) Hinv2 Hthird) as (_ & H1 & _ & H2 & H3).
    split; [exact H1|]. split; [exact H2 | exact H3].
  - apply (Hscenario (exampleFrames 0) (exampleFrames 1) (exampleFrames 2)
             (exampleFrames 3)
             [threeTextureTile] [fiveTextureTile; threeTextureTile] [bareTile]
             twoUnits twoUnits twoUnits frame3D frame3D frame3D Hinv0);
      vm_compute; reflexivity.
Defined.

Lemma onLayerRemoved_removes_the_layer_run_witness :
  @onLayerRemoved_tile exampleSurface 1 fiveTextureTile
  = (({| tileId := 12;
         imagery := [readyEntry 0 100; readyEntry 0 103;
                     readyEntry 2 102; readyEntry 2 105];
         isRenderable := true |},
      [readyEntry 1 101; loadingEntry 1 104]),
     Normal tt).
Proof.
  apply (@onLayerRemoved_removes_the_layer_run exampleSurface Z.of_nat 1
           fiveTextureTile).
  - repeat constructor; discriminate.
  - repeat constructor; vm_compute; discriminate.
  - intros t Hin Hindex. simpl in Hin.
    repeat match goal with
           | H : _ \/ _ |- _ => destruct H as [H|H]
           end;
      try contradiction; subst t; try reflexivity;
      vm_compute in Hindex; discriminate.
Defined.

(** ** Further properties of the render loop *)

Section RenderLoopProperties.

Context {surface : SurfaceCollaborators}.

Lemma set_in_range {A} (a : JSArray.t A) (n : nat) (v : A) :
  n <= List.length a ->
  JSArray.set a n v = firstn n a ++ Some v :: skipn (S n) a.
Proof.
  intros Hn. unfold JSArray.set.
  now replace (n - List.length a) with 0 by lia.
Qed.

Lemma set_firstn_succ {A} (a : JSArray.t A) (n : nat) (v : A) :
  n <= List.length a ->
  firstn (S n) (JSArray.set a n v) = firstn n a ++ [Some v].
Proof.
  intros Hn. rewrite set_in_range by exact Hn.
  rewrite firstn_app, length_firstn, Nat.min_l by exact Hn.
  replace (S n - n) with 1 by lia.
  rewrite firstn_all2 by (rewrite length_firstn; lia).
  reflexivity.
Qed.

Lemma set_length_succ {A} (a : JSArray.t A) (n : nat) (v : A) :
  n <= List.length a -> S n <= List.length (JSArray.set a n v).
Proof.
  intros Hn. rewrite set_in_range by exact Hn.
  rewrite length_app, length_firstn, Nat.min_l by exact Hn.
  simpl. lia.
Qed.

Lemma setLength_in_range {A} (a : JSArray.t A) (n : nat) :
  n <= List.length a -> JSArray.setLength a n = firstn n a.
Proof.
  intros Hn. unfold JSArray.setLength.
  replace (n - List.length a) with 0 by lia. apply app_nil_r.
Qed.

Lemma usableImageries_cons_usable t imagery rest :
  usableImagery t = Some imagery ->
  usableImageries (t :: rest) = imagery :: usableImageries rest.
Proof. intros H. unfold usableImageries. simpl. now rewrite H. Qed.

Lemma usableImageries_cons_skipped t rest :
  usableImagery t = None ->
  usableImageries (t :: rest) = usableImageries rest.
Proof. intros H. unfold usableImageries. simpl. now rewrite H. Qed.

Lemma withCachedTransform_usable tile frameState t imagery d :
  usableImagery t = Some imagery ->
  fst (addDayTexture tile frameState t imagery d) = withCachedTransform tile t.
Proof. intros H. unfold withCachedTransform. now rewrite H. Qed.

Lemma dayTextureLoop_gathers maxTextures tile frameState rest :
  forall d d' seen rest',
    dayTextureLoop maxTextures tile frameState rest d = (d', seen, rest') ->
    dayCount d <= maxTextures ->
    exists g, Gathered maxTextures tile frameState rest d d' seen rest' g.
Proof.
  induction rest as [|t rest IH]; intros d d' seen rest' Hloop Hbudget;
    cbn [dayTextureLoop] in Hloop.
  - injection Hloop as <- <- <-. exists [].
    constructor; cbn [existsb flat_map map List.length app];
      rewrite ?orb_false_r, ?app_nil_r, ?Nat.add_0_r;
      try reflexivity; try assumption; try congruence.
    + intros H; split; [exact H | reflexivity].
    + intros H; split; [exact H | reflexivity].
  - destruct (Nat.ltb_spec (dayCount d) maxTextures) as [Hlt|Hge].
    + destruct (usableImagery t) as [imagery|] eqn:Husable.
      * pose proof (@withCachedTransform_usable tile frameState t imagery d Husable)
          as Hcached.
        destruct (addDayTexture tile frameState t imagery d) as [t1 d1] eqn:Hadd.
        cbn [fst] in Hcached. subst t1.
        assert (Hd1 : d1 = snd (addDayTexture tile frameState t imagery d))
          by now rewrite Hadd.
        destruct (dayTextureLoop maxTextures tile frameState rest d1)
          as [[d2 seen2] rest2] eqn:Hloop2.
        injection Hloop as <- <- <-.
        assert (Hcount1 : dayCount d1 = S (dayCount d)) by now subst d1.
        destruct (IH _ _ _ _ Hloop2 ltac:(lia)) as [g Hg].
        destruct Hg. exists (imagery :: g).
        constructor; cbn [existsb flat_map map List.length app firstn skipn].
        -- rewrite (@usableImageries_cons_usable t imagery rest Husable).
           cbn [app]. now f_equal.
        -- lia.
        -- assumption.
        -- assumption.
        -- now f_equal.
        -- assumption.
        -- rewrite gathered_brightness0, Hd1. cbn. unfold brightnessOf.
           now rewrite orb_assoc.
        -- rewrite gathered_contrast0, Hd1. cbn. unfold contrastOf.
           now rewrite orb_assoc.
        -- rewrite gathered_hue0, Hd1. cbn. unfold hueOf.
           now rewrite orb_assoc.
        -- rewrite gathered_saturation0, Hd1. cbn. unfold saturationOf.
           now rewrite orb_assoc.
        -- rewrite gathered_gamma0, Hd1. cbn. unfold oneOverGammaOf.
           now rewrite orb_assoc.
        -- rewrite gathered_alpha0, Hd1. cbn. unfold alphaOf.
           now rewrite orb_assoc.
        -- rewrite gathered_credits0, Hd1. cbn. unfold creditsOf.
           destruct (credits imagery); now rewrite <- ?app_assoc, ?app_nil_r.
        -- intros Hlen.
           assert (Hset : dayTextures (dayUniformMap d1)
                          = JSArray.set (dayTextures (dayUniformMap d))
                                        (dayCount d) (texture imagery))
             by now subst d1.
           assert (H1 : dayCount d1
                        <= List.length (dayTextures (dayUniformMap d1))).
           { rewrite Hcount1, Hset. now apply set_length_succ. }
           destruct (gathered_textures0 H1) as [H2 H3].
           split; [exact H2|]. rewrite H3, Hcount1, Hset.
           rewrite set_firstn_succ by exact Hlen.
           now rewrite <- app_assoc.
        -- intros Hlen.
           assert (Hset : dayTextureAlpha (dayUniformMap d1)
                          = JSArray.set (dayTextureAlpha (dayUniformMap d))
                                        (dayCount d) (alphaOf frameState imagery))
             by now subst d1.
           assert (H1 : dayCount d1
                        <= List.length (dayTextureAlpha (dayUniformMap d1))).
           { rewrite Hcount1, Hset. now apply set_length_succ. }
           destruct (gathered_alphas0 H1) as [H2 H3].
           split; [exact H2|]. rewrite H3, Hcount1, Hset.
           rewrite set_firstn_succ by exact Hlen.
           now rewrite <- app_assoc.
      * destruct (dayTextureLoop maxTextures tile frameState rest d)
          as [[d2 seen2] rest2] eqn:Hloop2.
        injection Hloop as <- <- <-.
        destruct (IH _ _ _ _ Hloop2 Hbudget) as [g Hg].
        destruct Hg. exists g.
        constructor; cbn [List.length firstn skipn map]; try assumption.
        -- now rewrite (@usableImageries_cons_skipped t rest Husable).
        -- f_equal; [|assumption].
           unfold withCachedTransform. now rewrite Husable.
    + injection Hloop as <- <- <-. exists [].
      constructor; cbn [existsb flat_map map List.length app firstn skipn];
        rewrite ?orb_false_r, ?app_nil_r, ?Nat.add_0_r;
        try reflexivity; try assumption; try lia.
      * intros H; split; [exact H | reflexivity].
      * intros H; split; [exact H | reflexivity].
Qed.

Lemma replace_nth_other {A} (l : list A) :
  forall i j v, i <> j -> nth_error (replace l j v) i = nth_error l i.
Proof.
  induction l as [|a l IH]; intros [|i] [|j] v Hij; simpl; auto; try congruence.
Qed.

Lemma get_set_other {A} (a : JSArray.t A) (n n' : nat) (v : A) :
  n' <> n -> JSArray.get (JSArray.set a n v) n' = JSArray.get a n'.
Proof.
  intros Hne. unfold JSArray.get, JSArray.set.
  destruct (Nat.lt_ge_cases n' n) as [Hlt|Hge].
  - destruct (Nat.lt_ge_cases n' (List.length a)) as [Hin|Hout].
    + rewrite nth_error_app1 by (rewrite length_firstn; lia).
      now rewrite nth_error_firstn; destruct (Nat.ltb_spec n' n); [|lia].
    + rewrite nth_error_app2 by (rewrite length_firstn; lia).
      rewrite length_firstn, Nat.min_r by lia.
      rewrite nth_error_app1 by (rewrite repeat_length; lia).
      rewrite nth_error_repeat by lia.
      apply nth_error_None in Hout. now rewrite Hout.
  - rewrite nth_error_app2 by (rewrite length_firstn; lia).
    rewrite nth_error_app2 by (rewrite length_firstn, repeat_length; lia).
    rewrite length_firstn, repeat_length.
    destruct (Nat.le_gt_cases (List.length a) n) as [Hout|Hin].
    + rewrite skipn_all2 by lia.
      assert (Hnone : nth_error a n' = None) by (apply nth_error_None; lia).
      rewrite Hnone.
      destruct (n' - Nat.min n (List.length a) - (n - List.length a)) as [|k] eqn:Hk;
        [lia|].
      cbn [nth_error]. now destruct k.
    + rewrite Nat.min_l by lia.
      replace (n - List.length a) with 0 by lia.
      replace (n' - n - 0) with (S (n' - S n)) by lia.
      cbn [nth_error]. rewrite nth_error_skipn.
      now replace (S n + (n' - S n)) with n' by lia.
Qed.

(** Pushing a command on the list of one texture count extends that
    list and leaves the lists of the other texture counts alone. *)
Lemma tilesAt_push (a : JSArray.t (list CommandRef)) (n n' : nat) command :
  tilesAt (pushTileToRender a n command) n'
  = tilesAt a n' ++ (if Nat.eqb n' n then [command] else []).
Proof.
  destruct (Nat.eqb_spec n' n) as [->|Hne].
  - unfold tilesAt at 1. now rewrite pushTileToRender_at.
  - unfold tilesAt, pushTileToRender.
    destruct (JSArray.get a n); rewrite get_set_other by exact Hne;
      now rewrite app_nil_r.
Qed.

(** One pass of the render loop, in full: the imagery it draws, what
    it leaves at the claimed position of the pool, and what it leaves
    alone. *)
Lemma renderPass_full (p : Provider) (context : Context)
      (frameState : FrameState) (tile : TileRef) (credits : list Credit)
      (rest : list TileImagery) :
  poolInvariant p ->
  exists p' seen rest' g,
    renderPass p context frameState tile credits rest
    = Normal (p', credits ++ flat_map creditsOf g, seen, rest') /\
    usableImageries rest = g ++ usableImageries rest' /\
    List.length g <= maximumTextureImageUnits context /\
    (rest' <> [] -> List.length g = maximumTextureImageUnits context) /\
    seen = map (withCachedTransform tile) (firstn (List.length seen) rest) /\
    rest' = skipn (List.length seen) rest /\
    drawnAt p' frameState tile (_usedDrawCommands p) g /\
    _usedDrawCommands p' = S (_usedDrawCommands p) /\
    _tilesToRenderByTextureCount p'
    = pushTileToRender (_tilesToRenderByTextureCount p) (List.length g)
                       (_usedDrawCommands p) /\
    (forall i, i < _usedDrawCommands p ->
       nth_error (_drawCommands p') i = nth_error (_drawCommands p) i /\
       nth_error (_uniformMaps p') i = nth_error (_uniformMaps p) i) /\
    _layerOrderChanged p' = _layerOrderChanged p /\
    _debug_boundingSphereTile p' = _debug_boundingSphereTile p.
Proof.
  intros (Hmaps & Hused & Hrefs).
  set (used := _usedDrawCommands p).
  (* the pool after the claim *)
  assert (Hclaim : exists p1,
    claimCommand p tile = Some (used, used, p1) /\
    _usedDrawCommands p1 = S used /\
    _tilesToRenderByTextureCount p1 = _tilesToRenderByTextureCount p /\
    _layerOrderChanged p1 = _layerOrderChanged p /\
    _debug_boundingSphereTile p1 = _debug_boundingSphereTile p /\
    used < List.length (_drawCommands p1) /\
    used < List.length (_uniformMaps p1) /\
    (forall i, i < used ->
       nth_error (_drawCommands p1) i = nth_error (_drawCommands p) i /\
       nth_error (_uniformMaps p1) i = nth_error (_uniformMaps p) i)).
  { unfold claimCommand. fold used.
    destruct (Nat.leb_spec (List.length (_drawCommands p)) used) as [Hle|Hlt].
    - assert (Heq : List.length (_drawCommands p) = used) by (unfold used; lia).
      rewrite Hmaps, Heq. eexists. split; [reflexivity|].
      cbn. rewrite !length_app. cbn.
      do 6 (split; [reflexivity || lia|]).
      intros i Hi. split; apply nth_error_app1; lia.
    - destruct (nth_error (_uniformMaps p) used) eqn:Hnth.
      + eexists. split; [reflexivity|]. cbn.
        do 6 (split; [reflexivity || lia|]). now intros i Hi.
      + apply nth_error_None in Hnth. lia. }
  destruct Hclaim as (p1 & Hclaim & Hused1 & Hlists1 & Horder1 & Hdebug1
                      & Hlen1 & Hlenmaps1 & Hframe1).
  unfold renderPass. rewrite Hclaim.
  destruct (nth_error (_uniformMaps p1) used) as [u|] eqn:Hu;
    [|apply nth_error_None in Hu; lia].
  match goal with
  | |- context [dayTextureLoop ?m ?t ?f ?r ?d0] =>
      set (start := d0); destruct (dayTextureLoop m t f r start)
        as [[d seen] rest'] eqn:Hloop
  end.
  destruct (@dayTextureLoop_gathers _ _ _ _ _ _ _ _ Hloop (Nat.le_0_l _))
    as [g Hg].
  destruct Hg as [Husable Hcount Hbudget Hfull Hseen Hrest Hb Hc Hh Hs Hgm Ha
                  Hcredits Htextures Halphas].
  cbn [dayCount brightnessFlag contrastFlag hueFlag saturationFlag gammaFlag
       alphaFlag creditDisplay dayUniformMap start orb Nat.add] in *.
  subst start. cbn [dayCount dayUniformMap] in *.
  destruct (Htextures (Nat.le_0_l _)) as [Htlen Htex].
  destruct (Halphas (Nat.le_0_l _)) as [Halen Halpha].
  cbn [firstn app] in Htex, Halpha.
  eexists. exists seen, rest', g.
  split; [now rewrite Hcredits|].
  split; [exact Husable|]. split; [lia|].
  split; [intros H; specialize (Hfull H); lia|].
  split; [exact Hseen|]. split; [exact Hrest|].
  cbn [_usedDrawCommands _drawCommands _uniformMaps _layerOrderChanged
       _debug_boundingSphereTile _tilesToRenderByTextureCount
       set_pool set_tilesToRender].
  split; [|split; [exact Hused1|split; [now rewrite Hlists1, Hcount|split;
           [|split; [exact Horder1|exact Hdebug1]]]]].
  - unfold drawnAt.
    cbn [_usedDrawCommands _drawCommands _uniformMaps set_pool set_tilesToRender].
    do 2 eexists.
    split; [apply replace_nth; exact Hlen1|].
    split; [apply replace_nth; exact Hlenmaps1|].
    cbn [owner shaderProgram commandUniformMap dayTextures dayTextureAlpha].
    split; [reflexivity|].
    split; [unfold shaderKeyOf; now rewrite Hcount, Hb, Hc, Hh, Hs, Hgm, Ha|].
    split; [reflexivity|].
    split.
    + rewrite setLength_in_range by exact Htlen. rewrite Htex. reflexivity.
    + rewrite <- Hcount. exact Halpha.
  - intros i Hi. rewrite !replace_nth_other by lia. now apply Hframe1.
Qed.

Lemma drawnAt_kept (p p' : Provider) frameState tile position g :
  nth_error (_drawCommands p') position = nth_error (_drawCommands p) position ->
  nth_error (_uniformMaps p') position = nth_error (_uniformMaps p) position ->
  drawnAt p frameState tile position g ->
  drawnAt p' frameState tile position g.
Proof.
  intros Hc Hu (command & u & H1 & H2 & H). exists command, u.
  rewrite Hc, Hu. auto.
Qed.

Lemma renderLoop_groups context frameState tile (fuel : nat) :
  forall p credits seen rest p' credits' collection,
    poolInvariant p ->
    renderLoop fuel p context frameState tile credits seen rest
    = Some (Normal (p', credits', collection)) ->
    credits' = credits ++ flat_map creditsOf (usableImageries rest) /\
    collection = seen ++ map (withCachedTransform tile) rest /\
    exists groups, Rendered context frameState tile p p' rest groups.
Proof.
  induction fuel as [|fuel IH];
    intros p credits seen rest p' credits' collection Hinv Hrun;
    [discriminate|].
  cbn [renderLoop] in Hrun.
  destruct (renderPass_spec context frameState tile credits rest Hinv)
    as (p0 & credits0 & seen0 & rest0 & _ & _ & Hpass0 & _ & _ & Hinv1 & _).
  destruct (renderPass_full context frameState tile credits rest Hinv)
    as (p1 & seen1 & rest1 & g & Hpass & Husable & Hbudget & Hfull & Hseen
        & Hrest & Hdrawn & Hused & Hlists & Hframe & Horder & Hdebug).
  rewrite Hpass in Hpass0. injection Hpass0 as <- _ _ _.
  rewrite Hpass in Hrun.
  assert (Hsplit : map (withCachedTransform tile) rest
                   = seen1 ++ map (withCachedTransform tile) rest1).
  { rewrite Hrest. rewrite Hseen at 1. rewrite <- map_app.
    now rewrite firstn_skipn. }
  destruct rest1 as [|t1 rest1].
  - injection Hrun as <- <- <-.
    cbn [usableImageries flat_map] in Husable. rewrite app_nil_r in Husable.
    split; [now rewrite Husable|].
    split; [now rewrite Hsplit, app_nil_r|].
    exists [g]. constructor.
    + discriminate.
    + cbn. now rewrite app_nil_r.
    + cbn. lia.
    + now constructor.
    + constructor.
    + intros [|k] g' Hk; cbn in Hk; [|now destruct k].
      injection Hk as <-. now rewrite Nat.add_0_r.
    + exact Hframe.
    + intros n. rewrite Hlists, tilesAt_push. eexists. split; [reflexivity|].
      destruct (Nat.eqb_spec n (List.length g)); constructor; [|constructor].
      split; [lia|]. rewrite Nat.sub_diag. now exists g.
    + exact Horder.
    + exact Hdebug.
  - destruct (IH _ _ _ _ _ _ _ Hinv1 Hrun) as (Hcredits & Hcollection & groups & Hg).
    destruct Hg as [Hsome Hall Hused' Hbudget' Hfull' Hdrawn' Hframe' Hlists'
                    Horder' Hdebug'].
    split; [rewrite Hcredits, Husable, flat_map_app; now rewrite app_assoc|].
    split; [rewrite Hcollection, Hsplit; now rewrite app_assoc|].
    exists (g :: groups). constructor.
    + discriminate.
    + cbn [List.concat]. now rewrite Hall.
    + cbn [List.length]. lia.
    + now constructor.
    + destruct groups as [|g0 groups]; [congruence|].
      cbn [removelast] in *. constructor; [|exact Hfull'].
      apply Hfull. discriminate.
    + intros [|k] g' Hk; cbn [nth_error] in Hk.
      * injection Hk as <-. rewrite Nat.add_0_r.
        destruct (Hframe' (_usedDrawCommands p) ltac:(lia)) as [Hc Hu].
        now apply (@drawnAt_kept p1 p' _ _ _ _ Hc Hu).
      * replace (_usedDrawCommands p + S k) with (_usedDrawCommands p1 + k) by lia.
        now apply Hdrawn'.
    + intros i Hi.
      destruct (Hframe' i ltac:(lia)) as [Hc Hu].
      destruct (Hframe i Hi) as [Hc1 Hu1].
      split; congruence.
    + intros n. destruct (Hlists' n) as (added & Hadded & Hbounds).
      rewrite Hadded, Hlists, tilesAt_push, <- app_assoc.
      eexists. split; [reflexivity|].
      apply Forall_app. split.
      * destruct (Nat.eqb_spec n (List.length g)); constructor; [|constructor].
        split; [lia|]. rewrite Nat.sub_diag. now exists g.
      * eapply Forall_impl; [|exact Hbounds]. cbv beta.
        intros c ((Hc1 & Hc2) & g' & Hg' & Hlen). split; [lia|].
        exists g'. split; [|exact Hlen].
        replace (c - _usedDrawCommands p)
          with (S (c - _usedDrawCommands p1)) by lia.
        exact Hg'.
    + congruence.
    + congruence.
Qed.

(** The same for [renderTile], which always returns when there is a
    texture unit. *)
Lemma renderTile_groups (p : Provider) (tile : QuadtreeTile)
      (context : Context) (frameState : FrameState) (credits : list Credit) :
  poolInvariant p ->
  0 < maximumTextureImageUnits context ->
  exists p' groups,
    renderTile p tile context frameState credits
    = Some (Normal (p',
                    credits ++ flat_map creditsOf (usableImageries (imagery tile)),
                    {| tileId := tileId tile;
                       imagery := map (withCachedTransform (tileId tile))
                                      (imagery tile);
                       isRenderable := isRenderable tile |})) /\
    Rendered context frameState (tileId tile) p p' (imagery tile) groups.
Proof.
  intros Hinv Hunits.
  destruct (@renderLoop_total _ context frameState (tileId tile)
              (S (List.length (imagery tile))) Hunits p credits []
              (imagery tile) Hinv) as (p' & credits' & collection & Hrun);
    [lia|].
  destruct (@renderLoop_groups _ _ _ _ _ _ _ _ _ _ _ Hinv Hrun)
    as (Hcredits & Hcollection & groups & Hg).
  exists p', groups. split; [|exact Hg].
  unfold renderTile. rewrite Hrun, Hcredits, Hcollection. reflexivity.
Qed.

Lemma concat_length_budget {A} (m : nat) (groups : list (list A)) :
  Forall (fun g => List.length g <= m) groups ->
  List.length (List.concat groups) <= m * List.length groups.
Proof.
  induction 1 as [|g groups Hg _ IH]; cbn [List.concat List.length]; [lia|].
  rewrite length_app. lia.
Qed.

Lemma concat_length_full {A} (m : nat) (groups : list (list A)) :
  Forall (fun g => List.length g = m) (removelast groups) ->
  (List.length groups - 1) * m <= List.length (List.concat groups).
Proof.
  induction groups as [|g groups IH]; intros Hfull; [cbn; lia|].
  destruct groups as [|g' groups]; [cbn; lia|].
  cbn [removelast] in Hfull. inversion Hfull as [|? ? Hg Hrest]; subst.
  specialize (IH Hrest). cbn [List.concat List.length] in *.
  rewrite !length_app in *. nia.
Qed.

Lemma usableImagery_cached tile t :
  usableImagery (withCachedTransform tile t) = usableImagery t.
Proof.
  unfold withCachedTransform.
  destruct (usableImagery t) as [imagery|] eqn:Husable; [|exact Husable].
  unfold usableImagery in *. cbn [readyImagery]. exact Husable.
Qed.

Lemma withCachedTransform_idempotent tile t :
  withCachedTransform tile (withCachedTransform tile t)
  = withCachedTransform tile t.
Proof.
  unfold withCachedTransform at 1. rewrite usableImagery_cached.
  destruct (usableImagery t) as [imagery|] eqn:Husable; [|reflexivity].
  unfold withCachedTransform. rewrite Husable. reflexivity.
Qed.

Lemma usableImageries_cached tile l :
  usableImageries (map (withCachedTransform tile) l) = usableImageries l.
Proof.
  unfold usableImageries. induction l as [|t l IH]; [reflexivity|].
  cbn [map flat_map]. now rewrite usableImagery_cached, IH.
Qed.

(** X1.  On a provider that satisfies the pool invariant and with at
    least one texture unit, [renderTile] draws every imagery of the
    tile that is ready and not fully transparent exactly once and in
    the order of the collection: the commands it claims, at
    consecutive pool positions from the former usage counter on, split
    that imagery into consecutive groups of at most
    [maximumTextureImageUnits]; the command of a group is owned by the
    tile, its shader variant is the one of the group (texture count
    and colour adjustments), and its uniform map holds the textures of
    the group and nothing more, and their alpha values. *)
Theorem renderTile_draws_each_usable_imagery_once
    (p : Provider) (tile : QuadtreeTile) (context : Context)
    (frameState : FrameState) (credits : list Credit) :
  poolInvariant p ->
  0 < maximumTextureImageUnits context ->
  exists p' credits' tile' groups,
    renderTile p tile context frameState credits
    = Some (Normal (p', credits', tile')) /\
    List.concat groups = usableImageries (imagery tile) /\
    _usedDrawCommands p' = _usedDrawCommands p + List.length groups /\
    Forall (fun g => List.length g <= maximumTextureImageUnits context) groups /\
    forall k g, nth_error groups k = Some g ->
                drawnAt p' frameState (tileId tile) (_usedDrawCommands p + k) g.
Proof.
  intros Hinv Hunits.
  destruct (@renderTile_groups p tile context frameState credits Hinv Hunits)
    as (p' & groups & Hrun & Hg).
  destruct Hg. do 3 eexists. exists groups.
  split; [exact Hrun|]. auto.
Qed.

(** X2.  The number [n] of commands [renderTile] claims for a tile with
    [u] imagery to draw and [m] texture units is at least one and lies
    between [u / m] rounded up and [u / m] rounded down plus one:
    [u <= m * n] and [(n - 1) * m <= u].  The upper value is reached
    when entries that are not drawn follow a full group. *)
Theorem renderTile_command_count
    (p : Provider) (tile : QuadtreeTile) (context : Context)
    (frameState : FrameState) (credits : list Credit) :
  poolInvariant p ->
  0 < maximumTextureImageUnits context ->
  exists p' credits' tile',
    renderTile p tile context frameState credits
    = Some (Normal (p', credits', tile')) /\
    let n := _usedDrawCommands p' - _usedDrawCommands p in
    let u := List.length (usableImageries (imagery tile)) in
    1 <= n /\
    u <= maximumTextureImageUnits context * n /\
    (n - 1) * maximumTextureImageUnits context <= u.
Proof.
  intros Hinv Hunits.
  destruct (@renderTile_groups p tile context frameState credits Hinv Hunits)
    as (p' & groups & Hrun & Hg).
  destruct Hg as [Hsome Hall Hused Hbudget Hfull _ _ _ _ _].
  do 3 eexists. split; [exact Hrun|]. cbv zeta.
  replace (_usedDrawCommands p' - _usedDrawCommands p)
    with (List.length groups) by lia.
  rewrite <- Hall.
  split; [destruct groups; [congruence | cbn; lia]|].
  split; [now apply concat_length_budget | now apply concat_length_full].
Qed.

(** X3.  [renderTile] adds to the credit display the credits of every
    imagery it draws, in the order drawn, after the credits already
    there; imagery that is not drawn adds none. *)
Theorem renderTile_adds_credits_of_drawn_imagery
    (p : Provider) (tile : QuadtreeTile) (context : Context)
    (frameState : FrameState) (credits : list Credit) :
  poolInvariant p ->
  0 < maximumTextureImageUnits context ->
  exists p' tile',
    renderTile p tile context frameState credits
    = Some (Normal (p',
                    credits ++ flat_map creditsOf (usableImageries (imagery tile)),
                    tile')).
Proof.
  intros Hinv Hunits.
  destruct (@renderTile_groups p tile context frameState credits Hinv Hunits)
    as (p' & groups & Hrun & _).
  do 2 eexists. exact Hrun.
Qed.

(** X4.  Of the imagery collection of the tile, [renderTile] changes
    one thing only: every entry it draws has its texture translation
    and scale filled in, computed only where there was none.  The
    entries, their order and the imagery to draw are unchanged, so
    rendering the tile again, in any state of the pool, leaves the
    collection exactly as the first rendering left it.  (The fields of
    the tile that the wireframe branch assigns are not part of the
    collection and are not represented.) *)
Theorem renderTile_caches_texture_transforms
    (p : Provider) (tile : QuadtreeTile) (context : Context)
    (frameState : FrameState) (credits : list Credit) :
  poolInvariant p ->
  0 < maximumTextureImageUnits context ->
  exists p' credits' tile',
    renderTile p tile context frameState credits
    = Some (Normal (p', credits', tile')) /\
    imagery tile'
    = map (withCachedTransform (tileId tile)) (imagery tile) /\
    usableImageries (imagery tile') = usableImageries (imagery tile) /\
    forall p2 credits2,
      poolInvariant p2 ->
      exists p3 credits3 tile'',
        renderTile p2 tile' context frameState credits2
        = Some (Normal (p3, credits3, tile'')) /\
        imagery tile'' = imagery tile'.
Proof.
  intros Hinv Hunits.
  destruct (@renderTile_groups p tile context frameState credits Hinv Hunits)
    as (p' & groups & Hrun & _).
  do 3 eexists. split; [exact Hrun|]. split; [reflexivity|].
  split; [apply usableImageries_cached|].
  intros p2 credits2 Hinv2.
  destruct (@renderTile_groups p2
              {| tileId := tileId tile;
                 imagery := map (withCachedTransform (tileId tile)) (imagery tile);
                 isRenderable := isRenderable tile |}
              context frameState credits2 Hinv2 Hunits)
    as (p3 & groups3 & Hrun3 & _).
  do 3 eexists. split; [exact Hrun3|].
  cbn [tileId imagery isRenderable].
  rewrite map_map.
  apply map_ext. intros t. apply withCachedTransform_idempotent.
Qed.

(** X5.  [renderTile] touches only what it claims: the commands and
    uniform maps at pool positions below the former usage counter, that
    is those claimed earlier in the frame, are left as they are; every
    render list keeps the commands it held, in place, and is extended
    only by commands claimed in this call; and the flags of the
    provider are unchanged. *)
Theorem renderTile_keeps_earlier_commands
    (p : Provider) (tile : QuadtreeTile) (context : Context)
    (frameState : FrameState) (credits : list Credit) :
  poolInvariant p ->
  0 < maximumTextureImageUnits context ->
  exists p' credits' tile',
    renderTile p tile context frameState credits
    = Some (Normal (p', credits', tile')) /\
    (forall i, i < _usedDrawCommands p ->
       nth_error (_drawCommands p') i = nth_error (_drawCommands p) i /\
       nth_error (_uniformMaps p') i = nth_error (_uniformMaps p) i) /\
    (forall n, exists added,
       tilesAt (_tilesToRenderByTextureCount p') n
       = tilesAt (_tilesToRenderByTextureCount p) n ++ added /\
       Forall (fun command =>
                 _usedDrawCommands p <= command < _usedDrawCommands p') added) /\
    _layerOrderChanged p' = _layerOrderChanged p /\
    _debug_boundingSphereTile p' = _debug_boundingSphereTile p.
Proof.
  intros Hinv Hunits.
  destruct (@renderTile_groups p tile context frameState credits Hinv Hunits)
    as (p' & groups & Hrun & Hg).
  destruct Hg as [_ _ _ _ _ _ Hframe Hlists Horder Hdebug].
  do 3 eexists. split; [exact Hrun|]. split; [exact Hframe|].
  split; [|split; assumption].
  intros n. destruct (Hlists n) as (added & Hadded & Hbounds).
  exists added. split; [exact Hadded|].
  eapply Forall_impl; [|exact Hbounds]. cbv beta. now intros c [Hc _].
Qed.

(** *** What [endFrame] emits *)

Lemma tilesAt_in_flatten (a : JSArray.t (list CommandRef)) n command :
  In command (tilesAt a n) -> In command (flattenTiles a).
Proof.
  intros Hin. rewrite (flattenTiles_at a n).
  apply in_or_app. right. apply in_or_app. now left.
Qed.

Lemma renderLoop_preserves (I : Provider -> Prop) context frameState tile :
  (forall p credits rest p' credits' seen rest',
     poolInvariant p -> I p ->
     renderPass p context frameState tile credits rest
     = Normal (p', credits', seen, rest') ->
     I p') ->
  forall fuel p credits seen rest p' credits' collection,
    poolInvariant p -> I p ->
    renderLoop fuel p context frameState tile credits seen rest
    = Some (Normal (p', credits', collection)) ->
    I p'.
Proof.
  intros Hpass. induction fuel as [|fuel IH];
    intros p credits seen rest p' credits' collection Hinv HI Hrun;
    [discriminate|].
  cbn [renderLoop] in Hrun.
  destruct (renderPass_spec context frameState tile credits rest Hinv)
    as (p1 & credits1 & seen1 & rest1 & _ & _ & Hp & _ & _ & Hinv1 & _).
  rewrite Hp in Hrun.
  pose proof (Hpass _ _ _ _ _ _ _ Hinv HI Hp) as HI1.
  destruct rest1 as [|t1 rest1].
  - now injection Hrun as <- _ _.
  - exact (IH _ _ _ _ _ _ _ Hinv1 HI1 Hrun).
Qed.

Lemma renderPass_frameInvariant context frameState tile
      p credits rest p' credits' seen rest' :
  poolInvariant p -> frameInvariant p ->
  renderPass p context frameState tile credits rest
  = Normal (p', credits', seen, rest') ->
  frameInvariant p'.
Proof.
  intros Hinv (Hperm & Hkeyed) Hpass.
  destruct (renderPass_full context frameState tile credits rest Hinv)
    as (p1 & seen1 & rest1 & g & Hp & _ & _ & _ & _ & _ & Hdrawn & Hused
        & Hlists & Hframe & _).
  rewrite Hp in Hpass. injection Hpass as <- _ _ _.
  split.
  - rewrite Hlists, Hused.
    destruct (pushTileToRender_flatten (_tilesToRenderByTextureCount p)
                (List.length g) (_usedDrawCommands p)) as (l1 & l2 & H1 & H2).
    rewrite H2, seq_S. cbn [Nat.add].
    rewrite <- Permutation_middle.
    rewrite <- H1. rewrite Hperm. apply Permutation_cons_append.
  - intros n command Hin. rewrite Hlists, tilesAt_push in Hin.
    apply in_app_or in Hin. destruct Hin as [Hold|Hnew].
    + assert (Hlt : command < _usedDrawCommands p).
      { apply tilesAt_in_flatten in Hold.
        apply (Permutation_in _ Hperm) in Hold. apply in_seq in Hold. lia. }
      unfold textureCount. destruct (Hframe command Hlt) as [-> _].
      now apply Hkeyed.
    + destruct (Nat.eqb_spec n (List.length g)) as [->|]; [|contradiction].
      destruct Hnew as [<-|[]].
      destruct Hdrawn as (c & u & Hc & _ & _ & Hkey & _).
      unfold textureCount. now rewrite Hc, Hkey.
Qed.

Lemma beginFrame_frameInvariant (p : Provider) :
  frameInvariant (fst (beginFrame p)).
Proof.
  destruct (beginFrame_pool p) as (_ & _ & Hu & Hf). cbv zeta in *.
  split; [now rewrite Hu, Hf|].
  intros n c Hin. apply tilesAt_in_flatten in Hin.
  rewrite Hf in Hin. contradiction.
Qed.

Lemma renderTile_frameInvariant (p : Provider) tile context frameState credits
      p' credits' tile' :
  poolInvariant p -> frameInvariant p ->
  renderTile p tile context frameState credits
  = Some (Normal (p', credits', tile')) ->
  frameInvariant p'.
Proof.
  intros Hinv HI Hrun. unfold renderTile in Hrun.
  destruct (renderLoop (S (List.length (imagery tile))) p context frameState
              (tileId tile) credits [] (imagery tile))
    as [[[[p1 credits1] collection]|e]|] eqn:Hloop; try discriminate.
  injection Hrun as <- _ _.
  eapply (@renderLoop_preserves frameInvariant); eauto.
  intros. eapply renderPass_frameInvariant; eauto.
Qed.

Lemma reachable_frameInvariant (p : Provider) :
  reachable p -> frameInvariant p.
Proof.
  induction 1 as [|p Hp IH|p tile context frameState credits p' credits' tile'
                    Hp IH Hrun|p _ IH].
  - split; [constructor|]. intros n c. now destruct n.
  - apply beginFrame_frameInvariant.
  - eapply renderTile_frameInvariant; eauto.
    now apply reachable_poolInvariant.
  - exact IH.
Qed.

Lemma StronglySorted_app {A} (R : A -> A -> Prop) (l1 l2 : list A) :
  StronglySorted R l1 -> StronglySorted R l2 ->
  (forall a b, In a l1 -> In b l2 -> R a b) ->
  StronglySorted R (l1 ++ l2).
Proof.
  induction 1 as [|a l1 Hs IH Ha]; intros H2 Hcross; [exact H2|].
  cbn [app]. constructor.
  - apply IH; [exact H2|]. intros; apply Hcross; simpl; auto.
  - apply Forall_app. split; [exact Ha|].
    apply Forall_forall. intros b Hb. apply Hcross; simpl; auto.
Qed.

Lemma StronglySorted_constant {A} (key : A -> nat) (k : nat) (l : list A) :
  (forall a, In a l -> key a = k) -> StronglySorted le (map key l).
Proof.
  induction l as [|a l IH]; intros Hk; cbn [map]; constructor.
  - apply IH. intros; apply Hk; simpl; auto.
  - apply Forall_forall. intros b Hb. apply in_map_iff in Hb.
    destruct Hb as (c & <- & Hc).
    rewrite (Hk a), (Hk c); simpl; auto.
Qed.

(** Lists keyed by their position, taken in order of position, are
    sorted by key. *)
Lemma flattenTiles_sorted (key : CommandRef -> nat)
      (a : JSArray.t (list CommandRef)) :
  forall k,
    (forall n command, In command (tilesAt a n) -> key command = k + n) ->
    StronglySorted le (map key (flattenTiles a)) /\
    Forall (fun command => k <= key command) (flattenTiles a).
Proof.
  induction a as [|o a IH]; intros k Hkeyed.
  - split; constructor.
  - rewrite flattenTiles_cons.
    assert (Hhead : forall command,
               In command (match o with Some tiles => tiles | None => [] end) ->
               key command = k).
    { intros c Hc. rewrite (Hkeyed 0 c); [lia|]. exact Hc. }
    destruct (IH (S k)) as [Hsorted Hbound].
    { intros n c Hc. rewrite (Hkeyed (S n) c); [lia|]. exact Hc. }
    rewrite Forall_forall in Hbound.
    split.
    + rewrite map_app. apply StronglySorted_app.
      * now apply (@StronglySorted_constant _ key k).
      * exact Hsorted.
      * intros x y Hx Hy. apply in_map_iff in Hx, Hy.
        destruct Hx as (c & <- & Hc). destruct Hy as (c' & <- & Hc').
        rewrite (Hhead c Hc). specialize (Hbound c' Hc'). lia.
    + apply Forall_app. split; apply Forall_forall; intros c Hc.
      * rewrite (Hhead c Hc). lia.
      * specialize (Hbound c Hc). lia.
Qed.

(** X6.  [endFrame] appends to the command list, leaving what it holds
    in place.  In every state the provider can reach, what it appends
    is exactly the commands claimed since the last [beginFrame]: every
    pool position below the usage counter is emitted once, none twice,
    and no other. *)
Theorem endFrame_emits_each_claimed_command_once (p : Provider) :
  reachable p ->
  (forall commandList,
     endFrame p commandList = commandList ++ endFrame p []) /\
  Permutation (endFrame p []) (seq 0 (_usedDrawCommands p)) /\
  NoDup (endFrame p []).
Proof.
  intros Hreach.
  destruct (reachable_frameInvariant Hreach) as [Hperm _].
  split; [intros commandList; now rewrite !endFrame_flatten|].
  rewrite endFrame_flatten. cbn [app].
  split; [exact Hperm|].
  apply (Permutation_NoDup (Permutation_sym Hperm)), seq_NoDup.
Qed.

(** X7.  In every state the provider can reach, [endFrame] emits the
    commands sorted by their number of day textures, in ascending
    order, as the comment in the source says. *)
Theorem endFrame_sorted_by_texture_count (p : Provider) :
  reachable p ->
  StronglySorted le (map (textureCount p) (endFrame p [])).
Proof.
  intros Hreach.
  destruct (reachable_frameInvariant Hreach) as [_ Hkeyed].
  rewrite endFrame_flatten. cbn [app].
  now apply (@flattenTiles_sorted (textureCount p)
               (_tilesToRenderByTextureCount p) 0).
Qed.

(** *** No texture unit *)

Lemma dayTextureLoop_zero tile frameState rest d :
  dayTextureLoop 0 tile frameState rest d = (d, [], rest).
Proof. now destruct rest. Qed.

Lemma renderPass_zero (p : Provider) (context : Context)
      (frameState : FrameState) (tile : TileRef) (credits : list Credit)
      (rest : list TileImagery) :
  maximumTextureImageUnits context = 0 ->
  poolInvariant p ->
  exists p',
    renderPass p context frameState tile credits rest
    = Normal (p', credits, [], rest) /\
    _usedDrawCommands p' = S (_usedDrawCommands p) /\
    poolInvariant p'.
Proof.
  intros Hzero Hinv.
  destruct (renderPass_spec context frameState tile credits rest Hinv)
    as (p1 & credits1 & seen1 & rest1 & d0 & d & Hp & _ & Hloop & Hinv1
        & Hused & _).
  destruct (renderPass_full context frameState tile credits rest Hinv)
    as (p2 & seen2 & rest2 & g & Hp2 & _ & Hg & _).
  rewrite Hzero, dayTextureLoop_zero in Hloop.
  injection Hloop as _ <- <-.
  rewrite Hp in Hp2. injection Hp2 as _ Hcredits.
  assert (g = []) as -> by (destruct g; [reflexivity | cbn in Hg; lia]).
  cbn [flat_map] in Hcredits. rewrite app_nil_r in Hcredits. subst credits1.
  exists p1. auto.
Qed.

Lemma renderLoop_zero (context : Context) (frameState : FrameState)
      (tile : TileRef) :
  maximumTextureImageUnits context = 0 ->
  forall fuel p credits seen rest,
    rest <> [] ->
    poolInvariant p ->
    renderLoop fuel p context frameState tile credits seen rest = None.
Proof.
  intros Hzero. induction fuel as [|fuel IH];
    intros p credits seen rest Hrest Hinv; [reflexivity|].
  cbn [renderLoop].
  destruct (@renderPass_zero p context frameState tile credits rest Hzero Hinv)
    as (p' & -> & _ & Hinv').
  destruct rest as [|t rest]; [congruence|].
  now apply IH.
Qed.

(** X19.  With no texture unit and a tile that has imagery, the
    [do ... while] loop of [renderTile] never ends: a pass claims a
    command from the pool, draws nothing and leaves the index into the
    collection where it was, so that the loop condition holds again,
    in a state that satisfies the pool invariant with one more command
    in use.  No number of passes is enough, and the call does not
    return. *)
Theorem renderTile_never_returns_without_texture_units
    (p : Provider) (tile : QuadtreeTile) (context : Context)
    (frameState : FrameState) (credits : list Credit) :
  poolInvariant p ->
  maximumTextureImageUnits context = 0 ->
  imagery tile <> [] ->
  renderTile p tile context frameState credits = None /\
  (forall fuel seen,
     renderLoop fuel p context frameState (tileId tile) credits seen
                (imagery tile) = None) /\
  exists p',
    renderPass p context frameState (tileId tile) credits (imagery tile)
    = Normal (p', credits, [], imagery tile) /\
    _usedDrawCommands p' = S (_usedDrawCommands p) /\
    poolInvariant p'.
Proof.
  intros Hinv Hzero Himagery.
  split; [|split].
  - unfold renderTile.
    now rewrite (@renderLoop_zero context frameState (tileId tile) Hzero).
  - intros fuel seen. now apply renderLoop_zero.
  - now apply renderPass_zero.
Qed.

(** *** A whole frame *)

(** [renderTile] over the tiles of a frame: [groupss] holds, per tile,
    the groups of imagery drawn by its commands. *)
Lemma renderTiles_groups context frameState (tiles : list QuadtreeTile) :
  0 < maximumTextureImageUnits context ->
  forall p credits,
    poolInvariant p ->
    exists p' groupss,
      renderTiles p tiles context frameState credits
      = Some (p', credits
                  ++ flat_map (fun tile =>
                                 flat_map creditsOf
                                          (usableImageries (imagery tile)))
                              tiles) /\
      poolInvariant p' /\
      Forall2 (fun tile groups =>
                 groups <> [] /\
                 List.concat groups = usableImageries (imagery tile) /\
                 Forall (fun g => List.length g
                                  <= maximumTextureImageUnits context) groups)
              tiles groupss /\
      _usedDrawCommands p'
      = _usedDrawCommands p + List.length (List.concat groupss) /\
      (forall j tile groups k g,
          nth_error tiles j = Some tile ->
          nth_error groupss j = Some groups ->
          nth_error groups k = Some g ->
          drawnAt p' frameState (tileId tile)
                  (_usedDrawCommands p
                   + List.length (List.concat (firstn j groupss)) + k) g) /\
      (forall i, i < _usedDrawCommands p ->
         nth_error (_drawCommands p') i = nth_error (_drawCommands p) i /\
         nth_error (_uniformMaps p') i = nth_error (_uniformMaps p) i) /\
      _layerOrderChanged p' = _layerOrderChanged p /\
      (frameInvariant p -> frameInvariant p').
Proof.
  intros Hunits. induction tiles as [|tile tiles IH]; intros p credits Hinv.
  - exists p, []. cbn [renderTiles flat_map List.concat List.length].
    rewrite app_nil_r, Nat.add_0_r.
    split; [reflexivity|]. split; [exact Hinv|]. split; [constructor|].
    split; [reflexivity|].
    split; [intros j tile groups k g Hj; now destruct j|].
    split; [intros; split; reflexivity|]. split; [reflexivity|]. auto.
  - destruct (@renderTile_groups p tile context frameState credits Hinv Hunits)
      as (p1 & groups & Hrun & Hg).
    destruct (@renderTile_correct _ _ _ _ _ _ _ _ _ Hinv Hrun)
      as [_ (Hinv1 & _)].
    destruct (IH p1 (credits ++ flat_map creditsOf
                                         (usableImageries (imagery tile)))
                 Hinv1)
      as (p' & groupss & Hrest & Hinv' & Hall & Hused & Hdrawn & Hframe
          & Hflag & Hkeep).
    exists p', (groups :: groupss).
    cbn [renderTiles flat_map]. rewrite Hrun, Hrest.
    split; [now rewrite app_assoc|]. split; [exact Hinv'|].
    split.
    { constructor; [|exact Hall].
      split; [exact (rendered_some Hg)|].
      split; [exact (rendered_all Hg) | exact (rendered_budget Hg)]. }
    split.
    { cbn [List.concat]. rewrite length_app, Hused, (rendered_used Hg). lia. }
    split.
    { intros j t gs k g Hj Hgs Hk. destruct j as [|j].
      - cbn [nth_error] in Hj, Hgs. injection Hj as <-. injection Hgs as <-.
        cbn [firstn List.concat List.length]. rewrite Nat.add_0_r.
        assert (Hk' : k < List.length groups).
        { apply nth_error_Some. congruence. }
        assert (Hlt : _usedDrawCommands p + k < _usedDrawCommands p1)
          by (rewrite (rendered_used Hg); lia).
        destruct (Hframe _ Hlt) as [Hc Hu].
        apply (@drawnAt_kept p1 p' frameState (tileId tile) _ g Hc Hu).
        exact (rendered_drawn Hg k Hk).
      - cbn [nth_error] in Hj, Hgs.
        cbn [firstn List.concat]. rewrite length_app.
        pose proof (Hdrawn j t gs k g Hj Hgs Hk) as Hd.
        rewrite (rendered_used Hg) in Hd.
        replace (_usedDrawCommands p
                 + (List.length groups
                    + List.length (List.concat (firstn j groupss))) + k)
          with (_usedDrawCommands p + List.length groups
                + List.length (List.concat (firstn j groupss)) + k) by lia.
        exact Hd. }
    split.
    { intros i Hi.
      assert (Hi1 : i < _usedDrawCommands p1)
        by (rewrite (rendered_used Hg); lia).
      destruct (Hframe i Hi1) as [-> ->].
      exact (rendered_frame Hg Hi). }
    split; [now rewrite Hflag, (rendered_order Hg)|].
    intros HI. apply Hkeep.
    exact (@renderTile_frameInvariant p tile context frameState credits
             _ _ _ Hinv HI Hrun).
Qed.

(** X11.  A frame, [beginFrame] followed by [renderTile] on each
    selected tile, claims the pool positions from [0] on, tile after
    tile: the commands of a tile draw its usable imagery, split into
    groups of at most [maximumTextureImageUnits], and a later tile
    leaves the commands of an earlier one as they are.  When the frame
    is over, the usage counter is the number of groups, and [endFrame]
    emits exactly these commands, each once. *)
Theorem renderFrame_draws_every_tile
    (p : Provider) (tiles : list QuadtreeTile) (context : Context)
    (frameState : FrameState) :
  poolInvariant p ->
  0 < maximumTextureImageUnits context ->
  exists p' groupss,
    renderFrame p tiles context frameState = Some p' /\
    Forall2 (fun tile groups =>
               groups <> [] /\
               List.concat groups = usableImageries (imagery tile) /\
               Forall (fun g => List.length g
                                <= maximumTextureImageUnits context) groups)
            tiles groupss /\
    _usedDrawCommands p' = List.length (List.concat groupss) /\
    (forall j tile groups k g,
        nth_error tiles j = Some tile ->
        nth_error groupss j = Some groups ->
        nth_error groups k = Some g ->
        drawnAt p' frameState (tileId tile)
                (List.length (List.concat (firstn j groupss)) + k) g) /\
    Permutation (endFrame p' []) (seq 0 (_usedDrawCommands p')).
Proof.
  intros Hinv Hunits.
  destruct (@renderTiles_groups context frameState tiles Hunits
              (fst (beginFrame p)) [] (beginFrame_invariant Hinv))
    as (p' & groupss & Hrun & _ & Hall & Hused & Hdrawn & _ & _ & Hkeep).
  destruct (beginFrame_pool p) as (_ & _ & Hzero & _). cbv zeta in Hzero.
  rewrite Hzero in Hused, Hdrawn. cbn [Nat.add] in Hused, Hdrawn.
  exists p', groupss. unfold renderFrame. rewrite Hrun.
  split; [reflexivity|]. split; [exact Hall|]. split; [exact Hused|].
  split; [exact Hdrawn|].
  destruct (Hkeep (beginFrame_frameInvariant p)) as [Hperm _].
  rewrite endFrame_flatten. exact Hperm.
Qed.

(** X12.  The order of the layers is sorted once: when a frame is
    over, the flag [_layerOrderChanged] is clear, so the next
    [beginFrame] requests no sort of the loaded tiles; after any
    positive number of [_onLayerMoved] notifications the next
    [beginFrame] requests one, clears the flag, and leaves the
    provider as it would have been without the notifications. *)
Theorem layer_order_sorted_once
    (p : Provider) (tiles : list QuadtreeTile) (context : Context)
    (frameState : FrameState) :
  poolInvariant p ->
  0 < maximumTextureImageUnits context ->
  exists p',
    renderFrame p tiles context frameState = Some p' /\
    _layerOrderChanged p' = false /\
    snd (beginFrame p') = false /\
    forall n,
      let moved := Nat.iter (S n) _onLayerMoved p' in
      snd (beginFrame moved) = true /\
      fst (beginFrame moved) = fst (beginFrame p') /\
      snd (beginFrame (fst (beginFrame moved))) = false.
Proof.
  intros Hinv Hunits.
  destruct (@renderTiles_groups context frameState tiles Hunits
              (fst (beginFrame p)) [] (beginFrame_invariant Hinv))
    as (p' & groupss & Hrun & _ & _ & _ & _ & _ & Hflag & _).
  assert (Hclear : _layerOrderChanged p' = false).
  { rewrite Hflag. unfold beginFrame.
    destruct (_layerOrderChanged p) eqn:Hwas; cbn; [reflexivity | exact Hwas]. }
  exists p'. unfold renderFrame. rewrite Hrun.
  split; [reflexivity|]. split; [exact Hclear|].
  split; [unfold beginFrame; cbn [snd]; exact Hclear|].
  intros n.
  assert (Hmoved : forall k,
             Nat.iter (S k) _onLayerMoved p' = _onLayerMoved p').
  { induction k as [|k IH]; [reflexivity|].
    change (Nat.iter (S (S k)) _onLayerMoved p')
      with (_onLayerMoved (Nat.iter (S k) _onLayerMoved p')).
    rewrite IH. reflexivity. }
  cbv zeta. rewrite Hmoved. clear - Hclear.
  destruct p'. cbn in Hclear. subst.
  split; [reflexivity|]. split; reflexivity.
Qed.

End RenderLoopProperties.

Section LayerProperties.

Context {surface : SurfaceCollaborators}.

Lemma belongsTo_hasImagery layer t :
  belongsTo layer t = true -> hasImagery t.
Proof.
  unfold belongsTo, hasImagery. destruct (tileImageryLayer t); congruence.
Qed.

(** What the loop reads of an entry that has an imagery. *)
Lemma removalLoop_reads layer t :
  hasImagery t ->
  exists imagery,
    match loadingImagery t with
    | Some imagery => Some imagery
    | None => readyImagery t
    end = Some imagery /\
    Nat.eqb (imageryLayer imagery) layer = belongsTo layer t.
Proof.
  intros Ht. pose proof (removalLoop_imagery t) as Himagery.
  unfold hasImagery in Ht.
  destruct (match loadingImagery t with
            | Some imagery => Some imagery
            | None => readyImagery t
            end) as [imagery|]; cbn [option_map] in Himagery;
    [|congruence].
  exists imagery. split; [reflexivity|].
  unfold belongsTo. now rewrite <- Himagery.
Qed.

Lemma removalLoop_reads_nothing t :
  ~ hasImagery t ->
  match loadingImagery t with
  | Some imagery => Some imagery
  | None => readyImagery t
  end = None.
Proof.
  intros Ht. pose proof (removalLoop_imagery t) as Himagery.
  destruct (match loadingImagery t with
            | Some imagery => Some imagery
            | None => readyImagery t
            end) as [imagery|]; [|reflexivity].
  exfalso. apply Ht. unfold hasImagery. rewrite <- Himagery. discriminate.
Qed.

(** The loop skips entries of other layers while it has met none of
    the layer. *)
Lemma removalLoop_skips layer (pre rest : list TileImagery) :
  forall i freed,
    Forall (fun t => hasImagery t /\ belongsTo layer t = false) pre ->
    removalLoop layer (pre ++ rest) i (-1) 0 freed
    = removalLoop layer rest (i + List.length pre) (-1) 0 freed.
Proof.
  induction pre as [|t pre IH]; intros i freed Hpre; cbn [app List.length].
  - now rewrite Nat.add_0_r.
  - inversion Hpre as [|? ? [Ht Hb] Hrest]; subst.
    cbn [removalLoop].
    destruct (removalLoop_reads layer Ht) as (imagery & -> & ->).
    rewrite Hb. cbn [Z.eqb negb]. rewrite IH by exact Hrest.
    now rewrite Nat.add_succ_r.
Qed.

(** It frees the entries of the layer that follow one another; what
    stops it is the end of the collection, an entry of another layer,
    or an entry without imagery. *)
Lemma removalLoop_frees layer (run rest : list TileImagery) :
  forall i startIndex numDestroyed freed,
    startIndex <> (-1)%Z ->
    Forall (fun t => belongsTo layer t = true) run ->
    removalLoop layer (run ++ rest) i startIndex numDestroyed freed
    = match rest with
      | [] => ((startIndex, numDestroyed + List.length run, freed ++ run),
               Normal tt)
      | h :: _ =>
          match tileImageryLayer h with
          | None => ((startIndex, numDestroyed + List.length run, freed ++ run),
                     Throw TypeError)
          | Some l =>
              if Nat.eqb l layer
              then removalLoop layer rest (i + List.length run) startIndex
                               (numDestroyed + List.length run) (freed ++ run)
              else ((startIndex, numDestroyed + List.length run, freed ++ run),
                    Normal tt)
          end
      end.
Proof.
  induction run as [|t run IH]; intros i s n freed Hs Hrun;
    cbn [app List.length].
  - rewrite !Nat.add_0_r, app_nil_r.
    destruct rest as [|h rest]; [reflexivity|].
    destruct (tileImageryLayer h) as [l|] eqn:Hh.
    + destruct (Nat.eqb l layer) eqn:Hl; [reflexivity|].
      assert (Hhas : hasImagery h) by (unfold hasImagery; congruence).
      cbn [removalLoop].
      destruct (removalLoop_reads layer Hhas) as (imagery & -> & ->).
      unfold belongsTo. rewrite Hh, Hl.
      apply Z.eqb_neq in Hs. now rewrite Hs.
    + assert (Hnot : ~ hasImagery h) by (unfold hasImagery; congruence).
      cbn [removalLoop]. now rewrite (removalLoop_reads_nothing Hnot).
  - inversion Hrun as [|? ? Hb Hrest]; subst.
    cbn [removalLoop].
    destruct (removalLoop_reads layer (belongsTo_hasImagery layer t Hb))
      as (imagery & -> & ->).
    rewrite Hb. pose proof Hs as Hs'. apply Z.eqb_neq in Hs'. rewrite Hs'.
    rewrite IH by assumption.
    rewrite <- app_assoc. cbn [app].
    replace (S n + List.length run) with (n + S (List.length run)) by lia.
    replace (S i + List.length run) with (i + S (List.length run)) by lia.
    reflexivity.
Qed.

(** The callback on a collection made of entries of other layers, then
    at least one entry of the layer, then either nothing or an entry of
    another layer and whatever follows it. *)
Lemma onLayerRemoved_tile_run (layer : LayerRef) (tile : QuadtreeTile)
      (pre run post : list TileImagery) :
  imagery tile = pre ++ run ++ post ->
  Forall (fun t => hasImagery t /\ belongsTo layer t = false) pre ->
  Forall (fun t => belongsTo layer t = true) run ->
  (run = [] -> post = []) ->
  (forall h rest, post = h :: rest ->
                  hasImagery h /\ belongsTo layer h = false) ->
  onLayerRemoved_tile layer tile
  = (({| tileId := tileId tile;
         imagery := pre ++ post;
         isRenderable :=
           if _isBaseLayer (layers layer) then false else isRenderable tile |},
      run),
     Normal tt).
Proof.
  intros Hl Hpre Hrun Hnone Hhead. unfold onLayerRemoved_tile.
  rewrite Hl, removalLoop_skips by exact Hpre. cbn [Nat.add].
  destruct run as [|x run].
  - rewrite (Hnone eq_refl), app_nil_r. cbn [app removalLoop Z.eqb negb].
    reflexivity.
  - inversion Hrun as [|? ? Hx Hrun']; subst.
    cbn [app removalLoop].
    destruct (removalLoop_reads layer (belongsTo_hasImagery layer x Hx))
      as (imagery & -> & ->).
    rewrite Hx. cbn [Z.eqb Pos.eqb].
    rewrite removalLoop_frees by (lia || assumption).
    assert (Hdone : forall r : (Z * nat * list TileImagery) * Completion unit,
               match post with
               | [] => r
               | h :: _ =>
                   match tileImageryLayer h with
                   | None => (fst r, Throw TypeError)
                   | Some l =>
                       if Nat.eqb l layer
                       then removalLoop layer post
                              (1 + List.length pre + List.length run)
                              (Z.of_nat (List.length pre))
                              (1 + List.length run) ([] ++ [x] ++ run)
                       else r
                   end
               end = r).
    { intros r. destruct post as [|h rest]; [reflexivity|].
      destruct (Hhead h rest eq_refl) as [Hh Hb].
      unfold hasImagery in Hh. unfold belongsTo in Hb.
      destruct (tileImageryLayer h); [|congruence]. now rewrite Hb. }
    specialize (Hdone ((Z.of_nat (List.length pre), 1 + List.length run,
                         [] ++ [x] ++ run), Normal tt)).
    cbn [fst app Nat.add] in Hdone |- *.
    rewrite Hdone.
    replace (negb (Z.of_nat (List.length pre) =? -1)%Z) with true
      by (symmetry; apply negb_true_iff, Z.eqb_neq; lia).
    rewrite Nat2Z.id.
    change (S (List.length run)) with (List.length (x :: run)).
    change (pre ++ x :: run ++ post) with (pre ++ (x :: run) ++ post).
    now rewrite splice_run.
Qed.

(** X8.  The callback of [_onLayerRemoved] removes the first run of
    adjacent entries of the layer and nothing else: on a collection
    made of entries of other layers, then entries of the layer, then
    an entry of another layer followed by anything, it frees and
    removes exactly the entries of the run, in order.  What comes
    after the entry that stops the loop is neither read, freed nor
    removed, so entries of the layer that are not adjacent to the
    first run stay in the collection; and when the collection holds no
    entry of the layer, only [isRenderable] can change. *)
Theorem onLayerRemoved_removes_first_run_only
    (layer : LayerRef) (tile : QuadtreeTile)
    (pre run post : list TileImagery) :
  imagery tile = pre ++ run ++ post ->
  Forall (fun t => hasImagery t /\ belongsTo layer t = false) pre ->
  Forall (fun t => belongsTo layer t = true) run ->
  (run = [] -> post = []) ->
  (forall h rest, post = h :: rest ->
                  hasImagery h /\ belongsTo layer h = false) ->
  exists tile',
    onLayerRemoved_tile layer tile = ((tile', run), Normal tt) /\
    tileId tile' = tileId tile /\
    imagery tile' = pre ++ post /\
    isRenderable tile'
    = (if _isBaseLayer (layers layer) then false else isRenderable tile) /\
    List.length (imagery tile')
    = List.length (imagery tile) - List.length run /\
    filter (belongsTo layer) (imagery tile')
    = filter (belongsTo layer) post.
Proof.
  intros Hl Hpre Hrun Hnone Hhead.
  eexists.
  split; [apply (@onLayerRemoved_tile_run layer tile pre run post); assumption|].
  cbn [tileId imagery isRenderable].
  do 3 (split; [reflexivity|]).
  split.
  - rewrite Hl, !length_app. lia.
  - rewrite filter_app. rewrite (@filter_none _ (belongsTo layer) pre).
    + reflexivity.
    + eapply Forall_impl; [|exact Hpre]. now intros t [_ Hb].
Qed.

(** X9.  When the loop of the callback meets an entry that has neither
    a loading nor a ready imagery before it has stopped, the callback
    throws a [TypeError]: the entries of the layer met so far have
    been freed, but none has been removed from the collection, and
    [isRenderable] is as it was.  Whatever follows that entry has not
    been read. *)
Theorem onLayerRemoved_throws_after_freeing
    (layer : LayerRef) (tile : QuadtreeTile)
    (pre run rest : list TileImagery) (bad : TileImagery) :
  imagery tile = pre ++ run ++ bad :: rest ->
  Forall (fun t => hasImagery t /\ belongsTo layer t = false) pre ->
  Forall (fun t => belongsTo layer t = true) run ->
  ~ hasImagery bad ->
  onLayerRemoved_tile layer tile = ((tile, run), Throw TypeError).
Proof.
  intros Hl Hpre Hrun Hbad.
  unfold onLayerRemoved_tile.
  rewrite Hl, removalLoop_skips by exact Hpre. cbn [Nat.add].
  destruct run as [|x run].
  - cbn [app removalLoop]. now rewrite (removalLoop_reads_nothing Hbad).
  - inversion Hrun as [|? ? Hx Hrun']; subst.
    cbn [app removalLoop].
    destruct (removalLoop_reads layer (belongsTo_hasImagery layer x Hx))
      as (imagery & -> & ->).
    rewrite Hx. cbn [Z.eqb Pos.eqb].
    rewrite removalLoop_frees by (lia || assumption).
    unfold hasImagery in Hbad.
    destruct (tileImageryLayer bad); [exfalso; apply Hbad; discriminate|].
    reflexivity.
Qed.

Lemma filter_idempotent {A} (f : A -> bool) (l : list A) :
  filter f (filter f l) = filter f l.
Proof.
  apply filter_all, Forall_forall. intros a Ha.
  now apply filter_In in Ha.
Qed.

Lemma onLayerRemoved_tile_contiguous (layer : LayerRef) (tile : QuadtreeTile) :
  Forall hasImagery (imagery tile) ->
  contiguous layer (imagery tile) ->
  onLayerRemoved_tile layer tile
  = ((withoutLayer layer tile, filter (belongsTo layer) (imagery tile)),
     Normal tt).
Proof.
  intros Hall (pre & run & post & Hl & Hpre & Hrun & Hpost).
  rewrite Hl in Hall. apply Forall_app in Hall. destruct Hall as [Hall1 Hall2].
  apply Forall_app in Hall2. destruct Hall2 as [_ Hall3].
  assert (Hpre' : Forall (fun t => hasImagery t /\ belongsTo layer t = false) pre).
  { apply Forall_forall. intros t Ht. rewrite Forall_forall in Hall1, Hpre.
    auto. }
  assert (Hpost' : Forall (fun t => hasImagery t /\ belongsTo layer t = false) post).
  { apply Forall_forall. intros t Ht. rewrite Forall_forall in Hall3, Hpost.
    auto. }
  assert (Hkeep : forall l, Forall (fun t => belongsTo layer t = false) l ->
                            Forall (fun t => negb (belongsTo layer t) = true) l).
  { intros l H. eapply Forall_impl; [|exact H]. now intros t ->. }
  assert (Hdrop : Forall (fun t => negb (belongsTo layer t) = false) run).
  { eapply Forall_impl; [|exact Hrun]. now intros t ->. }
  assert (Hfiltered :
            filter (fun t => negb (belongsTo layer t)) (imagery tile) = pre ++ post
            /\ filter (belongsTo layer) (imagery tile) = run).
  { rewrite Hl, !filter_app.
    rewrite (filter_all _ (Hkeep _ Hpre)), (filter_none _ Hdrop),
            (filter_all _ (Hkeep _ Hpost)).
    rewrite (filter_none _ Hpre), (filter_all _ Hrun), (filter_none _ Hpost).
    now rewrite app_nil_r. }
  destruct Hfiltered as [Hkept Hfreed].
  unfold withoutLayer. rewrite Hkept, Hfreed.
  destruct run as [|x run].
  - rewrite <- (app_nil_r (pre ++ post)) at 1.
    apply (@onLayerRemoved_tile_run layer tile (pre ++ post) [] []).
    + now rewrite Hl, !app_nil_r.
    + apply Forall_app. now split.
    + constructor.
    + reflexivity.
    + discriminate.
  - apply (@onLayerRemoved_tile_run layer tile pre (x :: run) post);
      try assumption; [discriminate|].
    intros h rest ->. now inversion Hpost'.
Qed.

Lemma withoutLayer_contiguous (layer : LayerRef) (tile : QuadtreeTile) :
  Forall hasImagery (imagery tile) ->
  Forall hasImagery (imagery (withoutLayer layer tile)) /\
  contiguous layer (imagery (withoutLayer layer tile)) /\
  filter (belongsTo layer) (imagery (withoutLayer layer tile)) = [] /\
  withoutLayer layer (withoutLayer layer tile) = withoutLayer layer tile.
Proof.
  intros Hall. cbn [withoutLayer imagery].
  assert (Hnone : Forall (fun t => belongsTo layer t = false)
                         (filter (fun t => negb (belongsTo layer t)) (imagery tile))).
  { apply Forall_forall. intros t Ht. apply filter_In in Ht.
    destruct Ht as [_ Ht]. now destruct (belongsTo layer t). }
  split; [|split; [|split]].
  - apply Forall_forall. intros t Ht. apply filter_In in Ht.
    rewrite Forall_forall in Hall. now apply Hall.
  - exists (filter (fun t => negb (belongsTo layer t)) (imagery tile)), [], [].
    rewrite !app_nil_r. repeat split; try constructor. exact Hnone.
  - now apply filter_none.
  - unfold withoutLayer. cbn [tileId imagery isRenderable].
    rewrite filter_idempotent.
    now destruct (_isBaseLayer (layers layer)).
Qed.

(** X10.  When in every loaded tile the entries have an imagery and
    those of the removed layer are adjacent, [_onLayerRemoved] returns
    normally, leaves in every tile exactly the entries of the other
    layers, in their order, and has freed exactly the entries of the
    layer, tile by tile in the order of the visit.  No entry of the
    layer is left, so removing the layer a second time changes no tile
    and frees nothing: no entry is freed twice. *)
Theorem onLayerRemoved_all_tiles (layer : LayerRef) (tiles : list QuadtreeTile) :
  Forall (fun tile => Forall hasImagery (imagery tile) /\
                      contiguous layer (imagery tile)) tiles ->
  let tiles' := map (withoutLayer layer) tiles in
  _onLayerRemoved layer tiles
  = ((tiles',
      flat_map (fun tile => filter (belongsTo layer) (imagery tile)) tiles),
     Normal tt) /\
  Forall (fun tile => filter (belongsTo layer) (imagery tile) = []) tiles' /\
  _onLayerRemoved layer tiles' = ((tiles', []), Normal tt).
Proof.
  intros Hall tiles'. subst tiles'.
  induction Hall as [|tile tiles [Himagery Hrun] _ (IH1 & IH2 & IH3)].
  - repeat split. constructor.
  - destruct (@withoutLayer_contiguous layer tile Himagery)
      as (Himagery' & Hrun' & Hnone & Hidem).
    cbn [map flat_map _onLayerRemoved].
    rewrite (@onLayerRemoved_tile_contiguous layer tile Himagery Hrun), IH1.
    rewrite (@onLayerRemoved_tile_contiguous layer (withoutLayer layer tile)
               Himagery' Hrun'), IH3.
    rewrite Hnone, Hidem.
    split; [reflexivity|]. split; [|reflexivity].
    constructor; assumption.
Qed.

(** In a collection sorted by layer index in which the index of the
    layer names it, the entries of the layer are adjacent. *)
Lemma sorted_contiguous (index : LayerRef -> Z) (layer : LayerRef)
      (l : list TileImagery) :
  Sorted Z.le (map (entryIndex index) l) ->
  (forall t, In t l -> entryIndex index t = index layer ->
             belongsTo layer t = true) ->
  contiguous layer l.
Proof.
  intros Hsorted Hties.
  set (other := fun t => negb (belongsTo layer t)).
  pose proof (takeWhile_dropWhile other l) as Hsplit.
  pose proof (takeWhile_all other l) as Hpre.
  assert (Hpre' : Forall (fun t => belongsTo layer t = false)
                         (takeWhile other l)).
  { eapply Forall_impl; [|exact Hpre]. unfold other. cbv beta.
    intros t Ht. now destruct (belongsTo layer t). }
  destruct (dropWhile other l) as [|x found] eqn:Hfound.
  - exists l, [], []. rewrite !app_nil_r in *. rewrite Hsplit in Hpre'.
    repeat split; try constructor. exact Hpre'.
  - assert (Hx : belongsTo layer x = true).
    { apply dropWhile_head in Hfound. unfold other in Hfound.
      now destruct (belongsTo layer x). }
    pose proof (takeWhile_dropWhile (belongsTo layer) (x :: found)) as Hsplit2.
    pose proof (takeWhile_all (belongsTo layer) (x :: found)) as Hrun.
    cbn [takeWhile dropWhile] in *. rewrite Hx in *.
    set (pre := takeWhile other l) in *.
    set (run := takeWhile (belongsTo layer) found) in *.
    set (post := dropWhile (belongsTo layer) found) in *.
    assert (Hl : l = pre ++ (x :: run) ++ post)
      by (rewrite Hsplit2; symmetry; exact Hsplit).
    exists pre, (x :: run), post.
    split; [exact Hl|]. split; [exact Hpre'|]. split; [exact Hrun|].
    apply (@sorted_run_is_whole index layer pre run post x);
      try (rewrite <- Hl; assumption); [exact Hx|].
    intros h post' Hpost. unfold post in Hpost.
    now apply dropWhile_head in Hpost.
Qed.

(** X21.  The comparator [beginFrame] sorts the imagery of a tile
    with is defined on entries that have an imagery and is a
    consistent comparator there: it is zero on an entry and itself,
    changes sign when its arguments are swapped, and adds up along a
    chain.  When the layers have distinct indices, a collection
    ordered by it has the entries of every layer adjacent, which is
    what [_onLayerRemoved] relies on to remove them all. *)
Theorem sortTileImageryByLayerIndex_orders_layers :
  (forall a b, hasImagery a -> hasImagery b ->
     exists v,
       sortTileImageryByLayerIndex a b = Some v /\
       sortTileImageryByLayerIndex b a = Some (- v)%Z /\
       sortTileImageryByLayerIndex a a = Some 0%Z) /\
  (forall a b c u v,
     sortTileImageryByLayerIndex a b = Some u ->
     sortTileImageryByLayerIndex b c = Some v ->
     sortTileImageryByLayerIndex a c = Some (u + v)%Z) /\
  (forall l layer,
     (forall l1 l2, _layerIndex (layers l1) = _layerIndex (layers l2) ->
                    l1 = l2) ->
     Forall hasImagery l ->
     orderedByLayerIndex l ->
     contiguous layer l).
Proof.
  split; [|split].
  - intros a b Ha Hb. unfold sortTileImageryByLayerIndex, hasImagery in *.
    destruct (tileImageryLayer a) as [la|]; [|congruence].
    destruct (tileImageryLayer b) as [lb|]; [|congruence].
    eexists. split; [reflexivity|]. split; f_equal; lia.
  - intros a b c u v. unfold sortTileImageryByLayerIndex.
    destruct (tileImageryLayer a) as [la|]; [|discriminate].
    destruct (tileImageryLayer b) as [lb|]; [|discriminate].
    destruct (tileImageryLayer c) as [lc|]; [|discriminate].
    intros [= <-] [= <-]. f_equal. lia.
  - intros l layer Hdistinct Hall Hordered.
    apply (@sorted_contiguous (fun r => _layerIndex (layers r)) layer l).
    + induction Hordered as [|a l Hsorted IH Hhead]; cbn [map];
        constructor.
      * apply IH. now inversion Hall.
      * destruct Hhead as [|b l (v & Hv & Hle)]; cbn [map]; constructor.
        unfold sortTileImageryByLayerIndex in Hv. unfold entryIndex.
        destruct (tileImageryLayer a) as [la|]; [|discriminate].
        destruct (tileImageryLayer b) as [lb|]; [|discriminate].
        injection Hv as <-. lia.
    + intros t Ht Hindex. rewrite Forall_forall in Hall.
      specialize (Hall t Ht). unfold hasImagery in Hall.
      unfold entryIndex in Hindex. unfold belongsTo.
      destruct (tileImageryLayer t) as [lt|]; [|congruence].
      apply Nat.eqb_eq. now apply Hdistinct.
Qed.

End LayerProperties.

(** *** Further properties of the distance metric *)

(** X13.  Whatever the tile, the camera and the projection hold, NaNs
    and infinities included, [getDistanceToTile] returns a binary64
    number that is neither negative nor a NaN: a distance is counted
    only when the test [> 0.0] holds of it, and then its square, the
    sums and the square root are zero, positive or [infinity]. *)
Theorem getDistanceToTile_never_negative
    (project : @Cartographic float -> @Cartesian3 float)
    (tile : @SurfaceTile float) (mode : SceneMode)
    (camera : @Cartesian3 float) (cartographic : @Cartographic float) :
  let result := getDistanceToTile project tile mode camera cartographic in
  (0 <=? result)%float = true /\ PrimFloat.is_nan result = false.
Proof.
  intros result.
  assert (H : nonNegative (Prim2SF result) = true).
  { unfold result, getDistanceToTile, normOfExcesses.
    cbn [num_gtb num_zero num_add num_mul num_sqrt float_JSNumber].
    rewrite sqrt_spec. apply SFsqrt_nonNegative.
    apply add_square_nonNegative.
    apply axis_square_nonNegative.
    apply axis_square_nonNegative.
    reflexivity. }
  split; [now apply nonNegative_leb | now apply nonNegative_not_nan].
Qed.

Section DistanceReads.

Context {N : Type} {num : JSNumber N}.


End DistanceReads.

Section DecoderProperties.

Context {collab : Collaborators}.

Lemma set_batchTableResources_same (c : Content) :
  set_batchTableResources c (_batchTableResources c) = c.
Proof. now destruct c. Qed.

Lemma set_batchTableResources_twice (c : Content) r1 r2 :
  set_batchTableResources (set_batchTableResources c r1) r2
  = set_batchTableResources c r2.
Proof. reflexivity. Qed.

Lemma readInstances_length (v : DataView.t) (hasBatchTable : bool) :
  forall n i off l,
    readInstances v hasBatchTable n i off = Some l -> List.length l = n.
Proof.
  induction n as [|n IH]; intros i off l H; cbn [readInstances] in H.
  - now injection H as <-.
  - destruct (DataView.getFloat64 v off); [|discriminate].
    destruct (DataView.getFloat64 v (off + sizeOfFloat64)); [|discriminate].
    destruct (if hasBatchTable
              then option_map
                     (fun b => (b, off + sizeOfFloat64 + sizeOfFloat64
                                   + sizeOfUint16))
                     (DataView.getUint16 v (off + sizeOfFloat64 + sizeOfFloat64))
              else Some (Z.of_nat i, off + sizeOfFloat64 + sizeOfFloat64))
      as [[bid off']|]; [|discriminate].
    destruct (readInstances v hasBatchTable n (S i) off') as [rest|] eqn:Hrest;
      [|discriminate].
    injection H as <-. cbn [List.length]. f_equal. exact (IH _ _ _ Hrest).
Qed.

Lemma uintLE_nonneg (b : DataView.ArrayBuffer) (n : nat) :
  forall pos v, DataView.uintLE b pos n = Some v -> (0 <= v)%Z.
Proof.
  induction n as [|n IH]; intros pos v H; cbn [DataView.uintLE] in H.
  - injection H as <-. lia.
  - destruct (nth_error b pos) as [lo|]; [|discriminate].
    destruct (DataView.uintLE b (S pos) n) as [hi|] eqn:Hhi; [|discriminate].
    injection H as <-. apply Z.lor_nonneg. split.
    + unfold DataView.byteZ. apply N2Z.is_nonneg.
    + apply (proj2 (Z.shiftl_nonneg hi 8)). exact (IH _ _ Hhi).
Qed.

Lemma getUint_nonneg (w : nat) (v : DataView.t) (off : nat) (n : Z) :
  DataView.getUint w v off = Some n -> (0 <= n)%Z.
Proof.
  unfold DataView.getUint.
  destruct (off + w <=? DataView.byteLength v); [|discriminate].
  apply uintLE_nonneg.
Qed.

(** When the second half of [initialize] throws, it is a [RangeError]
    and the content is as it was. *)
Lemma initializeCollection_throws (c : Content) arrayBuffer resources
      hasBatchTable byteOffset gltfByteLength gltfFormat instancesLength c' e :
  initializeCollection c arrayBuffer resources hasBatchTable byteOffset
                       gltfByteLength gltfFormat instancesLength
  = (c', Throw e) ->
  c' = c /\ e = RangeError.
Proof.
  unfold initializeCollection. intros H.
  repeat match type of H with
         | context [match ?t with _ => _ end] => destruct t
         end;
    try discriminate; injection H as Hc He; subst; now split.
Qed.

(** When it returns, it has installed the collection. *)
Lemma initializeCollection_returns (c : Content) arrayBuffer resources
      hasBatchTable byteOffset gltfByteLength gltfFormat instancesLength c' :
  initializeCollection c arrayBuffer resources hasBatchTable byteOffset
                       gltfByteLength gltfFormat instancesLength
  = (c', Normal tt) ->
  exists m,
    c' = set_processingPromise
           (set_state (set_modelInstanceCollection c (Some m)) PROCESSING)
           (Deferred.resolve (processingPromise c)) /\
    batchTableResources m = resources /\
    List.length (instances m) = Z.to_nat instancesLength /\
    cull m = false /\
    boundingVolume m = contentBoundingVolume (_tile c) /\
    ((exists u, url m = Some u) /\ gltf m = None /\ basePath m = None \/
     url m = None /\ (exists g, gltf m = Some g) /\ basePath m = Some (_url c)).
Proof.
  unfold initializeCollection. intros H.
  destruct (DataView.window arrayBuffer byteOffset (Z.to_nat gltfByteLength))
    as [gltfView|]; [|discriminate].
  destruct (DataView.window arrayBuffer _ _) as [instancesView|];
    [|discriminate].
  destruct (readInstances instancesView hasBatchTable
                          (Z.to_nat instancesLength) 0 0)
    as [l|] eqn:Hread; [|discriminate].
  apply readInstances_length in Hread.
  injection H as <-.
  eexists. split; [reflexivity|].
  destruct (gltfFormat =? 0)%Z; cbn;
    repeat split; try exact Hread; [left|right]; repeat split; eauto.
Qed.

(** What [initialize] leaves when it throws. *)
Lemma initialize_throws
    (c : Content) (arrayBuffer : DataView.ArrayBuffer)
    (byteOffset : option nat) (c' : Content) (e : Exception) :
  initialize c arrayBuffer byteOffset = (c', Throw e) ->
  c' = set_batchTableResources c (_batchTableResources c').
Proof.
  unfold initialize. intros H.
  repeat match type of H with
         | context [if ?t then _ else _] => destruct t
         | context [match ?t with Some _ => _ | None => _ end] => destruct t
         end;
    first
      [ injection H as Hc He; subst
      | apply initializeCollection_throws in H; destruct H as [-> ->] ];
    first [reflexivity | symmetry; apply set_batchTableResources_same].
Qed.

(** X15.  Whenever [initialize] throws, the content is left as it was
    except, at most, for [_batchTableResources]: its state, its
    collection, its two promises and its features are untouched.  The
    exception is one of the three header errors, and then nothing at
    all has changed; or the [SyntaxError] of [JSON.parse], and then
    [_batchTableResources] has been replaced by resources without
    batch table; or a [RangeError] of a read outside the buffer. *)
Theorem initialize_throw_keeps_lifecycle
    (c : Content) (arrayBuffer : DataView.ArrayBuffer)
    (byteOffset : option nat) (c' : Content) (e : Exception) :
  initialize c arrayBuffer byteOffset = (c', Throw e) ->
  c' = set_batchTableResources c (_batchTableResources c') /\
  match e with
  | DeveloperError (InvalidMagic _)
  | DeveloperError (UnsupportedVersion _)
  | DeveloperError (UnsupportedGltfFormat _) => c' = c
  | SyntaxError =>
      exists n, _batchTableResources c'
                = Some {| btFeaturesLength := n; batchTable := None |}
  | RangeError => True
  | _ => False
  end.
Proof.
  unfold initialize. intros H.
  repeat match type of H with
         | context [if ?t then _ else _] => destruct t
         | context [match ?t with Some _ => _ | None => _ end] => destruct t
         end;
    first
      [ injection H as Hc He; subst
      | apply initializeCollection_throws in H; destruct H as [-> ->] ];
    (split;
     [ first [reflexivity | symmetry; apply set_batchTableResources_same]
     | first [reflexivity | exact I | eexists; reflexivity] ]).
Qed.

(** What [initialize] leaves when it returns. *)
Lemma initialize_returns
    (c : Content) (arrayBuffer : DataView.ArrayBuffer)
    (byteOffset : option nat) (c' : Content) :
  initialize c arrayBuffer byteOffset = (c', Normal tt) ->
  exists m resources,
    c' = set_processingPromise
           (set_state
              (set_modelInstanceCollection
                 (set_batchTableResources c (Some resources))
                 (Some m)) PROCESSING)
           (Deferred.resolve (processingPromise c)) /\
    batchTableResources m = resources /\
    List.length (instances m)
    = Z.to_nat (btFeaturesLength resources) /\
    (0 <= btFeaturesLength resources)%Z /\
    cull m = false /\
    boundingVolume m = contentBoundingVolume (_tile c) /\
    ((exists u, url m = Some u) /\ gltf m = None /\ basePath m = None
     \/ url m = None /\ (exists g, gltf m = Some g)
        /\ basePath m = Some (_url c)).
Proof.
  unfold initialize. intros H.
  repeat (match type of H with
          | context [if negb ?t then _ else _] => destruct t
            | context [if negb ?t && negb ?u then _ else _] =>
                destruct t, u
            | context [match DataView.getUint32 ?v ?o with _ => _ end] =>
                let E := fresh "Hread" in
                destruct (DataView.getUint32 v o) eqn:E
            | context [match getStringFromTypedArray ?a ?o ?l with _ => _ end] =>
                destruct (getStringFromTypedArray a o l)
            | context [match JSON_parse ?t with _ => _ end] =>
                destruct (JSON_parse t)
            | context [if (0 <? ?t)%Z then _ else _] => destruct (0 <? t)%Z
            end; cbn [negb andb] in H; try discriminate);
      apply initializeCollection_returns in H;
      destruct H as (m & -> & Hres & Hlen & Hcull & Hvolume & Hsource);
      exists m; eexists; (split; [reflexivity|]);
      cbn [btFeaturesLength _tile _url set_batchTableResources] in *;
      repeat split; try assumption;
      eapply getUint_nonneg; eassumption.
Qed.

(** X16.  When [initialize] returns, the content is in state
    [PROCESSING] with [processingPromise] resolved, and it holds a
    collection and batch-table resources that agree: the collection
    was given these very resources, and it has as many instances as
    the resources have features, so [featuresLength] is that number.
    The collection is not culled, has the bounding volume of the
    tile, and has either a URL or embedded glTF bytes with the URL of
    the content as base path.  Every other field is as it was, the
    features included: on a content without features, [getFeature]
    then creates and returns, for every batch id below that number,
    the feature of that batch id over these resources. *)
Theorem initialize_installs_consistent_collection
    (c : Content) (arrayBuffer : DataView.ArrayBuffer)
    (byteOffset : option nat) (c' : Content) :
  initialize c arrayBuffer byteOffset = (c', Normal tt) ->
  exists m resources,
    c' = {| _modelInstanceCollection := Some m;
            _url := _url c;
            _tileset := _tileset c;
            _tile := _tile c;
            state := PROCESSING;
            processingPromise := Deferred.resolve (processingPromise c);
            readyPromise := readyPromise c;
            _batchTableResources := Some resources;
            _features := _features c;
            destroyed := destroyed c |} /\
    batchTableResources m = resources /\
    featuresLength c' = Some (btFeaturesLength resources) /\
    (0 <= btFeaturesLength resources)%Z /\
    cull m = false /\
    boundingVolume m = contentBoundingVolume (_tile c) /\
    ((exists u, url m = Some u) /\ gltf m = None /\ basePath m = None \/
     url m = None /\ (exists g, gltf m = Some g) /\ basePath m = Some (_url c)) /\
    (_features c = None ->
     forall heap b,
       (0 <= b < btFeaturesLength resources)%Z ->
       exists c'' feature,
         getFeature c' heap (Some b)
         = ((c'', heap + Z.to_nat (btFeaturesLength resources)),
            Normal (Some feature)) /\
         feature = {| featureObject := heap + Z.to_nat b;
                      featureTileset := _tileset c;
                      featureBatchTableResources := Some resources;
                      featureBatchId := Z.to_nat b |}).
Proof.
  intros H.
  pose proof (@initialize_returns c arrayBuffer byteOffset c' H) as Hshape.
  destruct Hshape as (m & resources & -> & Hres & Hlen & Hnonneg & Hcull
                      & Hvolume & Hsource).
  exists m, resources.
  assert (Hcount : collectionLength m = btFeaturesLength resources)
    by (unfold collectionLength; rewrite Hlen; lia).
  split; [reflexivity|]. split; [exact Hres|].
  split; [cbn; now rewrite Hcount|].
  do 4 (split; [assumption|]).
  intros Hnone heap b Hb.
  match goal with
  | |- context [getFeature ?c1 _ _] => set (installed := c1)
  end.
  assert (Hn : featuresLength installed = Some (btFeaturesLength resources))
    by (cbn; now rewrite Hcount).
  rewrite (@getFeature_first_call _ installed heap b
             (btFeaturesLength resources) Hn Hnone Hb).
  do 2 eexists. split; [f_equal; f_equal|].
  - rewrite newFeatures_nth by lia. reflexivity.
  - reflexivity.
Qed.

(** X17.  A delivered buffer always takes the content out of the
    [LOADING] state.  Either the content is not destroyed and
    [initialize] returns: the result is the content it leaves, in
    state [PROCESSING], with [readyPromise] untouched.  Or the state
    is [FAILED], [readyPromise] has been rejected, with the exception
    [initialize] threw or with the reason that the tileset is
    destroyed, and no collection has been installed. *)
Theorem request_then_leaves_loading
    (c : Content) (arrayBuffer : DataView.ArrayBuffer) :
  let c' := request_then c arrayBuffer in
  (isDestroyed c = false /\
   initialize c arrayBuffer None = (c', Normal tt) /\
   state c' = PROCESSING /\
   readyPromise c' = readyPromise c)
  \/
  (state c' = FAILED /\
   _modelInstanceCollection c' = _modelInstanceCollection c /\
   exists error,
     readyPromise c' = Deferred.reject (readyPromise c) error /\
     (isDestroyed c = true /\ error = Rejection "tileset is destroyed" \/
      isDestroyed c = false /\
      snd (initialize c arrayBuffer None) = Throw error)).
Proof.
  unfold request_then.
  destruct (isDestroyed c) eqn:Hdestroyed.
  - right. cbn. split; [reflexivity|]. split; [reflexivity|].
    eexists. split; [reflexivity|]. now left.
  - destruct (initialize c arrayBuffer None) as [c1 [[]|e]] eqn:Hinit.
    + left. split; [reflexivity|]. split; [reflexivity|].
      destruct (@initialize_returns c arrayBuffer None c1 Hinit)
        as (m & resources & -> & _).
      split; reflexivity.
    + right.
      rewrite (@initialize_throws c arrayBuffer None c1 e Hinit).
      cbn. split; [reflexivity|]. split; [reflexivity|].
      exists e. split; [reflexivity|]. now right.
Qed.

(** X22.  A call of [getFeature] that throws has changed nothing: the
    content, its feature cache included, and the allocation counter
    are as before the call.  What it throws is the [TypeError] of
    reading the length of a collection that does not exist yet, or
    the [DeveloperError] of the range check, which comes before the
    features are created. *)
Theorem getFeature_throw_changes_nothing
    (c : Content) (heap : nat) (batchId : option Z) (e : Exception) :
  snd (getFeature c heap batchId) = Throw e ->
  fst (getFeature c heap batchId) = (c, heap) /\
  (_modelInstanceCollection c = None /\ e = TypeError \/
   exists n, featuresLength c = Some n /\
             e = DeveloperError (BatchIdOutOfRange n)).
Proof.
  unfold getFeature, createFeatures, featuresLength.
  destruct (_modelInstanceCollection c) as [m|] eqn:Hm; cbn [option_map].
  - destruct batchId as [b|].
    + destruct (Z.ltb_spec b 0); cbn [orb].
      * intros [= <-]. split; [reflexivity|]. right. eauto.
      * destruct (Z.leb_spec (collectionLength m) b).
        -- intros [= <-]. split; [reflexivity|]. right. eauto.
        -- destruct (_features c) as [features|] eqn:Hf.
           ++ rewrite Hf. cbn [snd]. discriminate.
           ++ destruct (Z.ltb_spec 0 (collectionLength m)); [|lia].
              cbn [_features set_features snd]. discriminate.
    + intros [= <-]. split; [reflexivity|]. right. eauto.
  - intros [= <-]. split; [reflexivity|]. now left.
Qed.

(** *** Truncated buffers *)

Lemma window_overflows (b : DataView.ArrayBuffer) (off len : nat) :
  List.length b < off + len -> DataView.window b off len = None.
Proof.
  intros H. unfold DataView.window.
  destruct (Nat.leb_spec (off + len) (List.length b)); [lia | reflexivity].
Qed.

Lemma initializeCollection_truncated (c : Content) arrayBuffer resources
      hasBatchTable byteOffset gltfByteLength gltfFormat instancesLength :
  List.length arrayBuffer
  < byteOffset + Z.to_nat gltfByteLength
    + Z.to_nat instancesLength * recordLength hasBatchTable ->
  initializeCollection c arrayBuffer resources hasBatchTable byteOffset
                       gltfByteLength gltfFormat instancesLength
  = (c, Throw RangeError).
Proof.
  intros Hshort. unfold initializeCollection, sizeOfFloat64, sizeOfUint16.
  destruct (DataView.window arrayBuffer byteOffset (Z.to_nat gltfByteLength));
    [|reflexivity].
  change (8 * 2 + (if hasBatchTable then 2 else 0))
    with (recordLength hasBatchTable).
  now rewrite window_overflows by lia.
Qed.

(** X20.  A buffer with a valid header and, if it has one, a batch
    table that parses, but with fewer bytes than the header declares
    for the batch table, the glTF and the instance records together,
    makes [initialize] throw a [RangeError].  No collection is
    installed and the state and the promises are as they were, but
    [_batchTableResources] has been assigned resources for the
    declared number of instances. *)
Theorem initialize_truncated_buffer
    (c : Content) (arrayBuffer : DataView.ArrayBuffer) (off : nat)
    (batchTableByteLength gltfByteLength gltfFormat instancesLength : Z) :
  let view := DataView.whole arrayBuffer in
  let hasBatchTable := (0 <? batchTableByteLength)%Z in
  let first := off + 28 + Z.to_nat batchTableByteLength
               + Z.to_nat gltfByteLength in
  getMagic arrayBuffer off = i3dm ->
  DataView.getUint32 view (off + 4) = Some 1%Z ->
  DataView.getUint32 view (off + 12) = Some batchTableByteLength ->
  DataView.getUint32 view (off + 16) = Some gltfByteLength ->
  DataView.getUint32 view (off + 20) = Some gltfFormat ->
  DataView.getUint32 view (off + 24) = Some instancesLength ->
  gltfFormat = 0%Z \/ gltfFormat = 1%Z ->
  (hasBatchTable = true ->
   exists json,
     JSON_parse (firstn (Z.to_nat batchTableByteLength)
                        (skipn (off + 28) arrayBuffer)) = Some json) ->
  List.length arrayBuffer
  < first + Z.to_nat instancesLength * recordLength hasBatchTable ->
  exists c' resources,
    initialize c arrayBuffer (Some off) = (c', Throw RangeError) /\
    c' = set_batchTableResources c (Some resources) /\
    btFeaturesLength resources = instancesLength.
Proof.
  intros view hasBatchTable first Hmagic Hversion Hbt Hgl Hfmt Hn Hformat
         Hjson Hshort.
  assert (Hcheck : negb (gltfFormat =? 0)%Z && negb (gltfFormat =? 1)%Z = false)
    by (destruct Hformat; subst; reflexivity).
  apply magic_eqb_true in Hmagic.
  unfold initialize, sizeOfUint32. fold view.
  replace (off + 4 + 4 + 4) with (off + 12) by lia.
  replace (off + 12 + 4) with (off + 16) by lia.
  replace (off + 16 + 4) with (off + 20) by lia.
  replace (off + 20 + 4) with (off + 24) by lia.
  replace (off + 24 + 4) with (off + 28) by lia.
  rewrite Hmagic, Hversion, Hbt, Hgl, Hfmt, Hn.
  cbn [negb Z.eqb Pos.eqb]. rewrite Hcheck. fold hasBatchTable.
  destruct hasBatchTable eqn:Hhas.
  - destruct (Hjson eq_refl) as [json Hparse].
    unfold getStringFromTypedArray, DataView.window.
    destruct (Nat.leb_spec (off + 28 + Z.to_nat batchTableByteLength)
                           (List.length arrayBuffer)).
    + cbn [option_map]. unfold DataView.bytes.
      cbn [DataView.byteLength DataView.byteOffset DataView.buffer].
      rewrite Hparse.
      rewrite initializeCollection_truncated by (subst first; lia).
      do 2 eexists. split; [reflexivity|]. split; reflexivity.
    + cbn [option_map]. do 2 eexists. split; [reflexivity|].
      split; reflexivity.
  - assert (Z.to_nat batchTableByteLength = 0).
    { unfold hasBatchTable in Hhas.
      destruct (Z.ltb_spec 0 batchTableByteLength); [discriminate | lia]. }
    rewrite initializeCollection_truncated by (subst first; lia).
    do 2 eexists. split; [reflexivity|]. split; reflexivity.
Qed.

(** *** A tile inside a larger buffer *)

Section Embedded.

Variables (inner outer : DataView.ArrayBuffer) (shift : nat).
Hypothesis Hembedded : embedded inner outer shift.

Lemma embedded_nth (pos : nat) :
  pos < List.length inner ->
  nth_error outer (shift + pos) = nth_error inner pos.
Proof.
  intros Hpos. destruct Hembedded as [_ Hin].
  transitivity (nth_error (firstn (List.length inner) (skipn shift outer)) pos);
    [|now rewrite Hin].
  rewrite nth_error_firstn, nth_error_skipn.
  destruct (Nat.ltb_spec pos (List.length inner)); [reflexivity | lia].
Qed.

Lemma embedded_uintLE (n : nat) :
  forall pos v,
    DataView.uintLE inner pos n = Some v ->
    DataView.uintLE outer (shift + pos) n = Some v.
Proof.
  induction n as [|n IH]; intros pos v H; cbn [DataView.uintLE] in *;
    [exact H|].
  destruct (nth_error inner pos) as [lo|] eqn:Hlo; [|discriminate].
  destruct (DataView.uintLE inner (S pos) n) as [hi|] eqn:Hhi; [|discriminate].
  assert (Hpos : pos < List.length inner)
    by (apply nth_error_Some; congruence).
  rewrite (@embedded_nth pos Hpos), Hlo.
  replace (S (shift + pos)) with (shift + S pos) by lia.
  now rewrite (IH _ _ Hhi).
Qed.

Lemma embedded_getUint (w o o' n : nat) (off : nat) (v : Z) :
  o' = shift + o ->
  DataView.getUint w (DataView.mk inner o n) off = Some v ->
  DataView.getUint w (DataView.mk outer o' n) off = Some v.
Proof.
  intros ->. unfold DataView.getUint.
  cbn [DataView.byteLength DataView.buffer DataView.byteOffset].
  destruct (off + w <=? n); [|discriminate].
  intros H. rewrite <- Nat.add_assoc. now apply embedded_uintLE.
Qed.

Lemma embedded_getUint32 (o o' : nat) (v : Z) :
  o' = shift + o ->
  DataView.getUint32 (DataView.whole inner) o = Some v ->
  DataView.getUint32 (DataView.whole outer) o' = Some v.
Proof.
  intros ->. unfold DataView.getUint32, DataView.getUint, DataView.whole.
  cbn [DataView.byteLength DataView.buffer DataView.byteOffset Nat.add].
  destruct Hembedded as [Hlen _].
  destruct (Nat.leb_spec (o + 4) (List.length inner)); [|discriminate].
  destruct (Nat.leb_spec (shift + o + 4) (List.length outer)); [|lia].
  apply embedded_uintLE.
Qed.

Lemma embedded_window (o o' n : nat) (v : DataView.t) :
  o' = shift + o ->
  DataView.window inner o n = Some v ->
  v = DataView.mk inner o n /\
  o + n <= List.length inner /\
  DataView.window outer o' n = Some (DataView.mk outer o' n).
Proof.
  intros ->. unfold DataView.window. destruct Hembedded as [Hlen _].
  destruct (Nat.leb_spec (o + n) (List.length inner)); [|discriminate].
  intros [= <-].
  destruct (Nat.leb_spec (shift + o + n) (List.length outer)); [|lia].
  auto.
Qed.

Lemma embedded_bytes (o o' n : nat) :
  o' = shift + o ->
  o + n <= List.length inner ->
  DataView.bytes (DataView.mk outer o' n)
  = DataView.bytes (DataView.mk inner o n).
Proof.
  intros -> Hfit. unfold DataView.bytes.
  cbn [DataView.byteLength DataView.buffer DataView.byteOffset].
  destruct Hembedded as [_ Hin].
  replace (skipn o inner)
    with (skipn o (firstn (List.length inner) (skipn shift outer)))
    by now rewrite Hin.
  rewrite skipn_firstn_comm, firstn_firstn, skipn_skipn.
  rewrite Nat.min_l by lia.
  now rewrite (Nat.add_comm o shift).
Qed.

Lemma embedded_getMagic (off off' : nat) :
  off' = shift + off ->
  getMagic inner off = i3dm ->
  getMagic outer off' = i3dm.
Proof.
  intros -> Hmagic. unfold getMagic in *.
  assert (Hfit : off + 4 <= List.length inner).
  { apply (f_equal (@List.length byte)) in Hmagic.
    rewrite length_firstn, length_skipn in Hmagic.
    change (List.length i3dm) with 4 in Hmagic. lia. }
  rewrite <- Hmagic.
  exact (@embedded_bytes off (shift + off) 4 eq_refl Hfit).
Qed.

Lemma embedded_getString (o o' n : nat) (str : list byte) :
  o' = shift + o ->
  getStringFromTypedArray inner o n = Some str ->
  getStringFromTypedArray outer o' n = Some str.
Proof.
  intros Ho. unfold getStringFromTypedArray.
  destruct (DataView.window inner o n) as [v|] eqn:Hv; [|discriminate].
  destruct (@embedded_window o o' n v Ho Hv) as (-> & Hfit & ->).
  cbn [option_map]. intros [= <-]. f_equal.
  exact (@embedded_bytes o o' n Ho Hfit).
Qed.

Lemma embedded_readInstances (o o' n : nat) (hasBatchTable : bool) :
  o' = shift + o ->
  forall remaining i off l,
    readInstances (DataView.mk inner o n) hasBatchTable remaining i off
    = Some l ->
    readInstances (DataView.mk outer o' n) hasBatchTable remaining i off
    = Some l.
Proof.
  intros Ho.
  assert (Hfloat : forall off f,
             DataView.getFloat64 (DataView.mk inner o n) off = Some f ->
             DataView.getFloat64 (DataView.mk outer o' n) off = Some f).
  { intros off f. unfold DataView.getFloat64.
    destruct (DataView.getUint 8 (DataView.mk inner o n) off) as [bits|] eqn:Hb;
      [|discriminate].
    now rewrite (@embedded_getUint 8 o o' n off bits Ho Hb). }
  induction remaining as [|remaining IH]; intros i off l H;
    cbn [readInstances] in *; [exact H|].
  destruct (DataView.getFloat64 (DataView.mk inner o n) off)
    as [lon|] eqn:Hlon; [|discriminate].
  rewrite (Hfloat _ _ Hlon).
  destruct (DataView.getFloat64 (DataView.mk inner o n) (off + sizeOfFloat64))
    as [lat|] eqn:Hlat; [|discriminate].
  rewrite (Hfloat _ _ Hlat).
  destruct hasBatchTable.
  - unfold DataView.getUint16 in *.
    destruct (DataView.getUint 2 (DataView.mk inner o n)
                (off + sizeOfFloat64 + sizeOfFloat64)) as [bid|] eqn:Hbid;
      [|discriminate].
    rewrite (@embedded_getUint 2 o o' n _ bid Ho Hbid). cbn [option_map] in *.
    destruct (readInstances (DataView.mk inner o n) true remaining (S i)
                (off + sizeOfFloat64 + sizeOfFloat64 + sizeOfUint16))
      as [rest|] eqn:Hrest; [|discriminate].
    now rewrite (IH _ _ _ Hrest).
  - destruct (readInstances (DataView.mk inner o n) false remaining (S i)
                (off + sizeOfFloat64 + sizeOfFloat64))
      as [rest|] eqn:Hrest; [|discriminate].
    now rewrite (IH _ _ _ Hrest).
Qed.

Lemma embedded_initializeCollection (c c' : Content) resources hasBatchTable
      (o o' : nat) gltfByteLength gltfFormat instancesLength :
  o' = shift + o ->
  initializeCollection c inner resources hasBatchTable o
                       gltfByteLength gltfFormat instancesLength
  = (c', Normal tt) ->
  initializeCollection c outer resources hasBatchTable o'
                       gltfByteLength gltfFormat instancesLength
  = (c', Normal tt).
Proof.
  intros Ho. unfold initializeCollection.
  destruct (DataView.window inner o (Z.to_nat gltfByteLength))
    as [gltfView|] eqn:Hgltf; [|discriminate].
  destruct (@embedded_window o o' _ gltfView Ho Hgltf) as (-> & Hfit & ->).
  destruct (DataView.window inner (o + Z.to_nat gltfByteLength) _)
    as [instancesView|] eqn:Hinstances; [|discriminate].
  assert (Ho2 : o' + Z.to_nat gltfByteLength
                = shift + (o + Z.to_nat gltfByteLength)) by lia.
  destruct (@embedded_window _ _ _ instancesView Ho2 Hinstances)
    as (-> & Hfit2 & ->).
  destruct (readInstances _ hasBatchTable (Z.to_nat instancesLength) 0 0)
    as [l|] eqn:Hread; [|discriminate].
  rewrite (@embedded_readInstances _ _ _ hasBatchTable Ho2 _ _ _ _ Hread).
  rewrite (@embedded_bytes o o' _ Ho Hfit).
  auto.
Qed.

(** X18.  Decoding does not depend on where the tile sits in the
    buffer: when [initialize] returns for a buffer read from an
    offset, it returns, with the same content, for any buffer that
    holds the bytes of the first from some position on, whatever
    precedes and follows them, read from the offset shifted by that
    position. *)
Theorem initialize_embedded_tile
    (c c' : Content) (byteOffset : nat) :
  initialize c inner (Some byteOffset) = (c', Normal tt) ->
  initialize c outer (Some (shift + byteOffset)) = (c', Normal tt).
Proof.
  unfold initialize. intros H.
  destruct (magic_eqb (getMagic inner byteOffset) i3dm) eqn:Hmagic;
    cbn [negb] in H; [|discriminate].
  apply magic_eqb_true in Hmagic.
  rewrite (@embedded_getMagic byteOffset (shift + byteOffset) eq_refl Hmagic).
  replace (magic_eqb i3dm i3dm) with true
    by (symmetry; now apply magic_eqb_true).
  cbn [negb].
  repeat
    (match type of H with
     | match DataView.getUint32 (DataView.whole inner) ?o with _ => _ end = _ =>
         let E := fresh "Hread" in
         destruct (DataView.getUint32 (DataView.whole inner) o) eqn:E;
         [|discriminate];
         match goal with
         | |- context [DataView.getUint32 (DataView.whole outer) ?o'] =>
             rewrite (@embedded_getUint32 o o' _
                        ltac:(unfold sizeOfUint32; lia) E)
         end
     | (if ?t then _ else _) = _ => destruct t; [discriminate|]
     end).
  destruct (0 <? _)%Z.
  - match type of H with
    | context [getStringFromTypedArray inner ?o ?n] =>
        destruct (getStringFromTypedArray inner o n) as [str|] eqn:Hstr;
        [|discriminate];
        match goal with
        | |- context [getStringFromTypedArray outer ?o' n] =>
            rewrite (@embedded_getString o o' n str
                       ltac:(unfold sizeOfUint32; lia) Hstr)
        end
    end.
    destruct (JSON_parse str); [|discriminate].
    revert H. apply embedded_initializeCollection. unfold sizeOfUint32. lia.
  - revert H. apply embedded_initializeCollection. unfold sizeOfUint32. lia.
Qed.

End Embedded.

End DecoderProperties.

(** The second frame of the example sequence is a state the provider
    reaches. *)
Lemma exampleFrames_reachable : @reachable exampleSurface (exampleFrames 2).
Proof.
  assert (H1 : @reachable exampleSurface (exampleFrames 1)).
  { eapply (@reachable_renderTile exampleSurface
              (fst (beginFrame newProvider))
              threeTextureTile twoUnits frame3D []).
    - apply reachable_beginFrame, reachable_new.
    - lazy. reflexivity. }
  eapply (@reachable_renderTile exampleSurface _
            threeTextureTile twoUnits frame3D []).
  - eapply (@reachable_renderTile exampleSurface
              (fst (beginFrame (exampleFrames 1)))
              fiveTextureTile twoUnits frame3D []).
    + apply reachable_beginFrame, H1.
    + lazy. reflexivity.
  - lazy. reflexivity.
Defined.

Lemma exampleFrames_poolInvariant : @poolInvariant (exampleFrames 1).
Proof.
  split; [reflexivity|]. split; [vm_compute; lia|].
  vm_compute. repeat constructor.
Defined.

Lemma twoUnits_positive : 0 < maximumTextureImageUnits twoUnits.
Proof. vm_compute. lia. Defined.

Lemma renderTile_draws_each_usable_imagery_once_witness :
  exists p' credits' tile' groups,
    @renderTile exampleSurface (exampleFrames 1) fiveTextureTile twoUnits
                frame3D []
    = Some (Normal (p', credits', tile')) /\
    List.concat groups = @usableImageries exampleSurface (imagery fiveTextureTile) /\
    _usedDrawCommands p'
    = _usedDrawCommands (exampleFrames 1) + List.length groups /\
    Forall (fun g => List.length g <= maximumTextureImageUnits twoUnits) groups /\
    forall k g, nth_error groups k = Some g ->
                @drawnAt exampleSurface p' frame3D (tileId fiveTextureTile)
                         (_usedDrawCommands (exampleFrames 1) + k) g.
Proof.
  exact (@renderTile_draws_each_usable_imagery_once exampleSurface
           (exampleFrames 1) fiveTextureTile twoUnits frame3D []
           exampleFrames_poolInvariant twoUnits_positive).
Defined.

Lemma renderTile_command_count_witness :
  exists p' credits' tile',
    @renderTile exampleSurface (exampleFrames 1) fiveTextureTile twoUnits
                frame3D []
    = Some (Normal (p', credits', tile')) /\
    let n := _usedDrawCommands p' - _usedDrawCommands (exampleFrames 1) in
    let u := List.length
               (@usableImageries exampleSurface (imagery fiveTextureTile)) in
    1 <= n /\
    u <= maximumTextureImageUnits twoUnits * n /\
    (n - 1) * maximumTextureImageUnits twoUnits <= u.
Proof.
  exact (@renderTile_command_count exampleSurface
           (exampleFrames 1) fiveTextureTile twoUnits frame3D []
           exampleFrames_poolInvariant twoUnits_positive).
Defined.

Lemma renderTile_adds_credits_of_drawn_imagery_witness :
  exists p' tile',
    @renderTile exampleSurface (exampleFrames 1) fiveTextureTile twoUnits
                frame3D [7]
    = Some (Normal (p', [7; 100; 103; 101; 102; 105], tile')).
Proof.
  exact (@renderTile_adds_credits_of_drawn_imagery exampleSurface
           (exampleFrames 1) fiveTextureTile twoUnits frame3D [7]
           exampleFrames_poolInvariant twoUnits_positive).
Defined.

Lemma renderTile_caches_texture_transforms_witness :
  exists p' credits' tile',
    @renderTile exampleSurface (exampleFrames 1) fiveTextureTile twoUnits
                frame3D []
    = Some (Normal (p', credits', tile')) /\
    imagery tile'
    = map (@withCachedTransform exampleSurface (tileId fiveTextureTile))
          (imagery fiveTextureTile) /\
    @usableImageries exampleSurface (imagery tile')
    = @usableImageries exampleSurface (imagery fiveTextureTile) /\
    forall p2 credits2,
      poolInvariant p2 ->
      exists p3 credits3 tile'',
        @renderTile exampleSurface p2 tile' twoUnits frame3D credits2
        = Some (Normal (p3, credits3, tile'')) /\
        imagery tile'' = imagery tile'.
Proof.
  exact (@renderTile_caches_texture_transforms exampleSurface
           (exampleFrames 1) fiveTextureTile twoUnits frame3D []
           exampleFrames_poolInvariant twoUnits_positive).
Defined.

Lemma renderTile_keeps_earlier_commands_witness :
  exists p' credits' tile',
    @renderTile exampleSurface (exampleFrames 1) fiveTextureTile twoUnits
                frame3D []
    = Some (Normal (p', credits', tile')) /\
    (forall i, i < _usedDrawCommands (exampleFrames 1) ->
       nth_error (_drawCommands p') i
       = nth_error (_drawCommands (exampleFrames 1)) i /\
       nth_error (_uniformMaps p') i
       = nth_error (_uniformMaps (exampleFrames 1)) i) /\
    (forall n, exists added,
       tilesAt (_tilesToRenderByTextureCount p') n
       = tilesAt (_tilesToRenderByTextureCount (exampleFrames 1)) n ++ added /\
       Forall (fun command =>
                 _usedDrawCommands (exampleFrames 1) <= command
                 < _usedDrawCommands p') added) /\
    _layerOrderChanged p' = _layerOrderChanged (exampleFrames 1) /\
    _debug_boundingSphereTile p'
    = _debug_boundingSphereTile (exampleFrames 1).
Proof.
  exact (@renderTile_keeps_earlier_commands exampleSurface
           (exampleFrames 1) fiveTextureTile twoUnits frame3D []
           exampleFrames_poolInvariant twoUnits_positive).
Defined.

Lemma endFrame_emits_each_claimed_command_once_witness :
  (forall commandList,
     endFrame (exampleFrames 2) commandList
     = commandList ++ [2; 4; 0; 1; 3]) /\
  Permutation [2; 4; 0; 1; 3] (seq 0 5) /\
  NoDup (endFrame (exampleFrames 2) []).
Proof.
  exact (@endFrame_emits_each_claimed_command_once exampleSurface
           (exampleFrames 2) exampleFrames_reachable).
Defined.

Lemma endFrame_sorted_by_texture_count_witness :
  StronglySorted le (map (textureCount (exampleFrames 2)) [2; 4; 0; 1; 3]) /\
  map (textureCount (exampleFrames 2)) [2; 4; 0; 1; 3] = [1; 1; 2; 2; 2].
Proof.
  split; [|vm_compute; reflexivity].
  exact (@endFrame_sorted_by_texture_count exampleSurface
           (exampleFrames 2) exampleFrames_reachable).
Defined.

Lemma onLayerRemoved_removes_first_run_only_witness :
  exists tile',
    @onLayerRemoved_tile exampleSurface 0 scatteredTile
    = ((tile', [readyEntry 0 100; loadingEntry 0 103]), Normal tt) /\
    tileId tile' = tileId scatteredTile /\
    imagery tile' = [readyEntry 1 101] ++ [readyEntry 2 102; readyEntry 0 105] /\
    isRenderable tile'
    = (if _isBaseLayer (@layers exampleSurface 0) then false
       else isRenderable scatteredTile) /\
    List.length (imagery tile')
    = List.length (imagery scatteredTile)
      - List.length [readyEntry 0 100; loadingEntry 0 103] /\
    filter (belongsTo 0) (imagery tile')
    = filter (belongsTo 0) [readyEntry 2 102; readyEntry 0 105].
Proof.
  apply (@onLayerRemoved_removes_first_run_only exampleSurface 0 scatteredTile
           [readyEntry 1 101] [readyEntry 0 100; loadingEntry 0 103]
           [readyEntry 2 102; readyEntry 0 105]).
  - reflexivity.
  - constructor; [|constructor]. split; [discriminate | reflexivity].
  - repeat constructor.
  - discriminate.
  - intros h rest [= <- _]. split; [discriminate | reflexivity].
Defined.

Lemma onLayerRemoved_throws_after_freeing_witness :
  @onLayerRemoved_tile exampleSurface 0 brokenTile
  = ((brokenTile, [readyEntry 0 100]), Throw TypeError).
Proof.
  apply (@onLayerRemoved_throws_after_freeing exampleSurface 0 brokenTile
           [readyEntry 1 101] [readyEntry 0 100] [readyEntry 0 105] emptyEntry).
  - reflexivity.
  - constructor; [|constructor]. split; [discriminate | reflexivity].
  - repeat constructor.
  - intros H. apply H. reflexivity.
Defined.

Lemma onLayerRemoved_all_tiles_witness :
  let tiles' := map (@withoutLayer exampleSurface 1)
                    [threeTextureTile; fiveTextureTile; bareTile] in
  @_onLayerRemoved exampleSurface 1 [threeTextureTile; fiveTextureTile; bareTile]
  = ((tiles',
      flat_map (fun tile => filter (belongsTo 1) (imagery tile))
               [threeTextureTile; fiveTextureTile; bareTile]),
     Normal tt) /\
  Forall (fun tile => filter (belongsTo 1) (imagery tile) = []) tiles' /\
  @_onLayerRemoved exampleSurface 1 tiles' = ((tiles', []), Normal tt).
Proof.
  apply (@onLayerRemoved_all_tiles exampleSurface 1
           [threeTextureTile; fiveTextureTile; bareTile]).
  constructor; [|constructor; [|constructor; [|constructor]]].
  - split; [repeat (constructor; [discriminate|]); constructor|].
    exists [readyEntry 0 100], [readyEntry 1 101], [readyEntry 2 102].
    repeat split; repeat constructor.
  - split; [repeat (constructor; [discriminate|]); constructor|].
    exists [readyEntry 0 100; readyEntry 0 103],
           [readyEntry 1 101; loadingEntry 1 104],
           [readyEntry 2 102; readyEntry 2 105].
    repeat split; repeat constructor.
  - split; [constructor|].
    exists [], [], []. repeat split; constructor.
Defined.

Lemma renderFrame_draws_every_tile_witness :
  exists p' groupss,
    @renderFrame exampleSurface (exampleFrames 1)
                 [fiveTextureTile; threeTextureTile] twoUnits frame3D
    = Some p' /\
    Forall2 (fun tile groups =>
               groups <> [] /\
               List.concat groups
               = @usableImageries exampleSurface (imagery tile) /\
               Forall (fun g => List.length g
                                <= maximumTextureImageUnits twoUnits) groups)
            [fiveTextureTile; threeTextureTile] groupss /\
    _usedDrawCommands p' = List.length (List.concat groupss) /\
    (forall j tile groups k g,
        nth_error [fiveTextureTile; threeTextureTile] j = Some tile ->
        nth_error groupss j = Some groups ->
        nth_error groups k = Some g ->
        @drawnAt exampleSurface p' frame3D (tileId tile)
                 (List.length (List.concat (firstn j groupss)) + k) g) /\
    Permutation (endFrame p' []) (seq 0 (_usedDrawCommands p')).
Proof.
  exact (@renderFrame_draws_every_tile exampleSurface (exampleFrames 1)
           [fiveTextureTile; threeTextureTile] twoUnits frame3D
           exampleFrames_poolInvariant twoUnits_positive).
Defined.

Lemma layer_order_sorted_once_witness :
  exists p',
    @renderFrame exampleSurface (_onLayerMoved (exampleFrames 1))
                 [fiveTextureTile; threeTextureTile] twoUnits frame3D
    = Some p' /\
    _layerOrderChanged p' = false /\
    snd (beginFrame p') = false /\
    forall n,
      let moved := Nat.iter (S n) _onLayerMoved p' in
      snd (beginFrame moved) = true /\
      fst (beginFrame moved) = fst (beginFrame p') /\
      snd (beginFrame (fst (beginFrame moved))) = false.
Proof.
  apply (@layer_order_sorted_once exampleSurface
           (_onLayerMoved (exampleFrames 1))
           [fiveTextureTile; threeTextureTile] twoUnits frame3D).
  - split; [reflexivity|]. split; [vm_compute; lia|].
    vm_compute. repeat constructor.
  - vm_compute. lia.
Defined.


Lemma initialize_throw_keeps_lifecycle_witness :
  let c' := @set_batchTableResources strictCollaborators strictContent
              (Some (@Build_Cesium3DTileBatchTableResources
                       strictCollaborators 1%Z None)) in
  @initialize strictCollaborators strictContent malformedTile (Some 0)
  = (c', Throw SyntaxError) /\
  c' = set_batchTableResources strictContent (_batchTableResources c') /\
  exists n, _batchTableResources c'
            = Some (@Build_Cesium3DTileBatchTableResources
                      strictCollaborators n None).
Proof.
  intros c'.
  assert (H : @initialize strictCollaborators strictContent malformedTile
                          (Some 0) = (c', Throw SyntaxError))
    by (vm_compute; reflexivity).
  split; [exact H|].
  exact (@initialize_throw_keeps_lifecycle strictCollaborators strictContent
           malformedTile (Some 0) c' SyntaxError H).
Defined.

Lemma initialize_installs_consistent_collection_witness :
  exists m resources,
    exampleInitialized
    = {| _modelInstanceCollection := Some m;
         _url := _url exampleContent;
         _tileset := _tileset exampleContent;
         _tile := _tile exampleContent;
         state := PROCESSING;
         processingPromise := Deferred.resolve (processingPromise exampleContent);
         readyPromise := readyPromise exampleContent;
         _batchTableResources := Some resources;
         _features := _features exampleContent;
         destroyed := destroyed exampleContent |} /\
    batchTableResources m = resources /\
    featuresLength exampleInitialized = Some (btFeaturesLength resources) /\
    (0 <= btFeaturesLength resources)%Z /\
    cull m = false /\
    boundingVolume m = contentBoundingVolume (_tile exampleContent) /\
    ((exists u, url m = Some u) /\ gltf m = None /\ basePath m = None \/
     url m = None /\ (exists g, gltf m = Some g)
     /\ basePath m = Some (_url exampleContent)) /\
    (_features exampleContent = None ->
     forall heap b,
       (0 <= b < btFeaturesLength resources)%Z ->
       exists c'' feature,
         getFeature exampleInitialized heap (Some b)
         = ((c'', heap + Z.to_nat (btFeaturesLength resources)),
            Normal (Some feature)) /\
         feature = {| featureObject := heap + Z.to_nat b;
                      featureTileset := _tileset exampleContent;
                      featureBatchTableResources := Some resources;
                      featureBatchId := Z.to_nat b |}).
Proof.
  apply (@initialize_installs_consistent_collection exampleCollaborators
           exampleContent exampleTile None exampleInitialized).
  vm_compute. reflexivity.
Defined.

Lemma initialize_embedded_tile_witness :
  @embedded exampleTileWithBatchTable compositeBuffer 2 /\
  @initialize exampleCollaborators exampleContent compositeBuffer (Some (2 + 0))
  = (exampleInitializedWithBatchTable, Normal tt).
Proof.
  assert (He : @embedded exampleTileWithBatchTable compositeBuffer 2)
    by (split; [vm_compute; lia | reflexivity]).
  split; [exact He|].
  apply (@initialize_embedded_tile exampleCollaborators
           exampleTileWithBatchTable compositeBuffer 2 He
           exampleContent exampleInitializedWithBatchTable 0).
  vm_compute. reflexivity.
Defined.

Lemma renderTile_never_returns_without_texture_units_witness :
  @renderTile exampleSurface (exampleFrames 1) threeTextureTile noUnits
              frame3D [] = None /\
  (forall fuel seen,
     @renderLoop exampleSurface fuel (exampleFrames 1) noUnits frame3D
                 (tileId threeTextureTile) [] seen (imagery threeTextureTile)
     = None) /\
  exists p',
    @renderPass exampleSurface (exampleFrames 1) noUnits frame3D
                (tileId threeTextureTile) [] (imagery threeTextureTile)
    = Normal (p', [], [], imagery threeTextureTile) /\
    _usedDrawCommands p' = S (_usedDrawCommands (exampleFrames 1)) /\
    poolInvariant p'.
Proof.
  apply (@renderTile_never_returns_without_texture_units exampleSurface
           (exampleFrames 1) threeTextureTile noUnits frame3D []).
  - exact exampleFrames_poolInvariant.
  - reflexivity.
  - discriminate.
Defined.

Lemma initialize_truncated_buffer_witness :
  exists c' resources,
    @initialize exampleCollaborators exampleContent truncatedTile (Some 0)
    = (c', Throw RangeError) /\
    c' = set_batchTableResources exampleContent (Some resources) /\
    btFeaturesLength resources = 2%Z.
Proof.
  apply (@initialize_truncated_buffer exampleCollaborators exampleContent
           truncatedTile 0 0%Z 1%Z 0%Z 2%Z); try reflexivity.
  - left; reflexivity.
  - discriminate.
  - vm_compute. lia.
Defined.

Lemma sortTileImageryByLayerIndex_orders_layers_witness :
  (exists v,
     @sortTileImageryByLayerIndex distinctSurface
        (readyEntry 2 102) (loadingEntry 1 104) = Some v /\
     @sortTileImageryByLayerIndex distinctSurface
        (loadingEntry 1 104) (readyEntry 2 102) = Some (- v)%Z /\
     @sortTileImageryByLayerIndex distinctSurface
        (readyEntry 2 102) (readyEntry 2 102) = Some 0%Z) /\
  contiguous 1 (imagery fiveTextureTile).
Proof.
  destruct (@sortTileImageryByLayerIndex_orders_layers distinctSurface)
    as (Hconsistent & _ & Hadjacent).
  split.
  - apply Hconsistent; discriminate.
  - apply Hadjacent.
    + intros l1 l2 H. cbn in H. lia.
    + repeat (constructor; [discriminate|]). constructor.
    + unfold orderedByLayerIndex, fiveTextureTile, exampleQuadtreeTile.
      cbn [imagery].
      repeat (apply Sorted_cons;
              [|first [apply HdRel_nil
                      | apply HdRel_cons; eexists;
                        split; [reflexivity | vm_compute; discriminate]]]).
      apply Sorted_nil.
Defined.

Lemma request_then_leaves_loading_witness :
  state (@request_then exampleCollaborators
           (request exampleContent true) exampleTile) = PROCESSING /\
  state (@request_then exampleCollaborators
           (request exampleContent true) truncatedTile) = FAILED.
Proof.
  split.
  - destruct (@request_then_leaves_loading exampleCollaborators
                (request exampleContent true) exampleTile)
      as [(_ & _ & Hstate & _) | (Hstate & _)];
      [exact Hstate | vm_compute in Hstate; discriminate].
  - destruct (@request_then_leaves_loading exampleCollaborators
                (request exampleContent true) truncatedTile)
      as [(_ & _ & Hstate & _) | (Hstate & _)];
      [vm_compute in Hstate; discriminate | exact Hstate].
Defined.

Lemma getFeature_throw_changes_nothing_witness :
  fst (@getFeature exampleCollaborators exampleInitialized 7 (Some 2%Z))
  = (exampleInitialized, 7) /\
  fst (@getFeature exampleCollaborators exampleContent 7 (Some 0%Z))
  = (exampleContent, 7).
Proof.
  split.
  - apply (@getFeature_throw_changes_nothing exampleCollaborators
             exampleInitialized 7 (Some 2%Z)
             (DeveloperError (BatchIdOutOfRange 2))).
    vm_compute. reflexivity.
  - apply (@getFeature_throw_changes_nothing exampleCollaborators
             exampleContent 7 (Some 0%Z) TypeError).
    reflexivity.
Defined.

Lemma getDistanceToTile_never_negative_witness :
  let result :=
    getDistanceToTile flatProjection (@unitBox float _) MORPHING
      {| x := infinity; y := nan; z := neg_infinity |}
      {| longitude := nan; latitude := nan; height := nan |} in
  (0 <=? result)%float = true /\ PrimFloat.is_nan result = false.
Proof.
  exact (@getDistanceToTile_never_negative flatProjection (@unitBox float _)
           MORPHING
           {| x := infinity; y := nan; z := neg_infinity |}
           {| longitude := nan; latitude := nan; height := nan |}).
Defined.
